(** * Trading bot control loop: a shallow embedding and its properties

    The development follows the Python sources of the bot module by module:
    [core/timeframes.py], [engine/scheduler.py], [risk/limits.py],
    [risk/sizing.py], [risk/sltp.py], [risk/risk_manager.py],
    [execution/retry.py], [execution/idempotency.py],
    [execution/executor.py], [persistence/repos.py],
    [ranking/normalizer.py] and [ranking/correlation.py].

    Conventions of the embedding.
    - Python [int] is [Z]; Python [float] is an exact rational [Q] (the
      normaliser, which has to tell infinities and NaN apart, uses [Q]
      extended with [+inf], [-inf] and [NaN]).
    - An aware [datetime] is its UTC instant in microseconds since the epoch,
      a [Z]; comparing two aware datetimes compares these instants.
    - A call that may raise returns an [outcome]: [Returned v] or [Raised e].
    - What the broker, the clock and the interpreter's [format] answer is an
      input of the model (an oracle), never a fixed value.
    - A [dict] that is filled or looked up by key is a [gmap string _]; a
      literal table or a small result dictionary is an association list or a
      record; a SQL table is the list of its rows, oldest first.
    - The store is reliable: an INSERT fails only on the UNIQUE constraint
      and an UPDATE succeeds. *)

From Stdlib Require Import ZArith QArith Qround Qabs Qpower List String Ascii Bool Lia Lqa Sorted.
From stdpp Require Import gmap strings.
Import ListNotations.

Local Open Scope string_scope.
Local Open Scope Z_scope.

(** ** Python values shared by all modules *)

Module Py.

(** The exception classes the modelled code raises or catches
    ([core/exceptions.py] and the built-in ones), each with the argument it
    was raised with; [OtherError] stands for any other exception and carries
    its [str]. *)
Inductive exn : Type :=
| ValueError (msg : string)
| KeyError (msg : string)
| AssertionError
| BrokerError (msg : string)
| BrokerDisconnectedError (msg : string)
| RetryableBrokerError (msg : string)
| OtherError (msg : string).

Inductive outcome (A : Type) : Type :=
| Returned (a : A)
| Raised (e : exn).
Arguments Returned {A} a.
Arguments Raised {A} e.

(** Microseconds in [timedelta(seconds=s)] and [timedelta(minutes=m)]. *)
Definition timedelta_seconds (s : Z) : Z := s * 1000000.
Definition timedelta_minutes (m : Z) : Z := m * 60 * 1000000.

End Py.
Import Py.

(** ** core/timeframes.py *)

Module Timeframes.

Record TimeframeSpec := { code : string; seconds : Z }.

Definition TIMEFRAMES : list (string * TimeframeSpec) :=
  [ ("M1",  {| code := "M1";  seconds := 60 |});
    ("M5",  {| code := "M5";  seconds := 5 * 60 |});
    ("M15", {| code := "M15"; seconds := 15 * 60 |});
    ("M30", {| code := "M30"; seconds := 30 * 60 |});
    ("H1",  {| code := "H1";  seconds := 60 * 60 |});
    ("H4",  {| code := "H4";  seconds := 4 * 60 * 60 |});
    ("D1",  {| code := "D1";  seconds := 24 * 60 * 60 |}) ].

Fixpoint dict_get {V : Type} (d : list (string * V)) (k : string) : option V :=
  match d with
  | [] => None
  | (k', v) :: d' => if String.eqb k k' then Some v else dict_get d' k
  end.

(** [timeframe_seconds]: raises [ValueError] on a code outside the table. *)
Definition timeframe_seconds (c : string) : outcome Z :=
  match dict_get TIMEFRAMES c with
  | None => Raised (ValueError ("Unsupported timeframe: " ++ c))
  | Some spec => Returned (seconds spec)
  end.

End Timeframes.

(** ** engine/scheduler.py *)

Module Scheduler.
Import Timeframes.

Record CandleCloseScheduler := {
  timeframe : string;
  last_candle_close_time_utc : option Z
}.

(** What [connector.get_candles(anchor, timeframe, 3)] answers: it raises, or
    returns [None], or a frame, of which only the [time_utc] column is read
    (one instant per row, in the order of the rows). *)
Definition candles_reply : Type := outcome (option (list Z)).

Definition poll (s : CandleCloseScheduler) (reply : candles_reply)
  : CandleCloseScheduler * outcome (option Z) :=
  match reply with
  | Raised e => (s, Raised e)
  | Returned None => (s, Returned None)
  | Returned (Some df) =>
      if (length df <? 3)%nat then (s, Returned None)
      else
        (* df["time_utc"].iloc[-2] *)
        match nth_error df (length df - 2) with
        | None => (s, Returned None)
        | Some open_dt =>
            match timeframe_seconds (timeframe s) with
            | Raised e => (s, Raised e)
            | Returned secs =>
                let close_time := open_dt + timedelta_seconds secs in
                let fresh :=
                  match last_candle_close_time_utc s with
                  | None => true
                  | Some last => last <? close_time
                  end in
                if fresh
                then ({| timeframe := timeframe s;
                         last_candle_close_time_utc := Some close_time |},
                      Returned (Some close_time))
                else (s, Returned None)
            end
        end
  end.

(** The engine loop polls again and again; the scheduler object is kept
    between the calls. *)
Fixpoint run_polls (s : CandleCloseScheduler) (replies : list candles_reply)
  : CandleCloseScheduler * list (outcome (option Z)) :=
  match replies with
  | [] => (s, [])
  | r :: rest =>
      let '(s1, o) := poll s r in
      let '(s2, os) := run_polls s1 rest in
      (s2, o :: os)
  end.

(** The non-null close times among the results, in the order of the calls. *)
Fixpoint returned_times (os : list (outcome (option Z))) : list Z :=
  match os with
  | [] => []
  | Returned (Some t) :: rest => t :: returned_times rest
  | _ :: rest => returned_times rest
  end.

(** The close time of the most recent closed bar as the specification words
    it: the open time of the second-to-last of at least three bars plus the
    timeframe's length. *)
Definition spec_close_time (tf : string) (bars : list Z) : option Z :=
  match rev bars with
  | _ :: closed_bar :: _ :: _ =>
      match dict_get TIMEFRAMES tf with
      | Some spec => Some (closed_bar + seconds spec * 1000000)
      | None => None
      end
  | _ => None
  end.

End Scheduler.

(** ** connectors/base.py: the data the broker adapter exchanges *)

Module Connector.

Inductive Side : Type := LONG | SHORT | FLAT.

(** [Side.value]. *)
Definition side_value (s : Side) : string :=
  match s with LONG => "long" | SHORT => "short" | FLAT => "flat" end.

Definition side_eqb (a b : Side) : bool :=
  match a, b with
  | LONG, LONG | SHORT, SHORT | FLAT, FLAT => true
  | _, _ => false
  end.

Inductive AccountTradeMode : Type := DEMO | REAL | CONTEST | UNKNOWN.

Record SymbolMeta := {
  name : string;
  digits : option Z;
  point : option Q;
  trade_allowed : option bool;
  spread_points : option Q;
  trade_stops_level : option Z;
  volume_min : option Q;
  volume_max : option Q;
  volume_step : option Q;
  trade_tick_value : option Q;
  trade_tick_size : option Q;
  trade_contract_size : option Q
}.

Record Quote := {
  quote_symbol : string;
  bid : Q;
  ask : Q;
  quote_time_utc : Z;
  quote_spread_points : Q
}.

Record Position := {
  position_id : Z;
  pos_symbol : string;
  pos_side : Side;
  pos_volume : Q;
  price_open : Q;
  pos_sl : option Q;
  pos_tp : option Q;
  pos_time_utc : Z;
  pos_profit : option Q;
  pos_magic : option Z;
  pos_comment : option string
}.

Record Deal := {
  deal_ticket : Z;
  deal_position_id : option Z;
  deal_order_ticket : option Z;
  deal_time_utc : Z;
  deal_symbol : string;
  deal_side : Side;
  entry : string;
  deal_volume : Q;
  deal_price : Q;
  deal_profit : option Q;
  deal_magic : option Z;
  deal_comment : option string
}.

Record AccountInfo := {
  login : option Z;
  server : option string;
  currency : option string;
  leverage : option Z;
  balance : option Q;
  equity : option Q;
  margin : option Q;
  trade_mode : AccountTradeMode
}.

Record OrderRequest := {
  req_symbol : string;
  req_side : Side;
  req_volume : Q;
  req_sl : option Q;
  req_tp : option Q;
  deviation_points : Z;
  req_magic : Z;
  req_comment : string;
  req_idempotency_key : string;
  (* if set, the request is intended to close that position *)
  req_position_id : option Z
}.

(** [raw] is the broker's result dictionary, kept as its JSON text. *)
Record OrderResult := {
  success : bool;
  retcode : option Z;
  order_ticket : option Z;
  res_position_id : option Z;
  res_comment : option string;
  raw : string
}.

End Connector.

(** ** Python numerics on the rational model *)

Module Num.

Local Open Scope Q_scope.

Definition Qlt_bool (a b : Q) : bool := negb (Qle_bool b a).

(** [max(a, b)] and [min(a, b)] of Python: the first argument wins ties. *)
Definition py_max (a b : Q) : Q := if Qlt_bool a b then b else a.
Definition py_min (a b : Q) : Q := if Qlt_bool b a then b else a.

(** [x or 0.0] for an optional float. *)
Definition or_zero (x : option Q) : Q :=
  match x with Some q => q | None => 0 end.

(** Truth value of an optional float: [None] and [0.0] are false. *)
Definition truthy (x : option Q) : bool :=
  match x with Some q => negb (Qeq_bool q 0) | None => false end.

(** [math.floor(value / step) * step]. *)
Definition floor_to_step (value step : Q) : Q :=
  inject_Z (Qfloor (value / step)) * step.

End Num.

(** ** Python floats

    A float operation is the exact operation followed by the rounding of its
    result to a float.  The code below that depends on this rounding takes
    the rounding [rnd] as an argument: [no_rounding] leaves every result as
    it is,
    [binary64] rounds to the nearest number with a 53-bit significand, ties
    to even, as IEEE 754 double precision does while the exponent stays in
    range (overflow, underflow and NaN are not modelled). *)

Module Float64.
Local Open Scope Q_scope.

Section Operations.

Variable rnd : Q -> Q.

Definition fmul (x y : Q) : Q := rnd (x * y).
Definition fdiv (x y : Q) : Q := rnd (x / y).

End Operations.

Definition no_rounding (x : Q) : Q := x.

Definition pow2 (e : Z) : Q := 2 ^ e.

(** The whole number nearest to [x], the even one of two equally near. *)
Definition round_half_even (x : Q) : Z :=
  let f := Qfloor x in
  match Qcompare (x - inject_Z f) (1 # 2) with
  | Lt => f
  | Gt => (f + 1)%Z
  | Eq => if Z.even f then f else (f + 1)%Z
  end.

(** For a positive [x], the exponent [e] with [2^e <= x < 2^(e+1)]. *)
Definition ilog2 (x : Q) : Z :=
  let e := (Z.log2 (Qnum x) - Z.log2 (Zpos (Qden x)))%Z in
  if Qle_bool (pow2 e) x then e else (e - 1)%Z.

Definition binary64 (x : Q) : Q :=
  match Qnum x with
  | Z0 => 0
  | _ =>
      let a := Qabs x in
      let s := (ilog2 a - 52)%Z in
      let m := round_half_even (a / pow2 s) in
      Qred ((if Qle_bool 0 x then 1 else -1) * (inject_Z m * pow2 s))
  end.


(** The rounding of [x] is off by at most the fraction [u] of [x]. *)
Definition accurate_at (u : Q) (rnd : Q -> Q) (x : Q) : Prop :=
  Qabs (rnd x - x) <= u * Qabs x.

End Float64.

(** ** core/config.py: the settings the modelled code reads *)

Module Config.

Record RiskRRConfig := { stop_points : Z; take_points : Z }.
Record RiskATRConfig := { period : Z; sl_mult : Q; tp_mult : Q }.
Record RiskCooloffConfig := { enabled : bool; losses : Z; minutes : Z }.

Inductive SltpMode : Type := rr_mode | atr_mode.

Record RiskConfig := {
  risk_per_trade : Q;
  max_daily_loss_pct : Q;
  max_drawdown_pct : Q;
  max_open_positions_total : Z;
  max_open_positions_per_symbol : Z;
  sltp_mode : SltpMode;
  rr : RiskRRConfig;
  atr : RiskATRConfig;
  cooloff : RiskCooloffConfig
}.

Record ExecutionRetries := { max_attempts : Z; backoff_seconds : list Q }.

Record ExecutionConfig := {
  trading_enabled : bool;
  close_on_exit_signal : bool;
  slippage_points : Z;
  magic_number : Z;
  retries : ExecutionRetries
}.

Record AppConfig := { risk : RiskConfig; execution : ExecutionConfig }.

(** [AppConfig()]: the defaults of the pydantic models. *)
Definition default_config : AppConfig :=
  {| risk :=
       {| risk_per_trade := 5 # 1000;
          max_daily_loss_pct := 2 # 100;
          max_drawdown_pct := 6 # 100;
          max_open_positions_total := 5;
          max_open_positions_per_symbol := 1;
          sltp_mode := rr_mode;
          rr := {| stop_points := 100; take_points := 200 |};
          atr := {| period := 14; sl_mult := 15 # 10; tp_mult := 3 # 1 |};
          cooloff := {| enabled := true; losses := 3; minutes := 120 |} |};
     execution :=
       {| trading_enabled := false;
          close_on_exit_signal := true;
          slippage_points := 20;
          magic_number := 26012026;
          retries := {| max_attempts := 3;
                        backoff_seconds := [1 # 1; 3 # 1; 7 # 1]%Q |} |} |}.

End Config.

(** ** risk/limits.py *)

Module Limits.
Import Connector Num.

Record PositionCounts := { total : Z; per_symbol : gmap string Z }.

(** The guard of the loop body: the position carries another magic number. *)
Definition other_magic (magic : option Z) (p_magic : option Z) : bool :=
  match magic, p_magic with
  | Some m, Some pm => negb (pm =? m)
  | _, _ => false
  end.

Definition count_step (magic : option Z) (acc : PositionCounts) (p : Position)
  : PositionCounts :=
  if other_magic magic (pos_magic p) then acc
  else {| total := total acc + 1;
          per_symbol :=
            <[ pos_symbol p := default 0 (per_symbol acc !! pos_symbol p) + 1 ]>
              (per_symbol acc) |}.

Definition count_positions (positions : list Position) (magic : option Z)
  : PositionCounts :=
  fold_left (count_step magic) positions {| total := 0; per_symbol := ∅ |}.

Local Open Scope Q_scope.

Definition drawdown_pct (peak_equity equity : Q) : Q :=
  if Qle_bool peak_equity 0 then 0
  else py_max 0 ((peak_equity - equity) / peak_equity).

Definition daily_loss_pct (daily_start_equity equity : Q) : Q :=
  if Qle_bool daily_start_equity 0 then 0
  else py_max 0 ((daily_start_equity - equity) / daily_start_equity).

End Limits.

(** ** risk/sizing.py *)

Module Sizing.
Import Connector Num Float64.
Local Open Scope Q_scope.

Record VolumeResult := { ok : bool; volume : option Q; reason : string }.

Definition _round_down_to_step (value step : Q) : Q :=
  if Qle_bool step 0 then value else floor_to_step value step.

Definition compute_volume (equity risk_per_trade stop_points : Q)
  (symbol : SymbolMeta) : VolumeResult :=
  if Qle_bool equity 0 then
    {| ok := false; volume := None; reason := "equity unavailable" |}
  else if Qle_bool stop_points 0 then
    {| ok := false; volume := None; reason := "invalid stop distance" |}
  else
    let point := or_zero (point symbol) in
    let tick_value := or_zero (trade_tick_value symbol) in
    let tick_size := or_zero (trade_tick_size symbol) in
    if Qle_bool point 0 || Qle_bool tick_value 0 || Qle_bool tick_size 0 then
      {| ok := false; volume := None;
         reason := "missing symbol tick metadata for sizing" |}
    else
      let money_per_point := tick_value * point / tick_size in
      if Qle_bool money_per_point 0 then
        {| ok := false; volume := None; reason := "invalid tick metadata" |}
      else
        let risk_money := equity * risk_per_trade in
        let vol := risk_money / (stop_points * money_per_point) in
        let vol_min := or_zero (volume_min symbol) in
        let vol_max :=
          if truthy (volume_max symbol) then Some (or_zero (volume_max symbol))
          else None in
        let vol_step := or_zero (volume_step symbol) in
        let vol := if Qlt_bool 0 vol_min then py_max vol vol_min else vol in
        let vol :=
          match vol_max with
          | Some vmax => if Qlt_bool 0 vmax then py_min vol vmax else vol
          | None => vol
          end in
        let vol :=
          if Qlt_bool 0 vol_step then
            let vol := _round_down_to_step vol vol_step in
            if Qlt_bool 0 vol_min && Qlt_bool vol vol_min then vol_min else vol
          else vol in
        if Qle_bool vol 0 then
          {| ok := false; volume := None; reason := "computed volume <= 0" |}
        else {| ok := true; volume := Some vol; reason := "risk sized" |}.

(** [_round_down_to_step] and [compute_volume] with every product and
    quotient rounded by [rnd]; [math.floor] and the comparisons are exact. *)
Definition _round_down_to_step_in (rnd : Q -> Q) (value step : Q) : Q :=
  if Qle_bool step 0 then value
  else fmul rnd (inject_Z (Qfloor (fdiv rnd value step))) step.

Definition compute_volume_in (rnd : Q -> Q)
  (equity risk_per_trade stop_points : Q) (symbol : SymbolMeta) : VolumeResult :=
  if Qle_bool equity 0 then
    {| ok := false; volume := None; reason := "equity unavailable" |}
  else if Qle_bool stop_points 0 then
    {| ok := false; volume := None; reason := "invalid stop distance" |}
  else
    let point := or_zero (point symbol) in
    let tick_value := or_zero (trade_tick_value symbol) in
    let tick_size := or_zero (trade_tick_size symbol) in
    if Qle_bool point 0 || Qle_bool tick_value 0 || Qle_bool tick_size 0 then
      {| ok := false; volume := None;
         reason := "missing symbol tick metadata for sizing" |}
    else
      let money_per_point := fdiv rnd (fmul rnd tick_value point) tick_size in
      if Qle_bool money_per_point 0 then
        {| ok := false; volume := None; reason := "invalid tick metadata" |}
      else
        let risk_money := fmul rnd equity risk_per_trade in
        let vol := fdiv rnd risk_money (fmul rnd stop_points money_per_point) in
        let vol_min := or_zero (volume_min symbol) in
        let vol_max :=
          if truthy (volume_max symbol) then Some (or_zero (volume_max symbol))
          else None in
        let vol_step := or_zero (volume_step symbol) in
        let vol := if Qlt_bool 0 vol_min then py_max vol vol_min else vol in
        let vol :=
          match vol_max with
          | Some vmax => if Qlt_bool 0 vmax then py_min vol vmax else vol
          | None => vol
          end in
        let vol :=
          if Qlt_bool 0 vol_step then
            let vol := _round_down_to_step_in rnd vol vol_step in
            if Qlt_bool 0 vol_min && Qlt_bool vol vol_min then vol_min else vol
          else vol in
        if Qle_bool vol 0 then
          {| ok := false; volume := None; reason := "computed volume <= 0" |}
        else {| ok := true; volume := Some vol; reason := "risk sized" |}.




(** The raw risk-based volume and what the clamping, the rounding down and
    the floor-clamp make of it, for metadata with positive minimum, maximum
    and step. *)
Definition raw_volume (equity risk_per_trade stop_points : Q)
  (symbol : SymbolMeta) : Q :=
  equity * risk_per_trade
  / (stop_points
     * (or_zero (trade_tick_value symbol) * or_zero (point symbol)
        / or_zero (trade_tick_size symbol))).

Definition sized (raw vol_min vol_max vol_step : Q) : Q :=
  let clamped := py_min (py_max raw vol_min) vol_max in
  let rounded := floor_to_step clamped vol_step in
  if Qlt_bool rounded vol_min then vol_min else rounded.


(** The raw volume clamped to the maximum after the minimum. *)
Definition clamped (raw vol_min vol_max : Q) : Q :=
  py_min (py_max raw vol_min) vol_max.



End Sizing.

(** ** risk/sltp.py *)

Module Sltp.
Import Connector Num.
Local Open Scope Q_scope.

Record SLTP := {
  sl : option Q;
  tp : option Q;
  sltp_stop_points : option Q;
  sltp_take_points : option Q
}.

Definition no_sltp : SLTP :=
  {| sl := None; tp := None; sltp_stop_points := None; sltp_take_points := None |}.

Definition sltp_rr (side : Side) (entry point : Q) (stop_points take_points : Z)
  : SLTP :=
  if Qle_bool point 0 then no_sltp
  else
    let '(s, t) :=
      if side_eqb side LONG
      then (entry - inject_Z stop_points * point,
            entry + inject_Z take_points * point)
      else (entry + inject_Z stop_points * point,
            entry - inject_Z take_points * point) in
    {| sl := Some s; tp := Some t;
       sltp_stop_points := Some (inject_Z stop_points);
       sltp_take_points := Some (inject_Z take_points) |}.

Definition sltp_atr (side : Side) (entry atr sl_mult tp_mult : Q) : SLTP :=
  if Qle_bool atr 0 then no_sltp
  else
    let sl_dist := atr * sl_mult in
    let tp_dist := atr * tp_mult in
    let '(s, t) :=
      if side_eqb side LONG
      then (entry - sl_dist, entry + tp_dist)
      else (entry + sl_dist, entry - tp_dist) in
    {| sl := Some s; tp := Some t;
       sltp_stop_points := None; sltp_take_points := None |}.

End Sltp.

(** ** What the interpreter's formatting answers

    The f-strings of the sources interpolate floats, integers, datetimes and
    enum members.  How Python renders them is not part of the repository;
    the model takes the renderers as an input. *)

Module Format.
Import Connector.

Record Renderer := {
  pct2 : Q -> string;                      (* f"{x:.2%}" *)
  fix2 : Q -> string;                      (* f"{x:.2f}" *)
  str_int : Z -> string;                   (* str(n) *)
  isoformat : Z -> string;                 (* datetime.isoformat() *)
  str_trade_mode : AccountTradeMode -> string;  (* f"{ai.trade_mode}" *)
  repr_str : string -> string              (* repr(s) of a str *)
}.

(** [str(exc)]: the message the exception was raised with, except for a
    [KeyError], which shows the repr of its argument, quotes included, and
    for the bare [AssertionError] of an [assert], which shows nothing. *)
Definition str_exn (F : Renderer) (e : exn) : string :=
  match e with
  | KeyError m => repr_str F m
  | ValueError m | BrokerError m | BrokerDisconnectedError m
  | RetryableBrokerError m | OtherError m => m
  | AssertionError => ""
  end.

(** [str(x)] of an optional integer. *)
Definition str_opt_int (F : Renderer) (x : option Z) : string :=
  match x with Some n => str_int F n | None => "None" end.

(** [s.upper()] on the ASCII letters. *)
Definition upper_ascii (c : ascii) : ascii :=
  let n := nat_of_ascii c in
  if ((97 <=? n) && (n <=? 122))%nat then ascii_of_nat (n - 32) else c.

Fixpoint upper (s : string) : string :=
  match s with
  | EmptyString => EmptyString
  | String c rest => String (upper_ascii c) (upper rest)
  end.

End Format.

(** ** risk/models.py and risk/risk_manager.py *)

Module Risk.
Import Connector Num Config Limits Sizing Sltp Format.

Record RiskState := {
  paused : bool;
  pause_reason : option string;
  cooloff_until_utc : option Z;
  loss_streak : Z;
  (* equity tracking *)
  daily_date : option string;
  daily_start_equity : option Q;
  peak_equity : option Q
}.

(** [RiskState()]. *)
Definition fresh_state : RiskState :=
  {| paused := false; pause_reason := None; cooloff_until_utc := None;
     loss_streak := 0; daily_date := None; daily_start_equity := None;
     peak_equity := None |}.

(** The values a [details] dictionary holds. *)
Inductive detail : Type :=
| DBool (b : bool)
| DInt (n : Z)
| DFloat (q : Q)
| DStr (s : string).

Record RiskDecision := {
  allowed : bool;
  decision_reason : string;
  decision_side : Side;
  decision_volume : option Q;
  decision_sl : option Q;
  decision_tp : option Q;
  details : list (string * detail)
}.

(** [RiskDecision(allowed=False, reason=r, side=s, details=d)]. *)
Definition refuse (r : string) (s : Side) (d : list (string * detail)) : RiskDecision :=
  {| allowed := false; decision_reason := r; decision_side := s;
     decision_volume := None; decision_sl := None; decision_tp := None;
     details := d |}.

(** The rows of [update_equity_state]'s result dictionary. *)
Record EquityReport := {
  rep_equity : option Q;
  rep_balance : option Q;
  rep_daily_start_equity : option Q;
  rep_daily_pnl : option Q;
  rep_peak_equity : option Q;
  rep_drawdown_pct : option Q;
  rep_daily_loss_pct : option Q;
  rep_paused : bool;
  rep_pause_reason : option string;
  rep_loss_streak : Z;
  rep_cooloff_until_utc : option string
}.

(** The helpers [check_entry] calls, in the order it reaches them. *)
Inductive stage : Type :=
| StCountPositions
| StComputeSltp
| StComputeVolume.

(** [RiskManager._load_from_heartbeat]: the last heartbeat row, when there is
    one, restores the two equity marks. *)
Definition _load_from_heartbeat (st : RiskState)
  (hb : option (option Q * option Q)) : RiskState :=
  match hb with
  | None => st
  | Some (hb_daily_start, hb_peak) =>
      {| paused := paused st; pause_reason := pause_reason st;
         cooloff_until_utc := cooloff_until_utc st;
         loss_streak := loss_streak st; daily_date := daily_date st;
         daily_start_equity := hb_daily_start; peak_equity := hb_peak |}
  end.

Section Manager.

Variable F : Renderer.
Variable cfg : AppConfig.

Local Open Scope Q_scope.

(** The loop body of [on_new_deals]; [now] is what [datetime.now(utc)]
    answers if this iteration reads the clock. *)
Definition on_deal (magic_number : Z) (now : Z) (st : RiskState) (d : Deal)
  : RiskState :=
  if other_magic (Some magic_number) (deal_magic d) then st
  else if negb (String.eqb (upper (entry d)) "OUT") then st
  else
    let profit := or_zero (deal_profit d) in
    let streak := if Qlt_bool profit 0 then (loss_streak st + 1)%Z else 0%Z in
    let until :=
      if enabled (cooloff (risk cfg)) && (losses (cooloff (risk cfg)) <=? streak)%Z
      then Some (now + timedelta_minutes (minutes (cooloff (risk cfg))))%Z
      else cooloff_until_utc st in
    {| paused := paused st; pause_reason := pause_reason st;
       cooloff_until_utc := until; loss_streak := streak;
       daily_date := daily_date st;
       daily_start_equity := daily_start_equity st;
       peak_equity := peak_equity st |}.

(** [on_new_deals]; [clock i] is the clock reading of the [i]-th iteration. *)
Fixpoint on_new_deals_from (i : nat) (clock : nat -> Z) (magic_number : Z)
  (deals : list Deal) (st : RiskState) : RiskState :=
  match deals with
  | [] => st
  | d :: rest =>
      on_new_deals_from (S i) clock magic_number rest
        (on_deal magic_number (clock i) st d)
  end.

Definition on_new_deals (clock : nat -> Z) (deals : list Deal)
  (magic_number : Z) (st : RiskState) : RiskState :=
  on_new_deals_from 0 clock magic_number deals st.

(** [account.equity] as [update_equity_state] reads it. *)
Definition account_equity (account : option AccountInfo) : option Q :=
  match account with Some a => equity a | None => None end.

Definition account_balance (account : option AccountInfo) : option Q :=
  match account with Some a => balance a | None => None end.

Definition positive (x : option Q) : bool :=
  match x with Some q => Qlt_bool 0 q | None => false end.

Definition update_equity_state (account : option AccountInfo)
  (now_local_date : string) (now : Z) (st : RiskState)
  : RiskState * EquityReport :=
  let equity := account_equity account in
  let balance := account_balance account in
  (* a new local day *)
  let new_day :=
    match daily_date st with
    | Some d => negb (String.eqb d now_local_date)
    | None => true
    end in
  let daily_date1 := if new_day then Some now_local_date else daily_date st in
  let daily_start1 :=
    if new_day && positive equity then equity else daily_start_equity st in
  let loss_streak1 := if new_day then 0%Z else loss_streak st in
  let cooloff1 := if new_day then None else cooloff_until_utc st in
  (* peak tracking *)
  let peak1 :=
    match equity with
    | Some e =>
        if Qlt_bool 0 e then
          match peak_equity st with
          | None => Some e
          | Some p => if Qlt_bool p e then Some e else Some p
          end
        else peak_equity st
    | None => peak_equity st
    end in
  let dd :=
    match equity, peak1 with
    | Some e, Some p => if truthy peak1 then Some (drawdown_pct p e) else None
    | _, _ => None
    end in
  let dl :=
    match equity, daily_start1 with
    | Some e, Some s =>
        if truthy daily_start1 then Some (daily_loss_pct s e) else None
    | _, _ => None
    end in
  let max_dl := max_daily_loss_pct (risk cfg) in
  let max_dd := max_drawdown_pct (risk cfg) in
  (* paused = False; pause_reason = None; then the three gates in turn,
     each overwriting the verdict of the one before *)
  let verdict0 := (false, @None string) in
  let verdict1 :=
    match dl with
    | Some l =>
        if Qle_bool max_dl l
        then (true, Some ("max daily loss breached (" ++ pct2 F l ++ " >= "
                          ++ pct2 F max_dl ++ ")")%string)
        else verdict0
    | None => verdict0
    end in
  let verdict2 :=
    match dd with
    | Some d =>
        if Qle_bool max_dd d
        then (true, Some ("max drawdown breached (" ++ pct2 F d ++ " >= "
                          ++ pct2 F max_dd ++ ")")%string)
        else verdict1
    | None => verdict1
    end in
  let verdict3 :=
    match cooloff1 with
    | Some until =>
        if (now <? until)%Z
        then (true, Some ("cooloff until " ++ isoformat F until)%string)
        else verdict2
    | None => verdict2
    end in
  let paused4 := fst verdict3 in
  let reason4 := snd verdict3 in
  ({| paused := paused4; pause_reason := reason4;
      cooloff_until_utc := cooloff1; loss_streak := loss_streak1;
      daily_date := daily_date1; daily_start_equity := daily_start1;
      peak_equity := peak1 |},
   {| rep_equity := equity;
      rep_balance := balance;
      rep_daily_start_equity := daily_start1;
      rep_daily_pnl :=
        match equity, daily_start1 with
        | Some e, Some s => if truthy daily_start1 then Some (e - s) else None
        | _, _ => None
        end;
      rep_peak_equity := peak1;
      rep_drawdown_pct := dd;
      rep_daily_loss_pct := dl;
      rep_paused := paused4;
      rep_pause_reason := reason4;
      rep_loss_streak := loss_streak1;
      rep_cooloff_until_utc := option_map (isoformat F) cooloff1 |}).

(** The manager is driven once per cycle: the account the broker reports,
    the local date of the candle and the clock reading of that call. *)
Fixpoint run_equity_updates (updates : list (option AccountInfo * string * Z))
  (st : RiskState) : RiskState :=
  match updates with
  | [] => st
  | (account, date, now) :: rest =>
      run_equity_updates rest (fst (update_equity_state account date now st))
  end.

Definition _compute_sltp (side : Side) (entry point : Q)
  (features : gmap string Q) : SLTP :=
  match sltp_mode (risk cfg) with
  | atr_mode =>
      let atr14 := or_zero (features !! "atr14"%string) in
      sltp_atr side entry atr14 (sl_mult (atr (risk cfg))) (tp_mult (atr (risk cfg)))
  | rr_mode =>
      sltp_rr side entry point (stop_points (rr (risk cfg)))
        (take_points (rr (risk cfg)))
  end.

Definition _stop_points (side : Side) (entry sl point : Q) : Q :=
  if Qle_bool point 0 then 0 else Qabs (entry - sl) / point.

Definition sltp_mode_name (m : SltpMode) : string :=
  match m with rr_mode => "rr" | atr_mode => "atr" end.

(** [check_entry]; the second component lists the helpers it ran. *)
Definition check_entry (st : RiskState) (symbol : string) (side : Side)
  (quote : Quote) (symbol_meta : SymbolMeta) (features : gmap string Q)
  (positions : list Position) (account : option AccountInfo)
  : RiskDecision * list stage :=
  if negb (side_eqb side LONG || side_eqb side SHORT) then
    (refuse "side is not entry" side [], [])
  else if paused st then
    (refuse (match pause_reason st with
             | Some r => if String.eqb r "" then "risk paused" else r
             | None => "risk paused"
             end) side [("paused"%string, DBool true)], [])
  else
    let counts := count_positions positions (Some (magic_number (execution cfg))) in
    if (max_open_positions_total (risk cfg) <=? total counts)%Z then
      (refuse ("max open positions reached (" ++ str_int F (total counts) ++ ")")
         side [("open_positions_total"%string, DInt (total counts))],
       [StCountPositions])
    else
      let here := default 0%Z (per_symbol counts !! symbol) in
      if (max_open_positions_per_symbol (risk cfg) <=? here)%Z then
        (refuse ("max positions for symbol reached (" ++ symbol ++ ")")
           side [("open_positions_symbol"%string, DInt here)],
         [StCountPositions])
      else
        let point := or_zero (point symbol_meta) in
        if Qle_bool point 0 then
          (refuse "symbol point missing" side [], [StCountPositions])
        else
          let entry := if side_eqb side LONG then ask quote else bid quote in
          let sltp := _compute_sltp side entry point features in
          match sl sltp, tp sltp with
          | Some the_sl, Some the_tp =>
              let stop_points := _stop_points side entry the_sl point in
              let equity :=
                match account_equity account with Some e => e | None => 0 end in
              let vol_res :=
                compute_volume equity (risk_per_trade (risk cfg)) stop_points
                  symbol_meta in
              if negb (ok vol_res) || negb (truthy (volume vol_res)) then
                (refuse ("sizing blocked: " ++ reason vol_res) side [],
                 [StCountPositions; StComputeSltp; StComputeVolume])
              else
                ({| allowed := true; decision_reason := "ok";
                    decision_side := side;
                    decision_volume := volume vol_res;
                    decision_sl := Some the_sl; decision_tp := Some the_tp;
                    details :=
                      [("entry"%string, DFloat entry);
                       ("stop_points"%string, DFloat stop_points);
                       ("volume_reason"%string, DStr (reason vol_res));
                       ("sltp_mode"%string,
                        DStr (sltp_mode_name (sltp_mode (risk cfg))))] |},
                 [StCountPositions; StComputeSltp; StComputeVolume])
          | _, _ =>
              (refuse "failed to compute SL/TP" side [],
               [StCountPositions; StComputeSltp])
          end.

End Manager.

End Risk.

(** ** core/constants.py *)

Module Constants.

(** Modelled from the spec: [core/constants.py] is not among the sources; the
    decision status values are those the specification lists
    ("no-signal, skipped, risk-blocked, opened, closed, error"). *)
Definition DECISION_STATUS_NO_SIGNAL : string := "no-signal".

(** Modelled from the spec: the status of a row that was inserted and not
    (yet) acted upon. *)
Definition DECISION_STATUS_SKIPPED : string := "skipped".

(** Modelled from the spec: the status of a decision the risk manager or a
    pause vetoed. *)
Definition DECISION_STATUS_RISK_BLOCKED : string := "risk-blocked".

(** Modelled from the spec: the status after the broker accepted an open. *)
Definition DECISION_STATUS_OPENED : string := "opened".

(** Modelled from the spec: the status after the broker accepted a close. *)
Definition DECISION_STATUS_CLOSED : string := "closed".

(** Modelled from the spec: the status after the broker call failed. *)
Definition DECISION_STATUS_ERROR : string := "error".

End Constants.

(** ** execution/idempotency.py *)

Module Idempotency.

Section Key.

(** [core.utils.sha256_hex]: the digest is [hashlib]'s. *)
Variable sha256_hex : string -> string.

Definition make_idempotency_key (symbol timeframe candle_close_time_utc
  strategy side : string) : string :=
  sha256_hex (symbol ++ "|" ++ timeframe ++ "|" ++ candle_close_time_utc
              ++ "|" ++ strategy ++ "|" ++ side)%string.

End Key.

End Idempotency.

(** ** persistence/repos.py: the [decisions] table *)

Module Persistence.
Import Connector.

(** The dictionary written to [result_json]: the keys the executor sets
    itself and, spliced in after them, the broker's raw result. *)
Record ResultDoc := {
  doc_success : option bool;
  doc_error : option string;
  doc_reason : option string;
  doc_raw : option string
}.

(** A row of [decisions].  The JSON columns that only pass through
    ([rank_components], [features], [signal], [risk]) hold their text. *)
Record DecisionRow := {
  id : Z;
  created_at : string;
  cycle_id : string;
  symbol : string;
  timeframe : string;
  candle_close_time_utc : string;
  rank_score : option Q;
  rank_components_json : option string;
  strategy : option string;
  features_json : option string;
  signal_json : option string;
  risk_json : option string;
  order_json : option OrderRequest;
  result_json : option ResultDoc;
  status : string;
  idempotency_key : string
}.

(** The row as stored under the id AUTOINCREMENT gives it. *)
Definition with_id (row : DecisionRow) (n : Z) : DecisionRow :=
  {| id := n;
     created_at := created_at row; cycle_id := cycle_id row;
     symbol := symbol row; timeframe := timeframe row;
     candle_close_time_utc := candle_close_time_utc row;
     rank_score := rank_score row;
     rank_components_json := rank_components_json row;
     strategy := strategy row; features_json := features_json row;
     signal_json := signal_json row; risk_json := risk_json row;
     order_json := order_json row; result_json := result_json row;
     status := status row; idempotency_key := idempotency_key row |}.

Definition has_key (rows : list DecisionRow) (key : string) : bool :=
  existsb (fun r => String.eqb (idempotency_key r) key) rows.

(** [DecisionRepo.try_insert]: the INSERT is refused by the UNIQUE constraint
    on [idempotency_key] ([sqlite3.IntegrityError], answered with [False]);
    otherwise the row is appended under the next id. *)
Definition try_insert (rows : list DecisionRow) (row : DecisionRow)
  : list DecisionRow * bool :=
  if has_key rows (idempotency_key row) then (rows, false)
  else ((rows ++ [with_id row (Z.of_nat (length rows) + 1)])%list, true).

(** The row with the two columns the executor's UPDATE sets. *)
Definition with_verdict (r : DecisionRow) (new_status : string)
  (result : option ResultDoc) : DecisionRow :=
  {| id := id r; created_at := created_at r;
     cycle_id := cycle_id r; symbol := symbol r;
     timeframe := timeframe r;
     candle_close_time_utc := candle_close_time_utc r;
     rank_score := rank_score r;
     rank_components_json := rank_components_json r;
     strategy := strategy r; features_json := features_json r;
     signal_json := signal_json r; risk_json := risk_json r;
     order_json := order_json r; result_json := result;
     status := new_status;
     idempotency_key := idempotency_key r |}.

(** [UPDATE decisions SET status=?, result_json=? WHERE idempotency_key=?]. *)
Definition update_decision (rows : list DecisionRow) (key : string)
  (new_status : string) (result : option ResultDoc) : list DecisionRow :=
  map (fun r =>
         if String.eqb (idempotency_key r) key
         then with_verdict r new_status result
         else r) rows.

(** The rows stored under a key. *)
Definition rows_of (rows : list DecisionRow) (key : string) : list DecisionRow :=
  List.filter (fun r => String.eqb (idempotency_key r) key) rows.

End Persistence.

(** ** execution/retry.py, execution/models.py, execution/executor.py *)

Module Execution.
Import Connector Num Config Format Constants Persistence.

(** What the executor does to the outside world, in order. *)
Inductive event : Type :=
| EvAccountInfo
| EvPlaceOrder (req : OrderRequest)
| EvSleep (seconds : Q)
| EvListPositions
| EvLogWarning (msg : string)
| EvLogDebug (msg : string).

Definition is_place_order (e : event) : bool :=
  match e with EvPlaceOrder _ => true | _ => false end.

(** The number of [connector.place_order] invocations in a trace. *)
Definition broker_calls (evs : list event) : nat :=
  length (List.filter is_place_order evs).

(** The [except (RetryableBrokerError, BrokerDisconnectedError)] clause. *)
Definition retryable (e : exn) : bool :=
  match e with
  | RetryableBrokerError _ | BrokerDisconnectedError _ => true
  | _ => false
  end.

(** [backoff_seconds[min(attempt - 1, len(backoff_seconds) - 1)]
     if backoff_seconds else 1.0]. *)
Definition backoff_delay (backoff_seconds : list Q) (attempt : Z) : Q :=
  match backoff_seconds with
  | [] => 1
  | _ =>
      nth (Z.to_nat (Z.min (attempt - 1) (Z.of_nat (length backoff_seconds) - 1)))
          backoff_seconds 0%Q
  end.

(** The [for attempt in range(1, max_attempts + 1)] loop of
    [call_with_retries] from [attempt] on, [remaining] iterations being
    left.  [fn i] is what the [i]-th invocation of the callable answers and
    [call_ev] the mark it leaves in the trace. *)
Fixpoint retry_loop {T : Type} (fn : nat -> outcome T) (call_ev : event)
  (max_attempts : Z) (backoff_seconds : list Q)
  (remaining : nat) (attempt : Z) (last_exc : option exn)
  : outcome T * list event :=
  match remaining with
  | O =>
      (* assert last_exc is not None; raise last_exc *)
      (Raised (match last_exc with Some e => e | None => AssertionError end), [])
  | S k =>
      match fn (Z.to_nat (attempt - 1)) with
      | Returned r => (Returned r, [call_ev])
      | Raised e =>
          if retryable e then
            if max_attempts <=? attempt then (Raised e, [call_ev])
            else
              let delay := backoff_delay backoff_seconds attempt in
              if Qlt_bool delay 0 then
                (* time.sleep refuses a negative length *)
                (Raised (ValueError "sleep length must be non-negative"),
                 [call_ev])
              else
                let '(o, evs) :=
                  retry_loop fn call_ev max_attempts backoff_seconds k
                    (attempt + 1) (Some e) in
                (o, call_ev :: EvSleep delay :: evs)
          else (Raised e, [call_ev])
      end
  end.

Definition call_with_retries {T : Type} (fn : nat -> outcome T)
  (call_ev : event) (max_attempts : Z) (backoff_seconds : list Q)
  : outcome T * list event :=
  retry_loop fn call_ev max_attempts backoff_seconds
    (Z.to_nat max_attempts) 1 None.

Record ExecutionReport := {
  action : string;   (* open | close | none *)
  rep_success : bool;
  rep_reason : string;
  rep_order : option OrderRequest;
  rep_result : option string
}.

(** What the outside world answers during one call of the executor:
    [place_order i] is the broker's answer to the [i]-th invocation of
    [connector.place_order] within the call, [utc_iso] the clock reading
    written to [created_at]. *)
Record Broker := {
  account_info : outcome (option AccountInfo);
  place_order : nat -> OrderRequest -> outcome OrderResult;
  list_positions : outcome (list Position);
  utc_iso : string
}.

(** The store and the trace of what the executor has done so far. *)
Record World := {
  decisions : list DecisionRow;
  trace : list event
}.

Definition emit (w : World) (evs : list event) : World :=
  {| decisions := decisions w; trace := (trace w ++ evs)%list |}.

Definition set_decisions (w : World) (rows : list DecisionRow) : World :=
  {| decisions := rows; trace := trace w |}.

(** The keyword arguments [open_trade] and [close_trade] share. *)
Record DecisionArgs := {
  arg_cycle_id : string;
  arg_symbol : string;
  arg_timeframe : string;
  arg_candle_close_time_utc : string;
  arg_strategy : string;
  arg_idempotency_key : string;
  arg_rank_score : option Q;
  arg_rank_components : option string;
  arg_features : option string;
  arg_signal : option string;
  arg_risk : option string
}.

Section Executor.

Variable F : Renderer.
Variable cfg : AppConfig.

Definition paper_account (m : AccountTradeMode) : bool :=
  match m with DEMO | CONTEST => true | _ => false end.

(** [_update_decision]: the method logs and swallows a failure of the UPDATE;
    the model takes the UPDATE to succeed. *)
Definition _update_decision (w : World) (key : string) (new_status : string)
  (result : option ResultDoc) : World :=
  set_decisions w (update_decision (decisions w) key new_status result).

Definition _verify_delay_seconds : Q := 3 # 10.

Definition _verify_open (b : Broker) (w : World) (symbol : string) : World :=
  let w := emit w [EvSleep _verify_delay_seconds; EvListPositions] in
  match list_positions b with
  | Raised e => emit w [EvLogDebug "post-trade verification failed"]
  | Returned positions =>
      let magic := magic_number (execution cfg) in
      if existsb (fun p => String.eqb (pos_symbol p) symbol
                           && match pos_magic p with
                              | None => true
                              | Some pm => pm =? magic
                              end) positions
      then w
      else emit w [EvLogWarning "post-trade verification: position not found"]
  end.

Definition _verify_closed (b : Broker) (w : World) (position_id : Z) : World :=
  let w := emit w [EvSleep _verify_delay_seconds; EvListPositions] in
  match list_positions b with
  | Raised e => emit w [EvLogDebug "post-close verification failed"]
  | Returned positions =>
      if existsb (fun p => Connector.position_id p =? position_id) positions
      then emit w [EvLogWarning "post-trade verification: position still present"]
      else w
  end.

(** The row both entry points try to insert before they reach the broker. *)
Definition skipped_row (b : Broker) (a : DecisionArgs) (order : OrderRequest)
  : DecisionRow :=
  {| id := 0; created_at := utc_iso b; cycle_id := arg_cycle_id a;
     symbol := arg_symbol a; timeframe := arg_timeframe a;
     candle_close_time_utc := arg_candle_close_time_utc a;
     rank_score := arg_rank_score a;
     rank_components_json := arg_rank_components a;
     strategy := Some (arg_strategy a); features_json := arg_features a;
     signal_json := arg_signal a; risk_json := arg_risk a;
     order_json := Some order; result_json := None;
     status := DECISION_STATUS_SKIPPED;
     idempotency_key := arg_idempotency_key a |}.

Definition report (act : string) (succ : bool) (why : string)
  (order : option OrderRequest) (result : option string) : ExecutionReport :=
  {| action := act; rep_success := succ; rep_reason := why;
     rep_order := order; rep_result := result |}.

Definition open_trade (b : Broker) (a : DecisionArgs) (side : Side)
  (volume : Q) (sl tp : option Q) (quote_bid quote_ask : Q) (w : World)
  : World * outcome ExecutionReport :=
  if negb (trading_enabled (execution cfg)) then
    (w, Returned (report "open" false "trading disabled" None None))
  else
    let w := emit w [EvAccountInfo] in
    match account_info b with
    | Raised e => (w, Raised e)
    | Returned ai =>
        let refused :=
          match ai with
          | Some info =>
              if negb (paper_account (trade_mode info)) then Some info else None
          | None => None
          end in
        match refused with
        | Some info =>
            (w, Returned (report "open" false
                   ("paper-only gate: trade_mode="
                    ++ str_trade_mode F (trade_mode info)) None None))
        | None =>
            let key := arg_idempotency_key a in
            let order_req :=
              {| req_symbol := arg_symbol a; req_side := side;
                 req_volume := volume; req_sl := sl; req_tp := tp;
                 deviation_points := slippage_points (execution cfg);
                 req_magic := magic_number (execution cfg);
                 req_comment := "tb:" ++ String.substring 0 12 key;
                 req_idempotency_key := key;
                 req_position_id := None |} in
            let '(rows, inserted) :=
              try_insert (decisions w) (skipped_row b a order_req) in
            let w := set_decisions w rows in
            if negb inserted then
              (w, Returned (report "open" false "duplicate idempotency key"
                              None None))
            else
              let '(res, evs) :=
                call_with_retries (fun i => place_order b i order_req)
                  (EvPlaceOrder order_req)
                  (max_attempts (retries (execution cfg)))
                  (backoff_seconds (retries (execution cfg))) in
              let w := emit w evs in
              match res with
              | Raised exc =>
                  let w := _update_decision w key DECISION_STATUS_ERROR
                             (Some {| doc_success := None;
                                      doc_error := Some (str_exn F exc);
                                      doc_reason := None; doc_raw := None |}) in
                  (w, Returned (report "open" false (str_exn F exc)
                                  (Some order_req) None))
              | Returned r =>
                  let result_json := raw r in
                  if negb (success r) then
                    let w := _update_decision w key DECISION_STATUS_ERROR
                               (Some {| doc_success := Some false;
                                        doc_error := None; doc_reason := None;
                                        doc_raw := Some result_json |}) in
                    (w, Returned (report "open" false
                                    ("retcode=" ++ str_opt_int F (retcode r))
                                    (Some order_req) (Some result_json)))
                  else
                    let w := _update_decision w key DECISION_STATUS_OPENED
                               (Some {| doc_success := Some true;
                                        doc_error := None; doc_reason := None;
                                        doc_raw := Some result_json |}) in
                    let w := _verify_open b w (arg_symbol a) in
                    (w, Returned (report "open" true "opened"
                                    (Some order_req) (Some result_json)))
              end
        end
    end.

Definition close_trade (b : Broker) (a : DecisionArgs) (position_id : Z)
  (close_side : Side) (volume : Q) (reason : string) (w : World)
  : World * outcome ExecutionReport :=
  if negb (trading_enabled (execution cfg)) then
    (w, Returned (report "close" false "trading disabled" None None))
  else
    let w := emit w [EvAccountInfo] in
    match account_info b with
    | Raised e => (w, Raised e)
    | Returned ai =>
        let refused :=
          match ai with
          | Some info =>
              if negb (paper_account (trade_mode info)) then Some info else None
          | None => None
          end in
        match refused with
        | Some info =>
            (w, Returned (report "close" false
                   ("paper-only gate: trade_mode="
                    ++ str_trade_mode F (trade_mode info)) None None))
        | None =>
            let key := arg_idempotency_key a in
            let order_req :=
              {| req_symbol := arg_symbol a; req_side := close_side;
                 req_volume := volume; req_sl := None; req_tp := None;
                 deviation_points := slippage_points (execution cfg);
                 req_magic := magic_number (execution cfg);
                 req_comment := "tb:" ++ String.substring 0 12 key;
                 req_idempotency_key := key;
                 req_position_id := Some position_id |} in
            let '(rows, inserted) :=
              try_insert (decisions w) (skipped_row b a order_req) in
            let w := set_decisions w rows in
            if negb inserted then
              (w, Returned (report "close" false "duplicate idempotency key"
                              None None))
            else
              let '(res, evs) :=
                call_with_retries (fun i => place_order b i order_req)
                  (EvPlaceOrder order_req)
                  (max_attempts (retries (execution cfg)))
                  (backoff_seconds (retries (execution cfg))) in
              let w := emit w evs in
              match res with
              | Raised exc =>
                  let w := _update_decision w key DECISION_STATUS_ERROR
                             (Some {| doc_success := None;
                                      doc_error := Some (str_exn F exc);
                                      doc_reason := Some reason;
                                      doc_raw := None |}) in
                  (w, Returned (report "close" false (str_exn F exc)
                                  (Some order_req) None))
              | Returned r =>
                  let result_json := raw r in
                  if negb (success r) then
                    let w := _update_decision w key DECISION_STATUS_ERROR
                               (Some {| doc_success := Some false;
                                        doc_error := None;
                                        doc_reason := Some reason;
                                        doc_raw := Some result_json |}) in
                    (w, Returned (report "close" false
                                    ("retcode=" ++ str_opt_int F (retcode r))
                                    (Some order_req) (Some result_json)))
                  else
                    let w := _update_decision w key DECISION_STATUS_CLOSED
                               (Some {| doc_success := Some true;
                                        doc_error := None;
                                        doc_reason := Some reason;
                                        doc_raw := Some result_json |}) in
                    let w := _verify_closed b w position_id in
                    (w, Returned (report "close" true "closed"
                                    (Some order_req) (Some result_json)))
              end
        end
    end.

(** One attempt of the executor: an [open_trade] or a [close_trade] call
    with its own arguments. *)
Inductive attempt : Type :=
| Open (side : Side) (volume : Q) (sl tp : option Q) (quote_bid quote_ask : Q)
| Close (position_id : Z) (close_side : Side) (volume : Q) (reason : string).

Definition run_attempt (b : Broker) (a : DecisionArgs) (t : attempt) (w : World)
  : World * outcome ExecutionReport :=
  match t with
  | Open side volume sl tp quote_bid quote_ask =>
      open_trade b a side volume sl tp quote_bid quote_ask w
  | Close position_id close_side volume reason =>
      close_trade b a position_id close_side volume reason w
  end.

End Executor.

(** The decision statuses after which the executor never touches the row
    again: the order went out and the broker's verdict is recorded. *)
Definition terminal_status (s : string) : bool :=
  String.eqb s DECISION_STATUS_OPENED || String.eqb s DECISION_STATUS_CLOSED
  || String.eqb s DECISION_STATUS_ERROR.

End Execution.

(** ** ranking/normalizer.py *)

Module Normalizer.
Import Num.
Local Open Scope Q_scope.

(** A float of the input array: finite, or one of the three non-finite
    values [numpy] tells apart. *)
Inductive fl : Type :=
| Fin (q : Q)
| PInf
| NInf
| NaN.

Definition isfinite (x : fl) : bool :=
  match x with Fin _ => true | _ => false end.

Definition is_nan (x : fl) : bool :=
  match x with NaN => true | _ => false end.

(** [v[np.isfinite(v)]]. *)
Fixpoint finite_values (v : list fl) : list Q :=
  match v with
  | [] => []
  | Fin q :: rest => q :: finite_values rest
  | _ :: rest => finite_values rest
  end.

Fixpoint insert_sorted (x : Q) (l : list Q) : list Q :=
  match l with
  | [] => [x]
  | y :: rest => if Qle_bool x y then x :: l else y :: insert_sorted x rest
  end.

Fixpoint sort (l : list Q) : list Q :=
  match l with
  | [] => []
  | x :: rest => insert_sorted x (sort rest)
  end.

(** [np.median] of a non-empty array. *)
Definition median (xs : list Q) : Q :=
  let a := sort xs in
  let n := length a in
  if Nat.even n
  then (nth (n / 2 - 1) a 0 + nth (n / 2) a 0) / 2
  else nth (n / 2) a 0.

(** [np.quantile(xs, q)] with the default linear interpolation. *)
Definition quantile (xs : list Q) (q : Q) : Q :=
  let a := sort xs in
  let n := length a in
  let pos := q * inject_Z (Z.of_nat (n - 1)) in
  let lower := Z.to_nat (Qfloor pos) in
  let upper := Nat.min (S lower) (n - 1) in
  let gamma := pos - inject_Z (Qfloor pos) in
  nth lower a 0 + (nth upper a 0 - nth lower a 0) * gamma.

Fixpoint minimum (x : Q) (xs : list Q) : Q :=
  match xs with
  | [] => x
  | y :: rest => minimum (if Qlt_bool y x then y else x) rest
  end.

Fixpoint maximum (x : Q) (xs : list Q) : Q :=
  match xs with
  | [] => x
  | y :: rest => maximum (if Qlt_bool x y then y else x) rest
  end.

(** [np.min], [np.max] of the finite values; [np.nanmin], [np.nanmax] of an
    array whose entries are finite or NaN. *)
Definition np_min (xs : list Q) : option Q :=
  match xs with [] => None | x :: rest => Some (minimum x rest) end.

Definition np_max (xs : list Q) : option Q :=
  match xs with [] => None | x :: rest => Some (maximum x rest) end.

(** [np.clip(x, lo, hi)] for finite bounds. *)
Definition clip (lo hi : Q) (x : fl) : fl :=
  match x with
  | Fin q => Fin (py_min (py_max q lo) hi)
  | PInf => Fin hi
  | NInf => Fin lo
  | NaN => NaN
  end.

(** [(x - mn) / range] for finite [mn] and a finite, non-zero [range]. *)
Definition rescale (mn range : Q) (x : fl) : fl :=
  match x with
  | Fin q => Fin ((q - mn) / range)
  | PInf => if Qlt_bool 0 range then PInf else NInf
  | NInf => if Qlt_bool 0 range then NInf else PInf
  | NaN => NaN
  end.

(** [np.full_like(v, c)]. *)
Definition full_like (v : list fl) (c : fl) : list fl := map (fun _ => c) v.

Definition eps : Q := 1 # 1000000000000.

Definition robust_minmax (values : list fl) : list fl :=
  let v := values in
  let finite := finite_values v in
  match np_min finite, np_max finite with
  | Some fmn, Some fmx =>
      let med := median finite in
      let q1 := quantile finite (1 # 4) in
      let q3 := quantile finite (3 # 4) in
      let iqr := q3 - q1 in
      if Qle_bool iqr eps then
        let mn := fmn in
        let mx := fmx in
        if Qle_bool (Qabs (mx - mn)) eps then full_like v (Fin (1 # 2))
        else map (rescale mn (mx - mn)) v
      else
        let lo := med - 3 * iqr in
        let hi := med + 3 * iqr in
        let clipped := map (clip lo hi) v in
        match np_min (finite_values clipped), np_max (finite_values clipped) with
        | Some mn, Some mx =>
            if Qle_bool (Qabs (mx - mn)) eps then full_like v (Fin (1 # 2))
            else map (rescale mn (mx - mn)) clipped
        | _, _ => full_like v NaN
        end
  | _, _ => full_like v NaN
  end.

(** An entry of the result is acceptable to the docstring ("scale values to
    0..1") when it lies in [0, 1], or is NaN where the input is not finite. *)
Definition in_unit_or_nan (input output : fl) : bool :=
  match output with
  | Fin q => Qle_bool 0 q && Qle_bool q 1
  | NaN => negb (isfinite input)
  | _ => false
  end.

Fixpoint all_in_unit_or_nan (inputs outputs : list fl) : bool :=
  match inputs, outputs with
  | [], [] => true
  | i :: is', o :: os' => in_unit_or_nan i o && all_in_unit_or_nan is' os'
  | _, _ => false
  end.

End Normalizer.

(** ** ranking/correlation.py *)

Module Correlation.
Import Num Format.

Record CorrelationDecision := {
  selected : list string;
  excluded : gmap string string   (* symbol -> reason *)
}.

(** The returns frame: its columns in order, each with its series. *)
Definition frame : Type := list (string * list Q).

Fixpoint column (df : frame) (sym : string) : option (list Q) :=
  match df with
  | [] => None
  | (c, xs) :: rest => if String.eqb c sym then Some xs else column rest sym
  end.

(** [returns_df.empty]: no column or no row. *)
Definition frame_empty (df : frame) : bool :=
  match df with
  | [] => true
  | (_, xs) :: _ => (length xs =? 0)%nat
  end.

(** [ranked_symbols[:top_n]]: a negative bound counts from the end. *)
Definition slice_to (l : list string) (n : Z) : list string :=
  if (0 <=? n)%Z then firstn (Z.to_nat n) l
  else firstn (length l - Z.to_nat (- n)) l.

Section Filter.

Variable F : Renderer.

(** [corr a b] is the entry of [returns_df[ranked_symbols].corr().fillna(0.0)]
    at row [a], column [b]: the matrix is pandas' answer. *)
Variable corr : string -> string -> Q.
Variable max_abs_corr : Q.
Variable top_n : Z.

Local Open Scope Q_scope.

(** The inner loop: the first admitted symbol the candidate is too close to. *)
Fixpoint first_conflict (sym : string) (admitted : list string)
  : option (string * Q) :=
  match admitted with
  | [] => None
  | s2 :: rest =>
      let c := corr sym s2 in
      if Qlt_bool max_abs_corr (Qabs c) then Some (s2, c)
      else first_conflict sym rest
  end.

Definition conflict_reason (sym s2 : string) (c : Q) : string :=
  ("|corr(" ++ sym ++ "," ++ s2 ++ ")|=" ++ fix2 F (Qabs c) ++ " > "
   ++ fix2 F max_abs_corr)%string.

(** The first loop over [ranked_symbols]. *)
Fixpoint greedy_loop (ranked : list string) (sel : list string)
  (exc : gmap string string) : list string * gmap string string :=
  match ranked with
  | [] => (sel, exc)
  | sym :: rest =>
      if (top_n <=? Z.of_nat (length sel))%Z then (sel, exc)
      else
        match first_conflict sym sel with
        | Some (s2, c) =>
            greedy_loop rest sel (<[ sym := conflict_reason sym s2 c ]> exc)
        | None => greedy_loop rest (sel ++ [sym])%list exc
        end
  end.

Definition mem (s : string) (l : list string) : bool :=
  existsb (String.eqb s) l.

(** The second loop: fill up with the remaining symbols regardless. *)
Fixpoint pad_loop (ranked : list string) (sel : list string) : list string :=
  match ranked with
  | [] => sel
  | sym :: rest =>
      if (top_n <=? Z.of_nat (length sel))%Z then sel
      else if mem sym sel then pad_loop rest sel
      else pad_loop rest (sel ++ [sym])%list
  end.

(** [greedy_correlation_filter].  Selecting the ranked columns raises
    [KeyError] when the frame lacks one of them. *)
Definition greedy_correlation_filter (ranked_symbols : list string)
  (returns_df : frame) : outcome CorrelationDecision :=
  if frame_empty returns_df || (length ranked_symbols <=? 1)%nat then
    Returned {| selected := slice_to ranked_symbols top_n; excluded := ∅ |}
  else
    (* returns_df[ranked_symbols] *)
    match List.find (fun s => negb (mem s (map fst returns_df))) ranked_symbols with
    | Some missing => Raised (KeyError missing)
    | None =>
        let '(sel, exc) := greedy_loop ranked_symbols [] ∅ in
        let sel :=
          if (Z.of_nat (length sel) <? top_n)%Z
          then pad_loop ranked_symbols sel else sel in
        Returned {| selected := sel; excluded := exc |}
    end.

End Filter.

(** *** What the correlation matrix is

    Pearson's coefficient needs a square root; on rationals it is pinned
    down by its square and its sign.  A pair without variance has no
    coefficient (NaN), which [fillna(0.0)] turns into zero. *)

Local Open Scope Q_scope.

Fixpoint total (xs : list Q) : Q :=
  match xs with
  | [] => 0
  | x :: rest => x + total rest
  end.

Definition mean (xs : list Q) : Q := total xs / inject_Z (Z.of_nat (length xs)).

(** Sum of the products of the deviations from the means. *)
Fixpoint co_dev (mx my : Q) (xs ys : list Q) : Q :=
  match xs, ys with
  | x :: xs', y :: ys' => (x - mx) * (y - my) + co_dev mx my xs' ys'
  | _, _ => 0
  end.

Definition co_moment (xs ys : list Q) : Q := co_dev (mean xs) (mean ys) xs ys.

Definition is_pearson (xs ys : list Q) (c : Q) : Prop :=
  let sxx := co_moment xs xs in
  let syy := co_moment ys ys in
  let sxy := co_moment xs ys in
  (sxx * syy == 0 -> c == 0) /\
  (~ sxx * syy == 0 -> c * c * (sxx * syy) == sxy * sxy /\ 0 <= c * sxy).

(** [corr] is the filled correlation matrix of the frame. *)
Definition pearson_matrix (df : frame) (corr : string -> string -> Q) : Prop :=
  forall a b xs ys,
    column df a = Some xs -> column df b = Some ys -> is_pearson xs ys (corr a b).


(** A symbol may be admitted next to those already admitted: its absolute
    correlation with each of them is at most the bound. *)
Definition admissible (corr : string -> string -> Q) (max_abs_corr : Q)
  (sym : string) (admitted : list string) : Prop :=
  Forall (fun s2 => Qabs (corr sym s2) <= max_abs_corr) admitted.

(** Every symbol of the list was admissible next to those before it. *)
Definition admitted_in_turn (corr : string -> string -> Q) (max_abs_corr : Q)
  (sel : list string) : Prop :=
  forall before sym after,
    sel = (before ++ sym :: after)%list -> admissible corr max_abs_corr sym before.

End Correlation.

(** ** The vocabulary of the execution properties *)

Module ExecutionSpec.
Import Connector Config Format Persistence Execution.

(** The paper-only gate lets the call through: no account info, or a DEMO or
    CONTEST account. *)
Definition gate_passes (ai : option AccountInfo) : bool :=
  match ai with
  | Some info => paper_account (trade_mode info)
  | None => true
  end.

Definition action_of (t : attempt) : string :=
  match t with
  | Open _ _ _ _ _ _ => "open"
  | Close _ _ _ _ => "close"
  end.

(** At most one row under every idempotency key: the UNIQUE constraint. *)
Definition unique_keys (rows : list DecisionRow) : Prop :=
  forall key, (length (rows_of rows key) <= 1)%nat.

(** The five ways one attempt of the executor can go, with what each leaves
    in the store and in the trace. *)
Inductive ran (F : Renderer) (cfg : AppConfig) (b : Broker) (a : DecisionArgs)
  (t : attempt) (w : World) : World -> outcome ExecutionReport -> Prop :=
| ran_disabled :
    trading_enabled (execution cfg) = false ->
    ran F cfg b a t w w
      (Returned {| action := action_of t; rep_success := false;
                   rep_reason := "trading disabled";
                   rep_order := None; rep_result := None |})
| ran_account_raised (e : exn) :
    trading_enabled (execution cfg) = true ->
    account_info b = Raised e ->
    ran F cfg b a t w (emit w [EvAccountInfo]) (Raised e)
| ran_refused (info : AccountInfo) :
    trading_enabled (execution cfg) = true ->
    account_info b = Returned (Some info) ->
    paper_account (trade_mode info) = false ->
    ran F cfg b a t w (emit w [EvAccountInfo])
      (Returned {| action := action_of t; rep_success := false;
                   rep_reason := "paper-only gate: trade_mode="
                                 ++ str_trade_mode F (trade_mode info);
                   rep_order := None; rep_result := None |})
| ran_duplicate (ai : option AccountInfo) :
    trading_enabled (execution cfg) = true ->
    account_info b = Returned ai ->
    gate_passes ai = true ->
    has_key (decisions w) (arg_idempotency_key a) = true ->
    ran F cfg b a t w (emit w [EvAccountInfo])
      (Returned {| action := action_of t; rep_success := false;
                   rep_reason := "duplicate idempotency key";
                   rep_order := None; rep_result := None |})
| ran_dispatched (ai : option AccountInfo) (req : OrderRequest)
    (res : outcome OrderResult) (evs after : list event)
    (row : DecisionRow) (final_status : string) (doc : option ResultDoc)
    (r : ExecutionReport) :
    trading_enabled (execution cfg) = true ->
    account_info b = Returned ai ->
    gate_passes ai = true ->
    has_key (decisions w) (arg_idempotency_key a) = false ->
    idempotency_key row = arg_idempotency_key a ->
    call_with_retries (fun i => place_order b i req) (EvPlaceOrder req)
      (max_attempts (retries (execution cfg)))
      (backoff_seconds (retries (execution cfg))) = (res, evs) ->
    broker_calls after = 0%nat ->
    terminal_status final_status = true ->
    (rep_success r = true <-> exists o, res = Returned o /\ success o = true) ->
    ran F cfg b a t w
      {| decisions :=
           update_decision (decisions w ++ [row])%list (arg_idempotency_key a)
             final_status doc;
         trace := (trace w ++ EvAccountInfo :: evs ++ after)%list |}
      (Returned r).

End ExecutionSpec.

(** ** The vocabulary of the risk properties *)

Module RiskSpec.
Import Connector Risk.

(** A computed percentage has reached its limit; a percentage that was not
    computed ([None]) has not. *)
Definition breached (pct : option Q) (limit : Q) : Prop :=
  exists v, pct = Some v /\ (limit <= v)%Q.

(** The clock reading lies before the end of the cooloff. *)
Definition cooling_off (now : Z) (until : option Z) : Prop :=
  exists u, until = Some u /\ now < u.

(** The same two conditions as boolean tests. *)
Definition breachedb (pct : option Q) (limit : Q) : bool :=
  match pct with Some v => Qle_bool limit v | None => false end.

Definition cooling_offb (now : Z) (until : option Z) : bool :=
  match until with Some u => now <? u | None => false end.

(** The equity values a sequence of updates has shown to the manager. *)
Fixpoint observed_equities (updates : list (option AccountInfo * string * Z))
  : list Q :=
  match updates with
  | [] => []
  | (Some a, _, _) :: rest =>
      match equity a with
      | Some e => e :: observed_equities rest
      | None => observed_equities rest
      end
  | (None, _, _) :: rest => observed_equities rest
  end.

(** The peak is unset or positive: true of [RiskState()] and kept by every
    update. *)
Definition peak_tracked (st : RiskState) : Prop :=
  match peak_equity st with
  | None => True
  | Some p => (0 < p)%Q
  end.


(** The three pause gates of [update_equity_state] as a function of what the
    method has computed before it reaches them: the verdict is the pair of
    [paused] and [pause_reason]. *)
Definition gates (F : Format.Renderer) (cfg : Config.AppConfig)
  (dl dd : option Q) (cool : option Z) (now : Z) : bool * option string :=
  let max_dl := Config.max_daily_loss_pct (Config.risk cfg) in
  let max_dd := Config.max_drawdown_pct (Config.risk cfg) in
  let verdict0 := (false, @None string) in
  let verdict1 :=
    match dl with
    | Some l =>
        if Qle_bool max_dl l
        then (true, Some ("max daily loss breached (" ++ Format.pct2 F l ++ " >= "
                          ++ Format.pct2 F max_dl ++ ")")%string)
        else verdict0
    | None => verdict0
    end in
  let verdict2 :=
    match dd with
    | Some d =>
        if Qle_bool max_dd d
        then (true, Some ("max drawdown breached (" ++ Format.pct2 F d ++ " >= "
                          ++ Format.pct2 F max_dd ++ ")")%string)
        else verdict1
    | None => verdict1
    end in
  match cool with
  | Some until =>
      if (now <? until)%Z
      then (true, Some ("cooloff until " ++ Format.isoformat F until)%string)
      else verdict2
  | None => verdict2
  end.

End RiskSpec.

(** ** Concrete data used to exercise the model *)

Module Examples.
Import Connector Config.

(** A position as the risk tests build it. *)
Definition position_with_magic (sym : string) (magic : option Z) : Position :=
  {| position_id := 1; pos_symbol := sym; pos_side := LONG;
     pos_volume := 1 # 100; price_open := 1; pos_sl := None; pos_tp := None;
     pos_time_utc := 0; pos_profit := None; pos_magic := magic;
     pos_comment := None |}.

(** A losing closing deal. *)
Definition losing_deal (magic : option Z) : Deal :=
  {| deal_ticket := 7; deal_position_id := Some 1; deal_order_ticket := None;
     deal_time_utc := 0; deal_symbol := "EURUSD"; deal_side := SHORT;
     entry := "OUT"; deal_volume := 1 # 100; deal_price := 1;
     deal_profit := Some (- (5 # 1))%Q; deal_magic := magic;
     deal_comment := None |}.


(** A renderer that prints nothing of the numbers and shows a string between
    single quotes: the properties below hold for every renderer. *)
Definition terse : Format.Renderer :=
  {| Format.pct2 := fun _ => "%";
     Format.fix2 := fun _ => "#";
     Format.str_int := fun _ => "n";
     Format.isoformat := fun _ => "T";
     Format.str_trade_mode := fun m =>
       match m with
       | DEMO => "AccountTradeMode.DEMO"
       | REAL => "AccountTradeMode.REAL"
       | CONTEST => "AccountTradeMode.CONTEST"
       | UNKNOWN => "AccountTradeMode.UNKNOWN"
       end;
     Format.repr_str := fun s => "'" ++ s ++ "'" |}.

(** The account of the risk tests, at a given equity. *)
Definition account (mode : AccountTradeMode) (eq : option Q) : AccountInfo :=
  {| login := Some 1; server := Some "demo"; currency := Some "USD";
     leverage := Some 100; balance := Some 1000%Q; equity := eq;
     margin := Some 0%Q; trade_mode := mode |}.

(** The symbol of the risk tests, with the three volume settings left open. *)
Definition eurusd (vol_min vol_max vol_step : Q) : SymbolMeta :=
  {| name := "EURUSD"; digits := Some 5; point := Some (1 # 100000)%Q;
     trade_allowed := Some true; spread_points := Some 10%Q;
     trade_stops_level := Some 0;
     volume_min := Some vol_min; volume_max := Some vol_max;
     volume_step := Some vol_step;
     trade_tick_value := Some 1%Q; trade_tick_size := Some (1 # 100000)%Q;
     trade_contract_size := Some 100000%Q |}.

(** A symbol whose point, tick size and volume grid are powers of two: the
    arithmetic of an entry check on it is exact in floats as well. *)
Definition binary_symbol : SymbolMeta :=
  {| name := "EURUSD"; digits := Some 5; point := Some (1 # 65536)%Q;
     trade_allowed := Some true; spread_points := Some 20%Q;
     trade_stops_level := Some 0;
     volume_min := Some (1 # 64)%Q; volume_max := Some 64%Q;
     volume_step := Some (1 # 64)%Q;
     trade_tick_value := Some 1%Q; trade_tick_size := Some (1 # 65536)%Q;
     trade_contract_size := Some 100000%Q |}.

(** A quote on it, twenty points wide. *)
Definition binary_quote : Quote :=
  {| quote_symbol := "EURUSD"; bid := (98284 # 65536)%Q; ask := (3 # 2)%Q;
     quote_time_utc := 0; quote_spread_points := 20%Q |}.


(** [hashlib]'s SHA-256 on the two strings the examples hash (the digests
    were taken from [sha256sum]); any other string is not needed. *)
Definition example_sha256 (s : string) : string :=
  if String.eqb s "EURUSD|H1|2026-01-01T00:00:00+00:00|two_pole_momentum|long"
  then "d55a340c0b6437ff6f1b2d91b63cf91c4c076d83bb59b45863f0de488058f7d3"
  else if String.eqb s "EURUSD|H1|2026-01-01T00:00:00+00:00|two_pole_momentum|short"
  then "bb3820147f53aebf9c041eba974c1253e86140a99c3281edcd2a3288e83f1c3e"
  else "".

Definition long_key : string :=
  Idempotency.make_idempotency_key example_sha256 "EURUSD" "H1"
    "2026-01-01T00:00:00+00:00" "two_pole_momentum" "long".

(** The keyword arguments of an entry on EURUSD/H1 for that candle. *)
Definition long_args (cycle : string) : Execution.DecisionArgs :=
  {| Execution.arg_cycle_id := cycle;
     Execution.arg_symbol := "EURUSD";
     Execution.arg_timeframe := "H1";
     Execution.arg_candle_close_time_utc := "2026-01-01T00:00:00+00:00";
     Execution.arg_strategy := "two_pole_momentum";
     Execution.arg_idempotency_key := long_key;
     Execution.arg_rank_score := Some (7 # 10)%Q;
     Execution.arg_rank_components := None;
     Execution.arg_features := None;
     Execution.arg_signal := None;
     Execution.arg_risk := None |}.

Definition long_attempt : Execution.attempt :=
  Execution.Open LONG (5 # 100)%Q (Some (999 # 1000)%Q) (Some (1002 # 1000)%Q)
    1%Q (10002 # 10000)%Q.

(** The default configuration with trading switched on. *)
Definition trading_config : AppConfig :=
  {| risk := risk default_config;
     execution :=
       {| trading_enabled := true;
          close_on_exit_signal := close_on_exit_signal (execution default_config);
          slippage_points := slippage_points (execution default_config);
          magic_number := magic_number (execution default_config);
          retries := retries (execution default_config) |} |}.

Definition filled : OrderResult :=
  {| success := true; retcode := Some 10009; order_ticket := Some 1;
     res_position_id := Some 1; res_comment := None; raw := "{}" |}.

(** A broker on an account of the given mode whose [place_order] answers as
    the given function says. *)
Definition broker_on (mode : AccountTradeMode)
  (place : nat -> OrderRequest -> Py.outcome OrderResult) : Execution.Broker :=
  {| Execution.account_info := Py.Returned (Some (account mode (Some 1000%Q)));
     Execution.place_order := place;
     Execution.list_positions := Py.Returned [];
     Execution.utc_iso := "2026-01-01T00:00:01+00:00" |}.

Definition fills : nat -> OrderRequest -> Py.outcome OrderResult :=
  fun _ _ => Py.Returned filled.

(** No tick on the first invocation, a fill on the second. *)
Definition fills_on_retry : nat -> OrderRequest -> Py.outcome OrderResult :=
  fun i _ =>
    match i with
    | O => Py.Raised (Py.RetryableBrokerError "No tick for symbol: EURUSD")
    | S _ => Py.Returned filled
    end.

Definition empty_world : Execution.World :=
  {| Execution.decisions := []; Execution.trace := [] |}.


(** The returns frame of the correlation scenario, A = B = t and C = -t, for
    a short ramp t. *)
Definition ramp : list Q := [0%Q; 1%Q; 2%Q].

Definition abc_frame (t : list Q) : Correlation.frame :=
  [("A", t); ("B", t); ("C", map Qopp t)].

(** Its correlation matrix: -1 between C and the others, 1 elsewhere. *)
Definition abc_corr (a b : string) : Q :=
  if xorb (String.eqb a "C") (String.eqb b "C") then (-1)%Q else 1%Q.

End Examples.

(** ** The vocabulary of the retry properties *)

Module RetrySpec.
Import Execution.

(** The trace of a wrapped call that ends on its invocation of index [i],
    the loop being at [attempt]: [i] invocations each followed by its
    backoff sleep, then the last invocation. *)
Fixpoint retry_trace (call_ev : event) (backoff_seconds : list Q)
  (attempt : Z) (i : nat) : list event :=
  match i with
  | O => [call_ev]
  | S k =>
      call_ev :: EvSleep (backoff_delay backoff_seconds attempt)
      :: retry_trace call_ev backoff_seconds (attempt + 1) k
  end.

(** The invocation raised one of the two exceptions the wrapper catches. *)
Definition transient {T : Type} (o : outcome T) : Prop :=
  exists e, o = Raised e /\ retryable e = true.

(** The lengths of the sleeps in a trace, in order. *)
Fixpoint sleeps (evs : list event) : list Q :=
  match evs with
  | [] => []
  | EvSleep d :: rest => d :: sleeps rest
  | _ :: rest => sleeps rest
  end.

End RetrySpec.

(** ** More concrete data *)

Module Scenarios.
Import Connector Config Examples.

(** The order [open_trade] builds for [long_attempt] under the defaults. *)
Definition long_order : OrderRequest :=
  {| req_symbol := "EURUSD"; req_side := LONG; req_volume := (5 # 100)%Q;
     req_sl := Some (999 # 1000)%Q; req_tp := Some (1002 # 1000)%Q;
     deviation_points := 20; req_magic := 26012026;
     req_comment := "tb:d55a340c0b64"; req_idempotency_key := long_key;
     req_position_id := None |}.

(** A terminal that stays disconnected. *)
Definition never_connects : nat -> OrderRequest -> Py.outcome OrderResult :=
  fun _ _ => Py.Raised (Py.BrokerDisconnectedError "MT5 not connected").

End Scenarios.

(** ** More vocabulary of the execution properties *)

Module DispatchSpec.
Import Connector Constants Execution.

(** The status a decision row takes when the broker accepts the order. *)
Definition done_status (t : attempt) : string :=
  match t with
  | Open _ _ _ _ _ _ => DECISION_STATUS_OPENED
  | Close _ _ _ _ => DECISION_STATUS_CLOSED
  end.

(** The position an order is meant to close, if any. *)
Definition closes (t : attempt) : option Z :=
  match t with
  | Open _ _ _ _ _ _ => None
  | Close position_id _ _ _ => Some position_id
  end.

(** The same broker with another answer to [list_positions]. *)
Definition with_positions (b : Broker) (answer : outcome (list Position)) : Broker :=
  {| account_info := account_info b; place_order := place_order b;
     list_positions := answer; utc_iso := utc_iso b |}.

Definition is_log (e : event) : bool :=
  match e with EvLogWarning _ | EvLogDebug _ => true | _ => false end.

(** A trace without its log lines. *)
Definition without_logs (evs : list event) : list event :=
  List.filter (fun e => negb (is_log e)) evs.

End DispatchSpec.

(** ** More vocabulary of the risk properties *)

Module CountSpec.
Import Connector Limits.

(** The positions [count_positions] does not skip. *)
Definition counted (magic : option Z) (positions : list Position) : list Position :=
  List.filter (fun p => negb (other_magic magic (pos_magic p))) positions.

(** Those of them on one symbol. *)
Definition on_symbol (sym : string) (positions : list Position) : list Position :=
  List.filter (fun p => String.eqb (pos_symbol p) sym) positions.

End CountSpec.

Module StreakSpec.
Import Connector Num Limits Format.

(** The deals [on_new_deals] acts on: closes that do not carry another
    magic number. *)
Definition bot_close (magic_number : Z) (d : Deal) : bool :=
  negb (other_magic (Some magic_number) (deal_magic d))
  && String.eqb (upper (entry d)) "OUT".

Definition bot_closes (magic_number : Z) (deals : list Deal) : list Deal :=
  List.filter (bot_close magic_number) deals.

Definition losing (d : Deal) : bool := Qlt_bool (or_zero (deal_profit d)) 0.

(** The number of losing closes at the end of a sequence. *)
Fixpoint trailing_losses (closes : list Deal) : nat :=
  match closes with
  | [] => O
  | d :: rest =>
      if forallb losing rest
      then (if losing d then S (length rest) else length rest)
      else trailing_losses rest
  end.

End StreakSpec.

(** ** More concrete data for the risk properties *)

Module RiskScenarios.
Import Connector Config Examples.

(** The defaults with ATR-based stop and target. *)
Definition atr_config : AppConfig :=
  {| risk :=
       {| risk_per_trade := risk_per_trade (risk default_config);
          max_daily_loss_pct := max_daily_loss_pct (risk default_config);
          max_drawdown_pct := max_drawdown_pct (risk default_config);
          max_open_positions_total := max_open_positions_total (risk default_config);
          max_open_positions_per_symbol :=
            max_open_positions_per_symbol (risk default_config);
          sltp_mode := atr_mode;
          rr := rr (risk default_config);
          atr := atr (risk default_config);
          cooloff := cooloff (risk default_config) |};
     execution := execution default_config |}.

End RiskScenarios.

(** ** More vocabulary of the ranking properties *)

Module RankingSpec.
Import Normalizer.


End RankingSpec.

(** ** core/utils.py: the numeric helper *)

Module Utils.
Import Num.
Local Open Scope Q_scope.

(** [clamp(value, lo, hi)]: [max(lo, min(hi, value))]. *)
Definition clamp (value lo hi : Q) : Q := py_max lo (py_min hi value).

(** [int(x)] of a float: truncation towards zero. *)
Definition py_int (x : Q) : Z :=
  if Qlt_bool x 0 then Qceiling x else Qfloor x.

End Utils.

(** ** ranking/scorer.py *)

Module Scorer.
Import Num.
Local Open Scope Q_scope.





End Scorer.

(** ** The vocabulary of the scoring properties *)

Module ScoreSpec.
Import Scorer.
Local Open Scope Q_scope.






End ScoreSpec.

(** ** strategies/base.py and the two strategies *)

Module Strategies.
Import Connector Num Utils.
Local Open Scope Q_scope.

(** [extra] is left at its default, the empty dictionary, by both
    strategies and is not carried. *)
Record Signal := {
  side : Side;
  confidence : Q;
  sig_reason : string;
  suggested_sl : option Q;
  suggested_tp : option Q;
  tags : list string
}.

Record StrategyContext := {
  ctx_symbol : string;
  ctx_timeframe : string;
  ctx_candle_close_time_utc : string;
  ctx_quote : option Quote;
  ctx_symbol_meta : option SymbolMeta;
  current_position : option Position
}.

(** [StrategyBase]: a name and [generate_signal].  Neither strategy reads the
    candles; the features are the floats of the feature dictionary. *)
Record StrategyBase := {
  name : string;
  generate_signal : gmap string Q -> StrategyContext -> Signal
}.

(** [Signal(side=..., confidence=..., reason=...)] with the defaults. *)
Definition plain (s : Side) (conf : Q) (why : string) : Signal :=
  {| side := s; confidence := conf; sig_reason := why;
     suggested_sl := None; suggested_tp := None; tags := [] |}.

(** The same with [tags=["exit"]]. *)
Definition exit_signal (conf : Q) (why : string) : Signal :=
  {| side := FLAT; confidence := conf; sig_reason := why;
     suggested_sl := None; suggested_tp := None; tags := ["exit"%string] |}.

Section Reasons.

(** [f"{x:.1f}"]. *)
Variable fix1 : Q -> string.

Definition range_mean_reversion_signal (features : gmap string Q)
  (ctx : StrategyContext) : Signal :=
  match features !! "rsi14"%string with
  | None => plain FLAT 0 "RSI not available"
  | Some rsi14 =>
      match current_position ctx with
      | Some pos =>
          if side_eqb (pos_side pos) LONG && Qle_bool 50 rsi14 then
            exit_signal (clamp ((rsi14 - 50) / 20) 0 1)
              "RSI mean reversion: exit long"
          else if side_eqb (pos_side pos) SHORT && Qle_bool rsi14 50 then
            exit_signal (clamp ((50 - rsi14) / 20) 0 1)
              "RSI mean reversion: exit short"
          else plain FLAT 0 "In position: no exit signal"
      | None =>
          if Qle_bool rsi14 30 then
            plain LONG (clamp ((30 - rsi14) / 20) 0 1)
              ("RSI oversold (" ++ fix1 rsi14 ++ ")")
          else if Qle_bool 70 rsi14 then
            plain SHORT (clamp ((rsi14 - 70) / 20) 0 1)
              ("RSI overbought (" ++ fix1 rsi14 ++ ")")
          else plain FLAT 0 ("RSI neutral (" ++ fix1 rsi14 ++ ")")
      end
  end.

Definition RangeMeanReversionStrategy : StrategyBase :=
  {| name := "range_mean_reversion";
     generate_signal := range_mean_reversion_signal |}.

Definition two_pole_momentum_signal (features : gmap string Q)
  (ctx : StrategyContext) : Signal :=
  let cross := py_int (or_zero (features !! "tp_cross"%string)) in
  let hist := or_zero (features !! "tp_hist"%string) in
  let atr14 := or_zero (features !! "atr14"%string) in
  let adx14 := or_zero (features !! "adx14"%string) in
  let slope := or_zero (features !! "ema50_slope"%string) in
  let strength := if Qlt_bool 0 atr14 then Qabs hist / atr14 else 0 in
  let conf :=
    clamp ((25 # 100) + (45 # 100) * clamp strength 0 1
           + (30 # 100) * clamp (adx14 / 50) 0 1) 0 1 in
  match current_position ctx with
  | Some pos =>
      if side_eqb (pos_side pos) LONG && (cross <? 0)%Z then
        exit_signal conf "Two-pole crossover down: exit long"
      else if side_eqb (pos_side pos) SHORT && (0 <? cross)%Z then
        exit_signal conf "Two-pole crossover up: exit short"
      else plain FLAT 0 "In position: no exit signal"
  | None =>
      if (0 <? cross)%Z && Qlt_bool 0 slope then
        plain LONG conf "Crossover up with MA slope up"
      else if (cross <? 0)%Z && Qlt_bool slope 0 then
        plain SHORT conf "Crossover down with MA slope down"
      else plain FLAT 0 "No entry signal"
  end.

Definition TwoPoleMomentumStrategy : StrategyBase :=
  {| name := "two_pole_momentum";
     generate_signal := two_pole_momentum_signal |}.

(** [StrategyRegistry]: the strategies by name. *)
Record StrategyRegistry := { strategies : list (string * StrategyBase) }.

(** [StrategyRegistry.default()]. *)
Definition default_registry : StrategyRegistry :=
  {| strategies :=
       map (fun s => (name s, s))
         [TwoPoleMomentumStrategy; RangeMeanReversionStrategy] |}.

(** [str(sorted(names))] is the interpreter's. *)
Variable repr_sorted : list string -> string.

Definition registry_get (registry : StrategyRegistry) (nm : string)
  : outcome StrategyBase :=
  match Timeframes.dict_get (strategies registry) nm with
  | None =>
      Raised (KeyError ("Unknown strategy: " ++ nm ++ ". Available: "
                        ++ repr_sorted (map fst (strategies registry))))
  | Some s => Returned s
  end.

(** *** strategies/selector.py *)

Inductive StrategyMode : Type := manual | rule_based.

Record StrategyRuleBased := { adx_trending : Q; adx_ranging : Q }.

Record StrategyConfig := {
  mode : StrategyMode;
  manual_active : string;
  rule_based_cfg : StrategyRuleBased
}.

(** [StrategyConfig()]. *)
Definition default_strategy_config : StrategyConfig :=
  {| mode := manual; manual_active := "two_pole_momentum";
     rule_based_cfg := {| adx_trending := 22; adx_ranging := 18 |} |}.

Record StrategySelection := {
  strategy : option StrategyBase;
  sel_name : option string;
  sel_reason : string
}.

Definition chosen (s : StrategyBase) (why : string) : StrategySelection :=
  {| strategy := Some s; sel_name := Some (name s); sel_reason := why |}.

Definition select (cfg : StrategyConfig) (registry : StrategyRegistry)
  (features : gmap string Q) : outcome StrategySelection :=
  match mode cfg with
  | manual =>
      match registry_get registry (manual_active cfg) with
      | Raised e => Raised e
      | Returned s => Returned (chosen s "manual mode")
      end
  | rule_based =>
      let adx := or_zero (features !! "adx14"%string) in
      let trending := adx_trending (rule_based_cfg cfg) in
      let ranging := adx_ranging (rule_based_cfg cfg) in
      if Qle_bool trending adx then
        match registry_get registry "two_pole_momentum" with
        | Raised e => Raised e
        | Returned s =>
            Returned (chosen s ("ADX " ++ fix1 adx ++ " >= " ++ fix1 trending
                                ++ " (trending)"))
        end
      else if Qle_bool adx ranging then
        match registry_get registry "range_mean_reversion" with
        | Raised e => Raised e
        | Returned s =>
            Returned (chosen s ("ADX " ++ fix1 adx ++ " <= " ++ fix1 ranging
                                ++ " (ranging)"))
        end
      else
        Returned {| strategy := None; sel_name := None;
                    sel_reason := "ADX " ++ fix1 adx ++ " mid-zone: no trade" |}
  end.

End Reasons.

End Strategies.

(** ** The vocabulary of the strategy properties *)

Module StrategySpec.
Import Connector Strategies.
Local Open Scope Q_scope.

(** What a signal has to keep to for the engine's branches to make sense:
    a confidence in the unit interval, no entry while a position is held, an
    exit tag only on a flat signal about a held long or short position, and
    no levels of its own. *)
Definition orderly (ctx : StrategyContext) (s : Signal) : Prop :=
  (0 <= confidence s /\ confidence s <= 1)
  /\ (forall pos, current_position ctx = Some pos -> side s = FLAT)
  /\ (side s <> FLAT -> current_position ctx = None /\ tags s = [])
  /\ (tags s = [] \/ tags s = ["exit"%string])
  /\ (In "exit"%string (tags s) ->
      exists pos, current_position ctx = Some pos
                  /\ (pos_side pos = LONG \/ pos_side pos = SHORT))
  /\ suggested_sl s = None /\ suggested_tp s = None.

End StrategySpec.

(** ** notifications/throttle.py and notifications/telegram.py *)

Module Notifications.
Import Num.
Local Open Scope Q_scope.

Record Throttle := {
  throttle_seconds : Q;
  _last : gmap string Q
}.

(** [Throttle.allow]; [now] is what [time.time()] answers. *)
Definition allow (t : Throttle) (now : Q) (key : string) : Throttle * bool :=
  let refused :=
    match _last t !! key with
    | Some last => Qlt_bool (now - last) (throttle_seconds t)
    | None => false
    end in
  if refused then (t, false)
  else ({| throttle_seconds := throttle_seconds t;
           _last := <[ key := now ]> (_last t) |}, true).

Record TelegramConfig := {
  tg_enabled : bool;
  token : option string;
  chat_ids : list string;
  tg_throttle_seconds : Q
}.

(** Truth value of an optional string: [None] and [""] are false. *)
Definition nonempty (s : option string) : bool :=
  match s with
  | Some str => negb (String.eqb str "")
  | None => false
  end.

(** [TelegramNotifier.available]. *)
Definition available (cfg : TelegramConfig) : bool :=
  tg_enabled cfg && nonempty (token cfg)
  && negb (Nat.eqb (length (chat_ids cfg)) 0).

(** A message handed to [_send_one]: the chat and the text.  The method logs
    and swallows every failure of the HTTP request. *)
Definition post (M : Type) : Type := (string * M)%type.

(** [TelegramNotifier.send]: the throttle afterwards and the posts made, in
    order.  The clock is read only when the throttle is asked. *)
Definition send {M : Type} (cfg : TelegramConfig) (message : M)
  (key : option string) (now : Q) (t : Throttle) : Throttle * list (post M) :=
  if negb (tg_enabled cfg) then (t, [])
  else if negb (nonempty (token cfg)) || Nat.eqb (length (chat_ids cfg)) 0
  then (t, [])
  else
    match (if nonempty key then key else None) with
    | Some k =>
        let '(t', ok) := allow t now k in
        if ok then (t', map (fun chat_id => (chat_id, message)) (chat_ids cfg))
        else (t', [])
    | None => (t, map (fun chat_id => (chat_id, message)) (chat_ids cfg))
    end.

(** One [send] call: the message, its key and the clock reading. *)
Definition call (M : Type) : Type := (M * option string * Q)%type.

Definition send_call {M : Type} (cfg : TelegramConfig) (c : call M)
  (t : Throttle) : Throttle * list (post M) :=
  send cfg (fst (fst c)) (snd (fst c)) (snd c) t.

(** The throttle after a sequence of calls. *)
Definition throttle_after {M : Type} (cfg : TelegramConfig) (calls : list (call M))
  (t : Throttle) : Throttle :=
  fold_left (fun acc c => fst (send_call cfg c acc)) calls t.

(** The posts of the call of index [k] in a sequence that starts from [t]. *)
Definition posts_of {M : Type} (cfg : TelegramConfig) (calls : list (call M))
  (t : Throttle) (k : nat) : list (post M) :=
  match nth_error calls k with
  | Some c => snd (send_call cfg c (throttle_after cfg (firstn k calls) t))
  | None => []
  end.

End Notifications.

(** ** connectors/mt5_connector.py: the stop distance *)

Module Mt5.
Import Connector Num.
Local Open Scope Q_scope.



End Mt5.

(** ** persistence/repos.py: the [trades] table; engine/bot_engine.py: syncing
    deals and watching the pause *)

Module Deals.
Import Connector Num Config Risk.

(** The table holds the deals it accepted, oldest first; [deal_ticket] is
    UNIQUE. *)
Definition has_ticket (trades : list Deal) (ticket : Z) : bool :=
  existsb (fun d => deal_ticket d =? ticket) trades.

(** [TradeRepo.insert_deals]: INSERT OR IGNORE row by row; the deals whose
    row was inserted are returned. *)
Fixpoint insert_deals (trades : list Deal) (deals : list Deal)
  : list Deal * list Deal :=
  match deals with
  | [] => (trades, [])
  | d :: rest =>
      if has_ticket trades (deal_ticket d) then insert_deals trades rest
      else
        let '(trades', inserted) := insert_deals (trades ++ [d])%list rest in
        (trades', d :: inserted)
  end.

(** The part of [BotEngine._sync_deals] between the broker's answer and the
    notifications: what is stored and what the risk manager is shown. *)
Definition new_deals (deals inserted : list Deal) : list Deal :=
  List.filter (fun d => existsb (fun i => deal_ticket i =? deal_ticket d) inserted)
    deals.

Definition sync_deals (cfg : AppConfig) (clock : nat -> Z) (deals : list Deal)
  (trades : list Deal) (st : RiskState) : list Deal * RiskState :=
  let '(trades', inserted) := insert_deals trades deals in
  match inserted with
  | [] => (trades', st)
  | _ =>
      (trades',
       on_new_deals cfg clock (new_deals deals inserted)
         (magic_number (execution cfg)) st)
  end.

(** *** [BotEngine._handle_risk_pause_state] *)

(** The two messages of templates.py the method sends, by their content. *)
Inductive pause_note : Type :=
| RiskPaused (reason : string)
| RiskUnpaused.

(** [str(eq_state.get("pause_reason") or "risk pause")]. *)
Definition reason_or_default (pause_reason : option string) : string :=
  match pause_reason with
  | Some r => if String.eqb r "" then "risk pause" else r
  | None => "risk pause"
  end.

(** The remembered flag afterwards and what is handed to the notifier, with
    its throttle key. *)
Definition _handle_risk_pause_state (prev : option bool) (paused : bool)
  (pause_reason : option string) : option bool * list (pause_note * string) :=
  match prev with
  | None => (Some paused, [])
  | Some was =>
      if negb (Bool.eqb paused was) then
        (Some paused,
         if paused
         then [(RiskPaused (reason_or_default pause_reason), "risk_pause")]
         else [(RiskUnpaused, "risk_unpause")])
      else (prev, [])
  end.

(** The method over the cycles of a run: one equity state per cycle. *)
Fixpoint watch_pause (prev : option bool) (states : list (bool * option string))
  : option bool * list (pause_note * string) :=
  match states with
  | [] => (prev, [])
  | (paused, why) :: rest =>
      let '(prev1, notes1) := _handle_risk_pause_state prev paused why in
      let '(prev2, notes2) := watch_pause prev1 rest in
      (prev2, (notes1 ++ notes2)%list)
  end.

Definition is_pause (n : pause_note * string) : bool :=
  match fst n with RiskPaused _ => true | RiskUnpaused => false end.

(** The notes report a flag that flips each time, starting from [was]. *)
Fixpoint flips_from (was : bool) (notes : list (pause_note * string)) : Prop :=
  match notes with
  | [] => True
  | n :: rest => is_pause n = negb was /\ flips_from (is_pause n) rest
  end.

(** The flag of the last state, or [was] when there is none. *)
Fixpoint last_flag (was : bool) (states : list (bool * option string)) : bool :=
  match states with
  | [] => was
  | (paused, _) :: rest => last_flag paused rest
  end.

End Deals.

(** ** Concrete data for the notifier *)

Module NotifierScenarios.
Import Notifications.

(** Two recipients, the default throttle of twenty seconds. *)
Definition family : TelegramConfig :=
  {| tg_enabled := true; token := Some "123:abc";
     chat_ids := ["1001"; "1002"]; tg_throttle_seconds := 20 |}.

Definition fresh_throttle : Throttle :=
  {| throttle_seconds := 20; _last := ∅ |}.

(** Three pause messages, five and thirty seconds after the first. *)
Definition three_pauses : list (call string) :=
  [("paused", Some "risk_pause", 0%Q); ("paused", Some "risk_pause", 5%Q);
   ("paused", Some "risk_pause", 30%Q)].

End NotifierScenarios.

(** ** engine/bot_engine.py: from the ranked symbols to decisions and orders *)

Module Engine.
Import Connector Num Config Format Constants Idempotency Persistence Execution
  Limits Risk.

(** [CandleBundle]: whether the candle frame is empty, and the features. *)
Record CandleBundle := {
  candles_empty : bool;
  bundle_features : gmap string Q
}.

(** The fields of [RankedSymbol] the engine reads. *)
Record RankedSymbol := {
  rs_symbol : string;
  rs_score : Q;
  rs_components : gmap string Q
}.

(** The two trade messages of templates.py, by their arguments. *)
Inductive trade_note : Type :=
| TradeOpen (symbol side : string) (volume : Q) (price sl tp : option Q)
    (strategy : string) (score : option Q)
| TradeClose (symbol side : string) (volume : Q) (profit : option Q)
    (reason : option string).

(** The dictionaries the engine writes to [signal_json] and [risk_json]. *)
Inductive signal_doc : Type :=
| FlatBecause (reason : string)
| SignalDict (s : Strategies.Signal).

Inductive risk_doc : Type :=
| PauseFlags (paused manual_paused : bool)
| ManualPause
| AlreadyInPosition
| RiskFlags (paused : bool) (pause_reason : option string)
| Verdict (allowed : bool) (reason : string) (details : list (string * detail)).

(** [safe_json_dumps] on the dictionaries that pass through. *)
Record Dumps := {
  dumps_floats : gmap string Q -> string;
  dumps_signal : signal_doc -> string;
  dumps_risk : risk_doc -> string
}.

(** What the outside world answers while one ranked symbol is processed:
    the quote, the clock of the engine's own INSERT, and the broker as the
    executor finds it on a close and on an open. *)
Record Moment := {
  quote_reply : outcome (option Quote);
  created_at_now : string;
  closing : Broker;
  opening : Broker
}.

(** The loop over [positions] that fills [pos_by_symbol]. *)
Definition pos_by_symbol (magic : Z) (positions : list Position)
  : gmap string Position :=
  fold_left
    (fun acc p =>
       if other_magic (Some magic) (pos_magic p) then acc
       else <[ pos_symbol p := p ]> acc)
    positions ∅.

(** [Side.SHORT if pos.side == Side.LONG else Side.LONG]. *)
Definition close_side_of (pos : Position) : Side :=
  if side_eqb (pos_side pos) LONG then SHORT else LONG.

Definition has_exit_tag (s : Strategies.Signal) : bool :=
  existsb (String.eqb "exit") (Strategies.tags s).

Section Cycle.

Variable F : Renderer.
Variable cfg : AppConfig.
Variable sha256_hex : string -> string.
Variable fix1 : Q -> string.
Variable repr_sorted : list string -> string.
Variable scfg : Strategies.StrategyConfig.
Variable registry : Strategies.StrategyRegistry.
Variable D : Dumps.

(** The arguments every decision of one cycle shares. *)
Variable cycle_id : string.
Variable timeframe : string.
Variable candle_close_iso : string.

Definition key_for (sym strategy : string) (s : Side) : string :=
  make_idempotency_key sha256_hex sym timeframe candle_close_iso strategy
    (side_value s).

(** The engine's own [try_insert]: a row without order and result.  The
    answer of the INSERT is not looked at. *)
Definition log_decision (created : string) (r : RankedSymbol)
  (strategy : option string) (feats : gmap string Q) (sig : signal_doc)
  (risk : option risk_doc) (st key : string) (w : World) : World :=
  set_decisions w
    (fst (try_insert (decisions w)
            {| id := 0; created_at := created; Persistence.cycle_id := cycle_id;
               symbol := rs_symbol r; Persistence.timeframe := timeframe;
               candle_close_time_utc := candle_close_iso;
               rank_score := Some (rs_score r);
               rank_components_json := Some (dumps_floats D (rs_components r));
               Persistence.strategy := strategy;
               features_json := Some (dumps_floats D feats);
               signal_json := Some (dumps_signal D sig);
               risk_json := option_map (dumps_risk D) risk;
               order_json := None; result_json := None;
               status := st; idempotency_key := key |})).

(** The keyword arguments the engine hands to the executor. *)
Definition executor_args (r : RankedSymbol) (strategy : string)
  (feats : gmap string Q) (sig : Strategies.Signal) (risk : risk_doc)
  (key : string) : DecisionArgs :=
  {| arg_cycle_id := cycle_id; arg_symbol := rs_symbol r;
     arg_timeframe := timeframe;
     arg_candle_close_time_utc := candle_close_iso;
     arg_strategy := strategy; arg_idempotency_key := key;
     arg_rank_score := Some (rs_score r);
     arg_rank_components := Some (dumps_floats D (rs_components r));
     arg_features := Some (dumps_floats D feats);
     arg_signal := Some (dumps_signal D (SignalDict sig));
     arg_risk := Some (dumps_risk D risk) |}.

(** The result of one step: the store and trace, the notifications handed
    to the notifier with their keys, and the exception that ended it, if
    any. *)
Definition step : Type :=
  (World * list (trade_note * string) * outcome unit)%type.

Definition done (w : World) (notes : list (trade_note * string)) : step :=
  (w, notes, Returned tt).

(** Closing the position held on the symbol, for the given reason. *)
Definition close_held (st : RiskState) (r : RankedSymbol) (strategy : string)
  (feats : gmap string Q) (sig : Strategies.Signal) (pos : Position)
  (reason : string) (m : Moment) (w : World) : step :=
  let sym := rs_symbol r in
  let key := key_for sym strategy FLAT in
  let a := executor_args r strategy feats sig
             (RiskFlags (paused st) (pause_reason st)) key in
  let '(w1, rep) :=
    close_trade F cfg (closing m) a (position_id pos) (close_side_of pos)
      (pos_volume pos) reason w in
  match rep with
  | Raised e => (w1, [], Raised e)
  | Returned rep =>
      if rep_success rep then
        done w1 [(TradeClose sym (side_value (pos_side pos)) (pos_volume pos)
                    None (Some reason),
                  "close:" ++ sym ++ ":" ++ candle_close_iso)]
      else done w1 []
  end.

(** The risk check and, if it allows, the open. *)
Definition enter (st : RiskState) (positions : list Position)
  (account : option AccountInfo) (r : RankedSymbol) (strategy : string)
  (feats : gmap string Q) (sig : Strategies.Signal) (quote : Quote)
  (sm : SymbolMeta) (m : Moment) (w : World) : step :=
  let sym := rs_symbol r in
  let side := Strategies.side sig in
  let risk_dec :=
    fst (check_entry F cfg st sym side quote sm feats positions account) in
  let key := key_for sym strategy side in
  if negb (allowed risk_dec) then
    done (log_decision (created_at_now m) r (Some strategy) feats
            (SignalDict sig)
            (Some (Verdict false (decision_reason risk_dec) (details risk_dec)))
            DECISION_STATUS_RISK_BLOCKED key w) []
  else
    let a := executor_args r strategy feats sig
               (Verdict true (decision_reason risk_dec) (details risk_dec))
               key in
    let '(w1, rep) :=
      open_trade F cfg (opening m) a side (or_zero (decision_volume risk_dec))
        (decision_sl risk_dec) (decision_tp risk_dec) (bid quote) (ask quote) w in
    match rep with
    | Raised e => (w1, [], Raised e)
    | Returned rep =>
        if rep_success rep then
          done w1 [(TradeOpen sym (side_value side)
                      (or_zero (decision_volume risk_dec))
                      (Some (if side_eqb side LONG then ask quote else bid quote))
                      (decision_sl risk_dec) (decision_tp risk_dec) strategy
                      (Some (rs_score r)),
                    "open:" ++ sym ++ ":" ++ candle_close_iso ++ ":"
                    ++ side_value side)]
        else done w1 []
    end.

(** The body of the loop of [_process_top_symbols] once a strategy is
    selected and has given its signal. *)
Definition act (manual_paused : bool) (st : RiskState)
  (positions : list Position) (account : option AccountInfo)
  (r : RankedSymbol) (strategy : string) (feats : gmap string Q)
  (sig : Strategies.Signal) (quote : Quote) (sm : SymbolMeta)
  (held : option Position) (m : Moment) (w : World) : step :=
  let sym := rs_symbol r in
  let side := Strategies.side sig in
  if manual_paused then
    done (log_decision (created_at_now m) r (Some strategy) feats
            (SignalDict sig) (Some ManualPause) DECISION_STATUS_RISK_BLOCKED
            (key_for sym strategy side) w) []
  else if side_eqb side FLAT && has_exit_tag sig then
    if negb (close_on_exit_signal (execution cfg)) then done w []
    else
      match held with
      | None => done w []
      | Some pos =>
          close_held st r strategy feats sig pos (Strategies.sig_reason sig) m w
      end
  else if side_eqb side LONG || side_eqb side SHORT then
    match held with
    | Some pos =>
        if negb (side_eqb (pos_side pos) side) then
          match close_held st r strategy feats sig pos "reversal" m w with
          | (w1, notes, Raised e) => (w1, notes, Raised e)
          | (w1, notes, Returned _) =>
              match enter st positions account r strategy feats sig quote sm
                      m w1 with
              | (w2, notes2, out) => (w2, (notes ++ notes2)%list, out)
              end
          end
        else
          done (log_decision (created_at_now m) r (Some strategy) feats
                  (SignalDict sig) (Some AlreadyInPosition)
                  DECISION_STATUS_SKIPPED (key_for sym strategy FLAT) w) []
    | None => enter st positions account r strategy feats sig quote sm m w
    end
  else
    done (log_decision (created_at_now m) r (Some strategy) feats
            (SignalDict sig) None DECISION_STATUS_NO_SIGNAL
            (key_for sym strategy FLAT) w) [].

(** One iteration of the loop over [rank_out.selected]. *)
Definition process_symbol (bundles : gmap string CandleBundle)
  (symbol_meta : gmap string SymbolMeta) (manual_paused : bool)
  (st : RiskState) (positions : list Position) (account : option AccountInfo)
  (r : RankedSymbol) (m : Moment) (w : World) : step :=
  let sym := rs_symbol r in
  match bundles !! sym with
  | None => done w []
  | Some bundle =>
      if candles_empty bundle then done w []
      else
        let feats := bundle_features bundle in
        match quote_reply m with
        | Raised e => (w, [], Raised e)
        | Returned None => done w []
        | Returned (Some quote) =>
            match symbol_meta !! sym with
            | None => done w []
            | Some sm =>
                match Strategies.select fix1 repr_sorted scfg registry feats with
                | Raised e => (w, [], Raised e)
                | Returned selection =>
                    match Strategies.strategy selection,
                          Strategies.sel_name selection with
                    | Some strat, Some nm =>
                        let held :=
                          pos_by_symbol (magic_number (execution cfg)) positions
                            !! sym in
                        let ctx :=
                          {| Strategies.ctx_symbol := sym;
                             Strategies.ctx_timeframe := timeframe;
                             Strategies.ctx_candle_close_time_utc :=
                               candle_close_iso;
                             Strategies.ctx_quote := Some quote;
                             Strategies.ctx_symbol_meta := Some sm;
                             Strategies.current_position := held |} in
                        act manual_paused st positions account r nm feats
                          (Strategies.generate_signal strat feats ctx)
                          quote sm held m w
                    | _, _ =>
                        done (log_decision (created_at_now m) r None feats
                                (FlatBecause (Strategies.sel_reason selection))
                                (Some (PauseFlags (paused st) manual_paused))
                                DECISION_STATUS_NO_SIGNAL
                                (key_for sym "none" FLAT) w) []
                    end
                end
            end
        end
  end.

(** [_process_top_symbols]: the loop, ended by the first exception. *)
Fixpoint _process_top_symbols (bundles : gmap string CandleBundle)
  (symbol_meta : gmap string SymbolMeta) (manual_paused : bool)
  (st : RiskState) (positions : list Position) (account : option AccountInfo)
  (selected : list (RankedSymbol * Moment)) (w : World) : step :=
  match selected with
  | [] => done w []
  | (r, m) :: rest =>
      match process_symbol bundles symbol_meta manual_paused st positions
              account r m w with
      | (w1, notes, Raised e) => (w1, notes, Raised e)
      | (w1, notes, Returned _) =>
          match _process_top_symbols bundles symbol_meta manual_paused st
                  positions account rest w1 with
          | (w2, notes2, out) => (w2, (notes ++ notes2)%list, out)
          end
      end
  end.

End Cycle.

End Engine.

(** ** The vocabulary of the engine properties *)

Module EngineSpec.
Import Connector Num Config Format Persistence Execution Limits Risk Engine.

(** The requests handed to [connector.place_order], in order. *)
Definition orders_of (evs : list event) : list OrderRequest :=
  flat_map (fun e => match e with EvPlaceOrder req => [req] | _ => [] end) evs.

(** One of the listed positions, on the symbol and not under another magic
    number. *)
Definition own (magic : Z) (positions : list Position) (sym : string)
  (pos : Position) : Prop :=
  In pos positions /\ pos_symbol pos = sym
  /\ other_magic (Some magic) (pos_magic pos) = false.

(** The request closes the position in full. *)
Definition closes_held (pos : Position) (req : OrderRequest) : Prop :=
  req_position_id req = Some (position_id pos)
  /\ req_symbol req = pos_symbol pos
  /\ req_side req = close_side_of pos
  /\ req_volume req = pos_volume pos
  /\ req_sl req = None /\ req_tp req = None.

(** The request opens on the symbol what the risk decision allowed. *)
Definition enters_as (d : RiskDecision) (sym : string) (req : OrderRequest)
  : Prop :=
  allowed d = true
  /\ req_position_id req = None
  /\ req_symbol req = sym
  /\ req_volume req = or_zero (decision_volume d)
  /\ req_sl req = decision_sl d /\ req_tp req = decision_tp d.

(** What entitles the engine to a request while it processes a ranked
    symbol: it closes a position of its own held on that symbol, or it is
    the entry [check_entry] allowed for the side of the request, on the
    quote just fetched, against the positions listed at the start of the
    cycle. *)
Definition justified (F : Renderer) (cfg : AppConfig)
  (bundles : gmap string CandleBundle) (symbol_meta : gmap string SymbolMeta)
  (st : RiskState) (positions : list Position) (account : option AccountInfo)
  (r : RankedSymbol) (m : Moment) (req : OrderRequest) : Prop :=
  req_magic req = magic_number (execution cfg)
  /\ ((exists pos,
          own (magic_number (execution cfg)) positions (rs_symbol r) pos
          /\ closes_held pos req)
      \/ (exists bundle quote sm,
             bundles !! rs_symbol r = Some bundle
             /\ quote_reply m = Returned (Some quote)
             /\ symbol_meta !! rs_symbol r = Some sm
             /\ enters_as
                  (fst (check_entry F cfg st (rs_symbol r) (req_side req) quote
                          sm (bundle_features bundle) positions account))
                  (rs_symbol r) req)).

(** The same once the bundle, the quote and the symbol's metadata are at
    hand, with [held] the position found for the symbol. *)
Definition entitled (F : Renderer) (cfg : AppConfig) (st : RiskState)
  (positions : list Position) (account : option AccountInfo)
  (r : RankedSymbol) (feats : gmap string Q) (quote : Quote) (sm : SymbolMeta)
  (held : option Position) (req : OrderRequest) : Prop :=
  req_magic req = magic_number (execution cfg)
  /\ ((exists pos, held = Some pos
                   /\ req_position_id req = Some (position_id pos)
                   /\ req_symbol req = rs_symbol r
                   /\ req_side req = close_side_of pos
                   /\ req_volume req = pos_volume pos
                   /\ req_sl req = None /\ req_tp req = None)
      \/ enters_as
           (fst (check_entry F cfg st (rs_symbol r) (req_side req) quote sm
                   feats positions account))
           (rs_symbol r) req).

(** A row the engine logs without going to the executor. *)
Definition logged_only (row : DecisionRow) : Prop :=
  order_json row = None /\ result_json row = None.

Definition is_open_note (n : trade_note * string) : bool :=
  match fst n with TradeOpen _ _ _ _ _ _ _ _ => true | TradeClose _ _ _ _ _ => false end.

End EngineSpec.

(** ** A cycle of the engine on one symbol *)

Module EngineScenarios.
Import Connector Num Config Format Execution Risk Engine Examples.

(** A long position of the bot on EURUSD. *)
Definition held_long : Position :=
  position_with_magic "EURUSD" (Some (magic_number (execution default_config))).

(** The risk manager after a pause. *)
Definition paused_state : RiskState :=
  {| paused := true; pause_reason := Some "daily loss limit";
     cooloff_until_utc := None; loss_streak := 0; daily_date := None;
     daily_start_equity := None; peak_equity := None |}.

(** The two-pole oscillator has just crossed down. *)
Definition crossed_down : gmap string Q :=
  <[ "tp_cross"%string := (- (1))%Q ]> ∅.

Definition one_bundle : gmap string CandleBundle :=
  {[ "EURUSD"%string :=
       {| candles_empty := false; bundle_features := crossed_down |} ]}.

Definition one_meta : gmap string SymbolMeta :=
  {[ "EURUSD"%string := eurusd (1 # 100) 1 (1 # 100) ]}.

Definition top_eurusd : RankedSymbol :=
  {| rs_symbol := "EURUSD"; rs_score := (7 # 10)%Q; rs_components := ∅ |}.

Definition calm : Moment :=
  {| quote_reply :=
       Returned (Some {| quote_symbol := "EURUSD"; bid := 1%Q;
                         ask := (10002 # 10000)%Q; quote_time_utc := 0;
                         quote_spread_points := 20%Q |});
     created_at_now := "2026-01-01T00:00:01+00:00";
     closing := broker_on DEMO fills;
     opening := broker_on DEMO fills |}.

(** JSON texts that keep nothing of the dictionaries. *)
Definition blank : Dumps :=
  {| dumps_floats := fun _ => "{}"%string;
     dumps_signal := fun _ => "{}"%string;
     dumps_risk := fun _ => "{}"%string |}.

(** One cycle over EURUSD alone while the bot is long there, the oscillator
    having crossed down. *)
Definition exit_cycle (manual_paused : bool) (st : RiskState) : step :=
  _process_top_symbols terse trading_config example_sha256
    (fun _ => "#"%string) (fun _ => "[]"%string)
    Strategies.default_strategy_config
    (Strategies.default_registry (fun _ => "#"%string)) blank
    "c1" "H1" "2026-01-01T00:00:00+00:00" one_bundle one_meta manual_paused st
    [held_long] (Some (account DEMO (Some 1000%Q))) [(top_eurusd, calm)]
    empty_world.

End EngineScenarios.

(** * Properties *)

(** ** The scheduler advances monotonically *)

Module SchedulerProps.
Import Timeframes Scheduler.

(** One call either leaves the scheduler as it is and returns no close time,
    or returns a close time beyond the last one and remembers it. *)
Lemma poll_cases (s : CandleCloseScheduler) (reply : candles_reply) :
  (fst (poll s reply) = s /\ returned_times [snd (poll s reply)] = [])
  \/ exists c,
       snd (poll s reply) = Returned (Some c)
       /\ last_candle_close_time_utc (fst (poll s reply)) = Some c
       /\ forall l, last_candle_close_time_utc s = Some l -> l < c.
Proof.
  unfold poll.
  destruct reply as [[df|]|e]; simpl; auto.
  destruct (length df <? 3)%nat; simpl; auto.
  destruct (nth_error df (length df - 2)) as [open_dt|]; simpl; auto.
  destruct (timeframe_seconds (timeframe s)) as [secs|e]; simpl; auto.
  destruct (last_candle_close_time_utc s) as [l|] eqn:Hlast; simpl.
  - destruct (l <? open_dt + timedelta_seconds secs) eqn:Hlt; simpl; auto.
    right. eexists. repeat split.
    intros l' Hl'. injection Hl' as <-. now apply Z.ltb_lt.
  - right. eexists. repeat split. intros l' Hl'. discriminate.
Qed.

Lemma returned_times_cons (o : outcome (option Z)) (os : list (outcome (option Z))) :
  returned_times (o :: os) = (returned_times [o] ++ returned_times os)%list.
Proof. destruct o as [[t|]|e]; reflexivity. Qed.

Lemma run_polls_cons (s : CandleCloseScheduler) (r : candles_reply)
  (rest : list candles_reply) :
  snd (run_polls s (r :: rest))
  = snd (poll s r) :: snd (run_polls (fst (poll s r)) rest).
Proof.
  simpl. destruct (poll s r) as [s1 o]. simpl.
  destruct (run_polls s1 rest) as [s2 os]. reflexivity.
Qed.

(** The invariant of the polling loop: the close times returned from a state
    on are sorted strictly and all lie beyond the state's last close time. *)
Lemma run_polls_sorted (replies : list candles_reply) :
  forall s : CandleCloseScheduler,
    StronglySorted Z.lt (returned_times (snd (run_polls s replies)))
    /\ forall l, last_candle_close_time_utc s = Some l ->
                 Forall (Z.lt l) (returned_times (snd (run_polls s replies))).
Proof.
  induction replies as [|r rest IH]; intro s.
  - simpl. split; [constructor | intros; constructor].
  - rewrite run_polls_cons, returned_times_cons.
    destruct (poll_cases s r) as [[Hs Hnone] | (c & Hc & Hlast & Hgt)].
    + rewrite Hnone, Hs. simpl. apply IH.
    + rewrite Hc. simpl.
      destruct (IH (fst (poll s r))) as [Hsorted Hbeyond].
      specialize (Hbeyond c Hlast).
      split.
      * constructor; assumption.
      * intros l Hl. constructor; [now apply Hgt |].
        eapply Forall_impl; [exact Hbeyond |].
        intros t Ht. specialize (Hgt l Hl). simpl in *. lia.
Qed.

Lemma closed_bar_index (bars : list Z) (a b c : Z) (t : list Z) :
  rev bars = a :: b :: c :: t ->
  (length bars <? 3)%nat = false /\ nth_error bars (length bars - 2) = Some b.
Proof.
  intro H.
  assert (Hb : bars = (rev t ++ [c; b; a])%list).
  { rewrite <- (rev_involutive bars), H. simpl.
    repeat rewrite <- app_assoc. reflexivity. }
  subst bars. rewrite length_app, length_rev. simpl. split.
  - apply Nat.ltb_ge. lia.
  - rewrite nth_error_app2 by (rewrite length_rev; lia).
    rewrite length_rev.
    replace (length t + 3 - 2 - length t)%nat with 1%nat by lia. reflexivity.
Qed.

(** C3. Over any sequence of [poll] calls, whatever candles the connector
    delivers, the close times returned are strictly increasing: each one is
    greater than every one returned before it (and than the close time the
    scheduler started from).  A single call returns nothing and keeps its
    state when the close time of the last closed bar is not strictly greater
    than the last returned one, and returns that close time when it is. *)
Theorem poll_close_times_strictly_increasing :
  forall (s : CandleCloseScheduler) (replies : list candles_reply),
    StronglySorted Z.lt (returned_times (snd (run_polls s replies)))
    /\ (forall l, last_candle_close_time_utc s = Some l ->
                  Forall (Z.lt l) (returned_times (snd (run_polls s replies))))
    /\ (forall bars c l,
          spec_close_time (timeframe s) bars = Some c ->
          last_candle_close_time_utc s = Some l ->
          c <= l ->
          poll s (Returned (Some bars)) = (s, Returned None))
    /\ (forall bars c,
          spec_close_time (timeframe s) bars = Some c ->
          (forall l, last_candle_close_time_utc s = Some l -> l < c) ->
          poll s (Returned (Some bars))
          = ({| timeframe := timeframe s;
                last_candle_close_time_utc := Some c |}, Returned (Some c))).
Proof.
  intros s replies.
  destruct (run_polls_sorted replies s) as [Hsorted Hbeyond].
  split; [exact Hsorted |]. split; [exact Hbeyond |].
  split.
  - intros bars c l Hspec Hlast Hle.
    unfold spec_close_time in Hspec.
    destruct (rev bars) as [|a [|b [|c0 t]]] eqn:Hrev; try discriminate.
    destruct (closed_bar_index bars a b c0 t Hrev) as [Hlen Hnth].
    unfold poll, timeframe_seconds. rewrite Hlen, Hnth.
    destruct (dict_get TIMEFRAMES (timeframe s)) as [spec|]; [| discriminate].
    injection Hspec as <-. rewrite Hlast. unfold timedelta_seconds.
    destruct (l <? b + seconds spec * 1000000) eqn:Hlt; [| reflexivity].
    apply Z.ltb_lt in Hlt. lia.
  - intros bars c Hspec Hfresh.
    unfold spec_close_time in Hspec.
    destruct (rev bars) as [|a [|b [|c0 t]]] eqn:Hrev; try discriminate.
    destruct (closed_bar_index bars a b c0 t Hrev) as [Hlen Hnth].
    unfold poll, timeframe_seconds. rewrite Hlen, Hnth.
    destruct (dict_get TIMEFRAMES (timeframe s)) as [spec|]; [| discriminate].
    injection Hspec as <-. unfold timedelta_seconds.
    destruct (last_candle_close_time_utc s) as [l|]; [| reflexivity].
    specialize (Hfresh l eq_refl).
    apply Z.ltb_lt in Hfresh. rewrite Hfresh. reflexivity.
Qed.

(** The theorem at work: an hourly scheduler that last returned 08:00 is
    polled five times (times in seconds times 1e6 since midnight). *)
Lemma poll_close_times_witness :
  returned_times
    (snd (run_polls
            {| timeframe := "H1"; last_candle_close_time_utc := Some 28800000000 |}
            [ Returned (Some [21600000000; 25200000000; 28800000000]);
              Returned (Some [25200000000; 28800000000; 32400000000]);
              Returned (Some [25200000000; 28800000000]);
              Returned (Some [25200000000; 28800000000; 32400000000]);
              Returned (Some [28800000000; 32400000000; 36000000000]) ]))
  = [32400000000; 36000000000]
  /\ StronglySorted Z.lt [32400000000; 36000000000].
Proof.
  split; [reflexivity |].
  exact (proj1 (poll_close_times_strictly_increasing
                  {| timeframe := "H1";
                     last_candle_close_time_utc := Some 28800000000 |}
                  [ Returned (Some [21600000000; 25200000000; 28800000000]);
                    Returned (Some [25200000000; 28800000000; 32400000000]);
                    Returned (Some [25200000000; 28800000000]);
                    Returned (Some [25200000000; 28800000000; 32400000000]);
                    Returned (Some [28800000000; 32400000000; 36000000000]) ])).
Defined.

End SchedulerProps.

(** ** Facts about the rational model of floats *)

Module NumProps.
Import Num.
Local Open Scope Q_scope.

Lemma Qlt_bool_true (a b : Q) : Qlt_bool a b = true <-> a < b.
Proof.
  unfold Qlt_bool. rewrite negb_true_iff.
  split; intro H.
  - apply Qnot_le_lt. intro Hle. apply Qle_bool_iff in Hle. congruence.
  - destruct (Qle_bool b a) eqn:E; [| reflexivity].
    apply Qle_bool_iff in E. exfalso. eapply Qlt_not_le; eassumption.
Qed.

Lemma Qlt_bool_false (a b : Q) : Qlt_bool a b = false <-> b <= a.
Proof.
  unfold Qlt_bool. rewrite negb_false_iff. apply Qle_bool_iff.
Qed.

Lemma Qle_bool_false (a b : Q) : Qle_bool a b = false <-> b < a.
Proof.
  split; intro H.
  - apply Qnot_le_lt. intro Hle. apply Qle_bool_iff in Hle. congruence.
  - destruct (Qle_bool a b) eqn:E; [| reflexivity].
    apply Qle_bool_iff in E. exfalso. eapply Qlt_not_le; eassumption.
Qed.

Lemma py_max_ge_l (a b : Q) : a <= py_max a b.
Proof.
  unfold py_max. destruct (Qlt_bool a b) eqn:E.
  - apply Qlt_bool_true in E. now apply Qlt_le_weak.
  - apply Qle_refl.
Qed.

Lemma py_max_ge_r (a b : Q) : b <= py_max a b.
Proof.
  unfold py_max. destruct (Qlt_bool a b) eqn:E.
  - apply Qle_refl.
  - now apply Qlt_bool_false in E.
Qed.

Lemma py_min_le_l (a b : Q) : py_min a b <= a.
Proof.
  unfold py_min. destruct (Qlt_bool b a) eqn:E.
  - apply Qlt_bool_true in E. now apply Qlt_le_weak.
  - apply Qle_refl.
Qed.


Lemma truthy_positive (q : Q) : 0 < q -> truthy (Some q) = true.
Proof.
  intro H. simpl. apply negb_true_iff.
  destruct (Qeq_bool q 0) eqn:E; [| reflexivity].
  apply Qeq_bool_iff in E. rewrite E in H. exfalso. eapply Qlt_irrefl; eassumption.
Qed.

(** Rounding down to a step never rounds up and lands on a whole number of
    steps. *)
Lemma floor_to_step_le (v s : Q) : 0 < s -> floor_to_step v s <= v.
Proof.
  intro Hs. unfold floor_to_step.
  assert (H : inject_Z (Qfloor (v / s)) <= v / s) by apply Qfloor_le.
  apply (Qmult_le_compat_r _ _ s) in H; [| now apply Qlt_le_weak].
  eapply Qle_trans; [exact H |].
  assert (E : v / s * s == v).
  { field. intro E0. rewrite E0 in Hs. eapply Qlt_irrefl; eassumption. }
  rewrite E. apply Qle_refl.
Qed.

End NumProps.

(** ** Positions and deals of another magic number *)

Module MagicProps.
Import Connector Num Config Limits Risk Examples.

Lemma other_magic_differs (m pm : Z) :
  pm <> m -> other_magic (Some m) (Some pm) = true.
Proof.
  intro H. simpl. apply negb_true_iff. now apply Z.eqb_neq.
Qed.

Lemma count_step_other (m pm : Z) (acc : PositionCounts) (p : Position) :
  pm <> m -> pos_magic p = Some pm -> count_step (Some m) acc p = acc.
Proof.
  intros H Hp. unfold count_step. rewrite Hp, other_magic_differs; auto.
Qed.

Lemma on_deal_other (cfg : AppConfig) (m pm now : Z) (st : RiskState) (d : Deal) :
  pm <> m -> deal_magic d = Some pm -> on_deal cfg m now st d = st.
Proof.
  intros H Hd. unfold on_deal. rewrite Hd, other_magic_differs; auto.
Qed.

Lemma on_new_deals_from_other (cfg : AppConfig) (m : Z) (clock : nat -> Z)
  (deals : list Deal) :
  Forall (fun d => exists pm, pm <> m /\ deal_magic d = Some pm) deals ->
  forall (i : nat) (st : RiskState),
    on_new_deals_from cfg i clock m deals st = st.
Proof.
  induction 1 as [|d rest (pm & Hne & Hd) _ IH]; intros i st; simpl.
  - reflexivity.
  - rewrite (on_deal_other cfg m pm _ st d Hne Hd). apply IH.
Qed.

(** C4, as stated, fails for a missing magic number: a position whose magic
    is [None] is counted in the total and under its symbol, and a losing
    closing deal whose magic is [None] raises the loss streak (here from 2
    to 3, which also starts the cooloff). *)
Lemma missing_magic_is_not_ignored :
  pos_magic (position_with_magic "EURUSD" None) <> Some 26012026
  /\ total (count_positions [position_with_magic "EURUSD" None] (Some 26012026)) = 1
  /\ per_symbol (count_positions [position_with_magic "EURUSD" None] (Some 26012026))
       !! "EURUSD" = Some 1
  /\ deal_magic (losing_deal None) <> Some 26012026
  /\ loss_streak
       (on_new_deals default_config (fun _ => 1000) [losing_deal None] 26012026
          {| paused := false; pause_reason := None; cooloff_until_utc := None;
             loss_streak := 2; daily_date := Some "2026-01-01";
             daily_start_equity := Some 1000%Q; peak_equity := Some 1000%Q |})
     = 3
  /\ cooloff_until_utc
       (on_new_deals default_config (fun _ => 1000) [losing_deal None] 26012026
          {| paused := false; pause_reason := None; cooloff_until_utc := None;
             loss_streak := 2; daily_date := Some "2026-01-01";
             daily_start_equity := Some 1000%Q; peak_equity := Some 1000%Q |})
     = Some (1000 + 120 * 60 * 1000000).
Proof.
  repeat split; try discriminate; vm_compute; reflexivity.
Qed.

(** C4, amended. A position or deal that carries a magic number different
    from the configured one is ignored: wherever such a position stands in
    the list, [count_positions] returns the same total and the same
    per-symbol counts as without it, and [on_new_deals] leaves the whole risk
    state, [loss_streak] and [cooloff_until_utc] included, as it was.  A
    position without a magic number is counted as one of the bot's own. *)
Theorem other_magic_is_ignored :
  forall (m pm : Z),
    pm <> m ->
    (forall (before after : list Position) (p : Position),
        pos_magic p = Some pm ->
        count_positions (before ++ p :: after) (Some m)
        = count_positions (before ++ after) (Some m))
    /\ (forall (cfg : AppConfig) (now : Z) (st : RiskState) (d : Deal),
          deal_magic d = Some pm -> on_deal cfg m now st d = st)
    /\ (forall (cfg : AppConfig) (clock : nat -> Z) (deals : list Deal)
               (st : RiskState),
          Forall (fun d => exists pm', pm' <> m /\ deal_magic d = Some pm') deals ->
          on_new_deals cfg clock deals m st = st
          /\ loss_streak (on_new_deals cfg clock deals m st) = loss_streak st
          /\ cooloff_until_utc (on_new_deals cfg clock deals m st)
             = cooloff_until_utc st)
    /\ (forall (ps : list Position) (p : Position),
          pos_magic p = None ->
          total (count_positions (ps ++ [p]) (Some m))
          = total (count_positions ps (Some m)) + 1).
Proof.
  intros m pm Hne. repeat split.
  - intros before after p Hp. unfold count_positions.
    rewrite !fold_left_app. simpl.
    now rewrite (count_step_other m pm _ p Hne Hp).
  - intros cfg now st d Hd. now apply (on_deal_other cfg m pm).
  - unfold on_new_deals. now apply on_new_deals_from_other.
  - unfold on_new_deals. now rewrite on_new_deals_from_other.
  - unfold on_new_deals. now rewrite on_new_deals_from_other.
  - intros ps p Hp. unfold count_positions. rewrite fold_left_app. simpl.
    unfold count_step at 1. rewrite Hp. reflexivity.
Qed.

(** The amended statement at work: a manual position (magic 0) next to one of
    the bot's is not counted, and a manual losing deal leaves the streak. *)
Lemma other_magic_is_ignored_witness :
  0 <> 26012026
  /\ total (count_positions
              [position_with_magic "EURUSD" (Some 0);
               position_with_magic "EURUSD" (Some 26012026)] (Some 26012026))
     = 1
  /\ loss_streak
       (on_new_deals default_config (fun _ => 1000) [losing_deal (Some 0)]
          26012026 fresh_state) = 0.
Proof.
  assert (H : 0 <> 26012026) by discriminate.
  destruct (other_magic_is_ignored 26012026 0 H) as (Hcount & _ & Hdeals & _).
  split; [exact H |]. split.
  - pose proof (Hcount [] [position_with_magic "EURUSD" (Some 26012026)]
                  (position_with_magic "EURUSD" (Some 0)) eq_refl) as E.
    cbn [app] in E. rewrite E. reflexivity.
  - destruct (Hdeals default_config (fun _ => 1000) [losing_deal (Some 0)]
                fresh_state) as (_ & Hstreak & _).
    + constructor; [| constructor]. exists 0. split; [exact H | reflexivity].
    + rewrite Hstreak. reflexivity.
Defined.

End MagicProps.

(** ** The risk manager: pause gates, peak equity, entry checks *)

Module RiskProps.
Import Connector Num Config Limits Format Risk RiskSpec Examples NumProps.

Lemma breachedb_iff (pct : option Q) (limit : Q) :
  breachedb pct limit = true <-> breached pct limit.
Proof.
  unfold breachedb, breached. destruct pct as [v|].
  - rewrite Qle_bool_iff. split.
    + intro H. exists v. auto.
    + intros (w & Hw & Hle). injection Hw as ->. exact Hle.
  - split; [discriminate | intros (w & Hw & _); discriminate].
Qed.

Lemma cooling_offb_iff (now : Z) (until : option Z) :
  cooling_offb now until = true <-> cooling_off now until.
Proof.
  unfold cooling_offb, cooling_off. destruct until as [u|].
  - rewrite Z.ltb_lt. split.
    + intro H. exists u. auto.
    + intros (w & Hw & Hlt). injection Hw as ->. exact Hlt.
  - split; [discriminate | intros (w & Hw & _); discriminate].
Qed.

Section Gates.

Variable F : Renderer.
Variable cfg : AppConfig.

Ltac split_gates dl dd cool now :=
  unfold gates, breachedb, cooling_offb;
  destruct cool as [?u|]; [destruct (now <? u) |];
  (destruct dd as [?d|];
   [destruct (Qle_bool (max_drawdown_pct (risk cfg)) d) |]);
  (destruct dl as [?l|];
   [destruct (Qle_bool (max_daily_loss_pct (risk cfg)) l) |]);
  reflexivity.

Lemma gates_fst (dl dd : option Q) (cool : option Z) (now : Z) :
  fst (gates F cfg dl dd cool now)
  = breachedb dl (max_daily_loss_pct (risk cfg))
    || breachedb dd (max_drawdown_pct (risk cfg))
    || cooling_offb now cool.
Proof. split_gates dl dd cool now. Qed.

(** The reason recorded is that of the last gate that fired. *)
Lemma gates_snd (dl dd : option Q) (cool : option Z) (now : Z) :
  snd (gates F cfg dl dd cool now)
  = if cooling_offb now cool then
      option_map (fun u => "cooloff until " ++ isoformat F u)%string cool
    else if breachedb dd (max_drawdown_pct (risk cfg)) then
      option_map
        (fun d => "max drawdown breached (" ++ pct2 F d ++ " >= "
                  ++ pct2 F (max_drawdown_pct (risk cfg)) ++ ")")%string dd
    else if breachedb dl (max_daily_loss_pct (risk cfg)) then
      option_map
        (fun l => "max daily loss breached (" ++ pct2 F l ++ " >= "
                  ++ pct2 F (max_daily_loss_pct (risk cfg)) ++ ")")%string dl
    else None.
Proof. split_gates dl dd cool now. Qed.

Lemma gates_paused (dl dd : option Q) (cool : option Z) (now : Z) :
  fst (gates F cfg dl dd cool now) = true
  <-> breached dl (max_daily_loss_pct (risk cfg))
      \/ breached dd (max_drawdown_pct (risk cfg))
      \/ cooling_off now cool.
Proof.
  rewrite gates_fst, !orb_true_iff, !breachedb_iff, cooling_offb_iff. tauto.
Qed.

(** What [update_equity_state] stores and reports is the verdict of the
    gates on the percentages and the cooloff it has just computed. *)
Lemma paused_view (account : option AccountInfo) (date : string) (now : Z)
  (st : RiskState) :
  paused (fst (update_equity_state F cfg account date now st))
  = fst (gates F cfg
           (rep_daily_loss_pct (snd (update_equity_state F cfg account date now st)))
           (rep_drawdown_pct (snd (update_equity_state F cfg account date now st)))
           (cooloff_until_utc (fst (update_equity_state F cfg account date now st)))
           now).
Proof. reflexivity. Qed.

Lemma reason_view (account : option AccountInfo) (date : string) (now : Z)
  (st : RiskState) :
  pause_reason (fst (update_equity_state F cfg account date now st))
  = snd (gates F cfg
           (rep_daily_loss_pct (snd (update_equity_state F cfg account date now st)))
           (rep_drawdown_pct (snd (update_equity_state F cfg account date now st)))
           (cooloff_until_utc (fst (update_equity_state F cfg account date now st)))
           now).
Proof. reflexivity. Qed.

Lemma peak_view (account : option AccountInfo) (date : string) (now : Z)
  (st : RiskState) :
  peak_equity (fst (update_equity_state F cfg account date now st))
  = match account_equity account with
    | Some e =>
        if Qlt_bool 0 e then
          match peak_equity st with
          | None => Some e
          | Some p => if Qlt_bool p e then Some e else Some p
          end
        else peak_equity st
    | None => peak_equity st
    end.
Proof. reflexivity. Qed.

Local Open Scope Q_scope.

Lemma daily_loss_pct_self (e : Q) : daily_loss_pct e e == 0.
Proof.
  unfold daily_loss_pct. destruct (Qle_bool e 0) eqn:E; [reflexivity |].
  apply Qle_bool_false in E.
  assert (Hz : (e - e) / e == 0).
  { field. intro H0. rewrite H0 in E. eapply Qlt_irrefl; eassumption. }
  unfold py_max. destruct (Qlt_bool 0 ((e - e) / e)) eqn:E2; [exact Hz | reflexivity].
Qed.

Lemma drawdown_pct_self (e : Q) : drawdown_pct e e == 0.
Proof. exact (daily_loss_pct_self e). Qed.

(** The first update of a fresh manager with a positive equity. *)
Lemma first_update (a : AccountInfo) (e : Q) (date : string) (now : Z) :
  equity a = Some e -> 0 < e ->
  fst (update_equity_state F cfg (Some a) date now fresh_state)
  = {| paused :=
         fst (gates F cfg (Some (daily_loss_pct e e)) (Some (drawdown_pct e e))
                None now);
       pause_reason :=
         snd (gates F cfg (Some (daily_loss_pct e e)) (Some (drawdown_pct e e))
                None now);
       cooloff_until_utc := None; loss_streak := 0%Z; daily_date := Some date;
       daily_start_equity := Some e; peak_equity := Some e |}.
Proof.
  intros He Hpos.
  unfold update_equity_state, account_equity, account_balance, fresh_state, gates.
  rewrite He.
  cbn -[Qle_bool Qlt_bool daily_loss_pct drawdown_pct truthy Qeq_bool].
  rewrite (proj2 (Qlt_bool_true 0 e) Hpos).
  cbn -[Qle_bool Qlt_bool daily_loss_pct drawdown_pct truthy Qeq_bool].
  rewrite (truthy_positive e Hpos). reflexivity.
Qed.

(** The daily loss an update computes on the day the start equity was set. *)
Lemma same_day_loss (a : AccountInfo) (e s : Q) (date : string) (now : Z)
  (st : RiskState) :
  equity a = Some e -> daily_date st = Some date ->
  daily_start_equity st = Some s -> 0 < s ->
  rep_daily_loss_pct (snd (update_equity_state F cfg (Some a) date now st))
  = Some (daily_loss_pct s e).
Proof.
  intros He Hd Hs Hpos.
  unfold update_equity_state, account_equity. rewrite He, Hd, Hs.
  rewrite String.eqb_refl.
  cbn -[Qle_bool Qlt_bool daily_loss_pct drawdown_pct truthy Qeq_bool].
  rewrite (truthy_positive s Hpos). reflexivity.
Qed.

(** C5. After every call of [update_equity_state] the paused flag is true
    exactly when the daily loss it computed has reached [max_daily_loss_pct],
    or the drawdown it computed has reached [max_drawdown_pct], or the clock
    reads before [cooloff_until_utc]; the result dictionary carries the same
    flag and reason; the reason names the gate that fired (the cooloff before
    the drawdown before the daily loss) and is [None] when none did.  In
    particular, with positive limits, a fresh manager that sees equity 1000
    is not paused, and is paused once the equity of the same local date is
    [1000 * (1 - max_daily_loss_pct - 0.01)]. *)
Theorem update_equity_state_pauses_iff_breach :
  (forall (account : option AccountInfo) (date : string) (now : Z)
          (st st' : RiskState) (rep : EquityReport),
      update_equity_state F cfg account date now st = (st', rep) ->
      (paused st' = true
       <-> breached (rep_daily_loss_pct rep) (max_daily_loss_pct (risk cfg))
           \/ breached (rep_drawdown_pct rep) (max_drawdown_pct (risk cfg))
           \/ cooling_off now (cooloff_until_utc st'))
      /\ rep_paused rep = paused st'
      /\ rep_pause_reason rep = pause_reason st'
      /\ rep_daily_loss_pct rep
         = match account_equity account, daily_start_equity st' with
           | Some e, Some s =>
               if truthy (Some s) then Some (daily_loss_pct s e) else None
           | _, _ => None
           end
      /\ rep_drawdown_pct rep
         = match account_equity account, peak_equity st' with
           | Some e, Some p =>
               if truthy (Some p) then Some (drawdown_pct p e) else None
           | _, _ => None
           end
      /\ (paused st' = false -> pause_reason st' = None)
      /\ (forall u, cooloff_until_utc st' = Some u -> (now < u)%Z ->
            pause_reason st' = Some ("cooloff until " ++ isoformat F u)%string)
      /\ (forall d, ~ cooling_off now (cooloff_until_utc st') ->
            rep_drawdown_pct rep = Some d -> max_drawdown_pct (risk cfg) <= d ->
            pause_reason st'
            = Some ("max drawdown breached (" ++ pct2 F d ++ " >= "
                    ++ pct2 F (max_drawdown_pct (risk cfg)) ++ ")")%string)
      /\ (forall l, ~ cooling_off now (cooloff_until_utc st') ->
            ~ breached (rep_drawdown_pct rep) (max_drawdown_pct (risk cfg)) ->
            rep_daily_loss_pct rep = Some l ->
            max_daily_loss_pct (risk cfg) <= l ->
            pause_reason st'
            = Some ("max daily loss breached (" ++ pct2 F l ++ " >= "
                    ++ pct2 F (max_daily_loss_pct (risk cfg)) ++ ")")%string))
  /\ (0 < max_daily_loss_pct (risk cfg) -> 0 < max_drawdown_pct (risk cfg) ->
      forall (a1 a2 : AccountInfo) (date : string) (now1 now2 : Z),
        equity a1 = Some 1000 ->
        equity a2 = Some (1000 * (1 - max_daily_loss_pct (risk cfg) - (1 # 100))) ->
        paused (fst (update_equity_state F cfg (Some a1) date now1 fresh_state))
        = false
        /\ paused
             (fst (update_equity_state F cfg (Some a2) date now2
                     (fst (update_equity_state F cfg (Some a1) date now1
                             fresh_state))))
           = true).
Proof.
  split.
  - intros account date now st st' rep H.
    assert (Hst : st' = fst (update_equity_state F cfg account date now st))
      by (rewrite H; reflexivity).
    assert (Hrep : rep = snd (update_equity_state F cfg account date now st))
      by (rewrite H; reflexivity).
    clear H.
    assert (Hp : paused st'
                 = fst (gates F cfg (rep_daily_loss_pct rep)
                          (rep_drawdown_pct rep) (cooloff_until_utc st') now))
      by (subst; apply paused_view).
    assert (Hr : pause_reason st'
                 = snd (gates F cfg (rep_daily_loss_pct rep)
                          (rep_drawdown_pct rep) (cooloff_until_utc st') now))
      by (subst; apply reason_view).
    split; [rewrite Hp; apply gates_paused |].
    split; [subst; reflexivity |].
    split; [subst; reflexivity |].
    split.
    { subst. unfold update_equity_state. cbn -[truthy daily_loss_pct].
      destruct (account_equity account); [| reflexivity].
      match goal with |- context [truthy ?x] => destruct x; reflexivity end. }
    split.
    { subst. unfold update_equity_state. cbn -[truthy drawdown_pct Qlt_bool].
      destruct (account_equity account) as [e|]; [| reflexivity].
      match goal with |- context [truthy ?x] => destruct x; reflexivity end. }
    rewrite Hr, Hp, gates_snd, gates_fst.
    split.
    { intro Hf. apply orb_false_iff in Hf as [Hf Hc].
      apply orb_false_iff in Hf as [Hl Hd]. now rewrite Hc, Hd, Hl. }
    split.
    { intros u Hu Hlt. rewrite Hu. simpl.
      now rewrite (proj2 (Z.ltb_lt now u) Hlt). }
    split.
    { intros d Hnc Hd Hle.
      destruct (cooling_offb now (cooloff_until_utc st')) eqn:Hc.
      - apply cooling_offb_iff in Hc. contradiction.
      - rewrite Hd. simpl. now rewrite (proj2 (Qle_bool_iff _ _) Hle). }
    { intros l Hnc Hnd Hl Hle.
      destruct (cooling_offb now (cooloff_until_utc st')) eqn:Hc.
      - apply cooling_offb_iff in Hc. contradiction.
      - destruct (breachedb (rep_drawdown_pct rep) (max_drawdown_pct (risk cfg)))
          eqn:Hd.
        + apply breachedb_iff in Hd. contradiction.
        + rewrite Hl. simpl. now rewrite (proj2 (Qle_bool_iff _ _) Hle). }
  - intros Hdl Hdd a1 a2 date now1 now2 H1 H2.
    assert (Hpos : 0 < 1000) by reflexivity.
    rewrite (first_update a1 1000 date now1 H1 Hpos).
    split.
    + cbn [paused]. rewrite gates_fst. unfold breachedb, cooling_offb.
      rewrite orb_false_r. apply orb_false_iff. split.
      * apply Qle_bool_false. rewrite daily_loss_pct_self. exact Hdl.
      * apply Qle_bool_false. rewrite drawdown_pct_self. exact Hdd.
    + rewrite paused_view. apply gates_paused. left.
      erewrite (same_day_loss a2 _ 1000 date now2);
        [| exact H2 | reflexivity | reflexivity | exact Hpos].
      eexists. split; [reflexivity |].
      unfold daily_loss_pct.
      replace (Qle_bool 1000 0) with false by reflexivity.
      eapply Qle_trans; [| apply py_max_ge_r].
      assert (E : (1000 - 1000 * (1 - max_daily_loss_pct (risk cfg) - (1 # 100)))
                  / 1000 == max_daily_loss_pct (risk cfg) + (1 # 100)) by field.
      rewrite E.
      rewrite <- (Qplus_0_r (max_daily_loss_pct (risk cfg))) at 1.
      apply Qplus_le_r. discriminate.
Qed.

(** One update never lowers a peak that is set. *)
Lemma peak_step_mono (account : option AccountInfo) (date : string) (now : Z)
  (st : RiskState) (p : Q) :
  peak_equity st = Some p ->
  exists p', peak_equity (fst (update_equity_state F cfg account date now st))
             = Some p' /\ p <= p'.
Proof.
  intro Hp. rewrite peak_view, Hp.
  destruct (account_equity account) as [e|].
  - destruct (Qlt_bool 0 e).
    + destruct (Qlt_bool p e) eqn:E.
      * exists e. split; [reflexivity |].
        apply Qlt_le_weak. now apply Qlt_bool_true.
      * exists p. split; [reflexivity | apply Qle_refl].
    + exists p. split; [reflexivity | apply Qle_refl].
  - exists p. split; [reflexivity | apply Qle_refl].
Qed.

(** One update lifts the peak to a positive equity it is shown. *)
Lemma peak_step_covers (account : option AccountInfo) (date : string) (now : Z)
  (st : RiskState) (e : Q) :
  account_equity account = Some e -> 0 < e ->
  exists p', peak_equity (fst (update_equity_state F cfg account date now st))
             = Some p' /\ e <= p'.
Proof.
  intros He Hpos. rewrite peak_view, He.
  rewrite (proj2 (Qlt_bool_true 0 e) Hpos).
  destruct (peak_equity st) as [p|].
  - destruct (Qlt_bool p e) eqn:E.
    + exists e. split; [reflexivity | apply Qle_refl].
    + exists p. split; [reflexivity |]. now apply Qlt_bool_false.
  - exists e. split; [reflexivity | apply Qle_refl].
Qed.

Lemma peak_step_tracked (account : option AccountInfo) (date : string) (now : Z)
  (st : RiskState) :
  peak_tracked st ->
  peak_tracked (fst (update_equity_state F cfg account date now st)).
Proof.
  unfold peak_tracked. rewrite peak_view.
  destruct (account_equity account) as [e|]; [| auto].
  destruct (Qlt_bool 0 e) eqn:Hpos; [| auto].
  apply Qlt_bool_true in Hpos.
  destruct (peak_equity st) as [p|]; [| auto].
  destruct (Qlt_bool p e); auto.
Qed.

Lemma run_equity_updates_app (u1 u2 : list (option AccountInfo * string * Z))
  (st : RiskState) :
  run_equity_updates F cfg (u1 ++ u2) st
  = run_equity_updates F cfg u2 (run_equity_updates F cfg u1 st).
Proof.
  revert st. induction u1 as [|[[account date] now] rest IH]; intro st; simpl.
  - reflexivity.
  - apply IH.
Qed.

Lemma peak_run_mono (updates : list (option AccountInfo * string * Z)) :
  forall (st : RiskState) (p : Q),
    peak_equity st = Some p ->
    exists p', peak_equity (run_equity_updates F cfg updates st) = Some p'
               /\ p <= p'.
Proof.
  induction updates as [|[[account date] now] rest IH]; intros st p Hp; simpl.
  - exists p. split; [exact Hp | apply Qle_refl].
  - destruct (peak_step_mono account date now st p Hp) as (p1 & Hp1 & Hle1).
    destruct (IH _ p1 Hp1) as (p2 & Hp2 & Hle2).
    exists p2. split; [exact Hp2 | eapply Qle_trans; eassumption].
Qed.

Lemma peak_run_tracked (updates : list (option AccountInfo * string * Z)) :
  forall st : RiskState,
    peak_tracked st -> peak_tracked (run_equity_updates F cfg updates st).
Proof.
  induction updates as [|[[account date] now] rest IH]; intros st H; simpl.
  - exact H.
  - apply IH. now apply peak_step_tracked.
Qed.

Lemma peak_run_covers (updates : list (option AccountInfo * string * Z)) :
  forall (st : RiskState) (e : Q),
    In e (observed_equities updates) -> 0 < e ->
    exists p', peak_equity (run_equity_updates F cfg updates st) = Some p'
               /\ e <= p'.
Proof.
  induction updates as [|[[account date] now] rest IH]; intros st e Hin Hpos.
  - destruct Hin.
  - simpl in Hin. simpl run_equity_updates.
    destruct account as [a|]; [| now apply IH].
    destruct (equity a) as [e0|] eqn:He0; [| now apply IH].
    destruct Hin as [<- | Hin]; [| now apply IH].
    destruct (peak_step_covers (Some a) date now st e0 He0 Hpos)
      as (p1 & Hp1 & Hle1).
    destruct (peak_run_mono rest _ p1 Hp1) as (p2 & Hp2 & Hle2).
    exists p2. split; [exact Hp2 | eapply Qle_trans; eassumption].
Qed.

(** C8, amended. Over every sequence of [update_equity_state] calls a peak
    that is set never decreases (between any two points of the sequence), and
    after the sequence it is set and at least every positive equity value
    observed.  An equity that is zero or negative is not tracked: it leaves
    the peak as it was, so it is below the peak only once a peak is set, which
    a manager that started from [RiskState()] or from a stored peak (unset or
    positive) guarantees as soon as one positive equity has been seen. *)
Theorem peak_equity_is_monotone :
  forall (u1 u2 : list (option AccountInfo * string * Z)) (st : RiskState),
    (forall p, peak_equity (run_equity_updates F cfg u1 st) = Some p ->
       exists p', peak_equity (run_equity_updates F cfg (u1 ++ u2) st) = Some p'
                  /\ p <= p')
    /\ (forall e, In e (observed_equities (u1 ++ u2)) -> 0 < e ->
          exists p', peak_equity (run_equity_updates F cfg (u1 ++ u2) st) = Some p'
                     /\ e <= p')
    /\ (peak_tracked st ->
        forall e p', In e (observed_equities (u1 ++ u2)) ->
          peak_equity (run_equity_updates F cfg (u1 ++ u2) st) = Some p' ->
          e <= p').
Proof.
  intros u1 u2 st. split; [| split].
  - intros p Hp. rewrite run_equity_updates_app. now apply peak_run_mono.
  - intros e Hin Hpos. now apply peak_run_covers.
  - intros Htracked e p' Hin Hp'.
    destruct (Qlt_le_dec 0 e) as [Hpos | Hneg].
    + destruct (peak_run_covers (u1 ++ u2) st e Hin Hpos) as (p2 & Hp2 & Hle).
      rewrite Hp' in Hp2. injection Hp2 as <-. exact Hle.
    + pose proof (peak_run_tracked (u1 ++ u2) st Htracked) as Ht.
      unfold peak_tracked in Ht. rewrite Hp' in Ht.
      eapply Qle_trans; [exact Hneg | now apply Qlt_le_weak].
Qed.

(** C10. Whatever the state, the quote, the symbol, the features, the open
    positions and the account, [check_entry] for a side that is neither LONG
    nor SHORT returns a decision that is not allowed, with the reason "side is
    not entry", the side it was given and nothing else, and it has run none of
    the helpers: no position count, no SL/TP, no sizing. *)
Theorem check_entry_rejects_non_entry_side :
  forall (st : RiskState) (symbol : string) (side : Side) (quote : Quote)
         (symbol_meta : SymbolMeta) (features : gmap string Q)
         (positions : list Position) (account : option AccountInfo),
    side <> LONG -> side <> SHORT ->
    check_entry F cfg st symbol side quote symbol_meta features positions account
    = ({| allowed := false; decision_reason := "side is not entry";
          decision_side := side; decision_volume := None;
          decision_sl := None; decision_tp := None; details := [] |}, []).
Proof.
  intros st symbol side quote symbol_meta features positions account Hl Hs.
  destruct side; [contradiction | contradiction | reflexivity].
Qed.

End Gates.

(** The daily-loss scenario on the default configuration: 1000, then 970. *)
Lemma update_equity_state_pauses_witness :
  paused (fst (update_equity_state terse default_config
                 (Some (account DEMO (Some 1000%Q))) "2026-01-01" 0 fresh_state))
  = false
  /\ paused
       (fst (update_equity_state terse default_config
               (Some (account DEMO
                        (Some (1000 * (1 - max_daily_loss_pct (risk default_config)
                                       - (1 # 100)))%Q)))
               "2026-01-01" 3600
               (fst (update_equity_state terse default_config
                       (Some (account DEMO (Some 1000%Q))) "2026-01-01" 0
                       fresh_state))))
    = true.
Proof.
  apply (proj2 (update_equity_state_pauses_iff_breach terse default_config));
    reflexivity.
Defined.

(** C8, as stated, fails when the only equity seen is not positive: a fresh
    manager that is shown an equity of zero has observed the value 0 and still
    has no peak at all, so no peak that is at least 0. *)
Lemma peak_equity_unset_after_zero_equity :
  observed_equities [(Some (account DEMO (Some 0%Q)), "2026-01-01", 0)] = [0%Q]
  /\ peak_equity
       (run_equity_updates terse default_config
          [(Some (account DEMO (Some 0%Q)), "2026-01-01", 0)] fresh_state)
     = None
  /\ ~ exists p,
         peak_equity
           (run_equity_updates terse default_config
              [(Some (account DEMO (Some 0%Q)), "2026-01-01", 0)] fresh_state)
         = Some p /\ (0 <= p)%Q.
Proof.
  split; [reflexivity |]. split; [reflexivity |].
  intros (p & Hp & _). discriminate Hp.
Qed.

(** The amended statement at work: equities 1000, 0, 1200, 900 from a fresh
    manager leave the peak at 1200, above each of them. *)
Lemma peak_equity_is_monotone_witness :
  peak_tracked fresh_state
  /\ peak_equity
       (run_equity_updates terse default_config
          ([(Some (account DEMO (Some 1000%Q)), "2026-01-01", 0);
            (Some (account DEMO (Some 0%Q)), "2026-01-01", 1)]
           ++ [(Some (account DEMO (Some 1200%Q)), "2026-01-02", 2);
               (Some (account DEMO (Some 900%Q)), "2026-01-02", 3)])
          fresh_state)
     = Some 1200%Q
  /\ (0 <= 1200)%Q.
Proof.
  split; [exact I |]. split; [reflexivity |].
  refine (proj2 (proj2 (peak_equity_is_monotone terse default_config
                          [(Some (account DEMO (Some 1000%Q)), "2026-01-01", 0);
                           (Some (account DEMO (Some 0%Q)), "2026-01-01", 1)]
                          [(Some (account DEMO (Some 1200%Q)), "2026-01-02", 2);
                           (Some (account DEMO (Some 900%Q)), "2026-01-02", 3)]
                          fresh_state)) I 0%Q 1200%Q _ _).
  - simpl. right. left. reflexivity.
  - reflexivity.
Defined.

(** A flat signal on the default configuration. *)
Lemma check_entry_rejects_flat_witness :
  FLAT <> LONG /\ FLAT <> SHORT
  /\ fst (check_entry terse default_config fresh_state "EURUSD" FLAT
            {| quote_symbol := "EURUSD"; bid := 1%Q; ask := (10002 # 10000)%Q;
               quote_time_utc := 0; quote_spread_points := 20%Q |}
            {| name := "EURUSD"; digits := Some 5; point := Some (1 # 100000)%Q;
               trade_allowed := Some true; spread_points := Some 10%Q;
               trade_stops_level := Some 0;
               volume_min := Some (1 # 100)%Q; volume_max := Some 100%Q;
               volume_step := Some (1 # 100)%Q;
               trade_tick_value := Some 1%Q;
               trade_tick_size := Some (1 # 100000)%Q;
               trade_contract_size := Some 100000%Q |}
            ∅ [position_with_magic "EURUSD" (Some 26012026)]
            (Some (account DEMO (Some 1000%Q))))
     = {| allowed := false; decision_reason := "side is not entry";
          decision_side := FLAT; decision_volume := None;
          decision_sl := None; decision_tp := None; details := [] |}.
Proof.
  assert (Hl : FLAT <> LONG) by discriminate.
  assert (Hs : FLAT <> SHORT) by discriminate.
  split; [exact Hl |]. split; [exact Hs |].
  rewrite (check_entry_rejects_non_entry_side terse default_config fresh_state
             "EURUSD" FLAT _ _ ∅ _ _ Hl Hs).
  reflexivity.
Defined.

End RiskProps.

(** ** Rounding to floats *)

Module Float64Props.
Import Float64.
Local Open Scope Q_scope.







Lemma no_rounding_accurate (x : Q) : accurate_at 0 no_rounding x.
Proof.
  unfold accurate_at, no_rounding.
  assert (E : x - x == 0) by ring. rewrite E, Qmult_0_l.
  change (Qabs 0) with 0. apply Qle_refl.
Qed.

End Float64Props.

(** ** Position sizing *)

Module SizingProps.
Import Connector Num Float64 Sizing Examples NumProps Float64Props.
Local Open Scope Q_scope.

(** A successful sizing returns the clamped, rounded and floor-clamped raw
    volume. *)
Lemma compute_volume_sized (equity risk_per_trade stop_points : Q)
  (symbol : SymbolMeta) (vmin vmax vstep v : Q) :
  volume_min symbol = Some vmin -> volume_max symbol = Some vmax ->
  volume_step symbol = Some vstep ->
  0 < vmin -> 0 < vmax -> 0 < vstep ->
  volume (compute_volume equity risk_per_trade stop_points symbol) = Some v ->
  v = sized (raw_volume equity risk_per_trade stop_points symbol) vmin vmax vstep
  /\ compute_volume equity risk_per_trade stop_points symbol
     = {| ok := true; volume := Some v; reason := "risk sized" |}.
Proof.
  intros Hmin Hmax Hstep Pmin Pmax Pstep H.
  unfold compute_volume in *.
  rewrite Hmin, Hmax, Hstep in *.
  rewrite (truthy_positive vmax Pmax) in *.
  cbn [or_zero] in *.
  rewrite (proj2 (Qlt_bool_true 0 vmin) Pmin),
    (proj2 (Qlt_bool_true 0 vmax) Pmax),
    (proj2 (Qlt_bool_true 0 vstep) Pstep) in *.
  unfold _round_down_to_step in *.
  rewrite (proj2 (Qle_bool_false vstep 0) Pstep) in *.
  cbn [andb] in *.
  repeat match type of H with
         | volume (if ?c then _ else _) = _ =>
             destruct c; [discriminate H |]
         end.
  cbn [volume] in H. injection H as <-.
  split; reflexivity.
Qed.

(** Without rounding the two models of [compute_volume] agree. *)
Lemma compute_volume_in_no_rounding (equity risk_per_trade stop_points : Q)
  (symbol : SymbolMeta) :
  compute_volume_in no_rounding equity risk_per_trade stop_points symbol
  = compute_volume equity risk_per_trade stop_points symbol.
Proof. reflexivity. Qed.




(** In floats the rounding down can lose a whole step: 0.3 over 0.1 is just
    under 3, and the result is 0.2. *)
Lemma rounding_down_can_lose_a_step :
  _round_down_to_step_in binary64 (binary64 (3 # 10)) (binary64 (1 # 10))
  = binary64 (2 # 10)
  /\ _round_down_to_step_in no_rounding (3 # 10) (1 # 10) == 3 # 10.
Proof. split; vm_compute; reflexivity. Qed.




End SizingProps.

(** ** The executor: gates, idempotency, retries *)

Module ExecutionProps.
Import Connector Num Config Format Constants Idempotency Persistence Execution
  ExecutionSpec Examples.


Section Attempts.

Variable F : Renderer.
Variable cfg : AppConfig.

(** The post-trade verification only looks: it adds no broker call and
    leaves the store alone. *)
Lemma verify_open_shape (b : Broker) (w : World) (sym : string) :
  exists after, _verify_open cfg b w sym
                = {| decisions := decisions w; trace := (trace w ++ after)%list |}
                /\ broker_calls after = 0%nat.
Proof.
  unfold _verify_open, emit. cbn [decisions trace].
  destruct (list_positions b) as [ps|e].
  - match goal with |- context [if ?c then _ else _] => destruct c end.
    + eexists. split; [reflexivity | reflexivity].
    + eexists. rewrite <- app_assoc. split; [reflexivity | reflexivity].
  - eexists. rewrite <- app_assoc. split; [reflexivity | reflexivity].
Qed.

Lemma verify_closed_shape (b : Broker) (w : World) (pid : Z) :
  exists after, _verify_closed b w pid
                = {| decisions := decisions w; trace := (trace w ++ after)%list |}
                /\ broker_calls after = 0%nat.
Proof.
  unfold _verify_closed, emit. cbn [decisions trace].
  destruct (list_positions b) as [ps|e].
  - match goal with |- context [if ?c then _ else _] => destruct c end.
    + eexists. rewrite <- app_assoc. split; [reflexivity | reflexivity].
    + eexists. split; [reflexivity | reflexivity].
  - eexists. rewrite <- app_assoc. split; [reflexivity | reflexivity].
Qed.

Lemma ran_dispatched_at (b : Broker) (a : DecisionArgs) (t : attempt)
  (w w' : World) (ai : option AccountInfo) (req : OrderRequest)
  (res : outcome OrderResult) (evs after : list event) (row : DecisionRow)
  (final_status : string) (doc : option ResultDoc) (r : ExecutionReport) :
  decisions w'
  = update_decision (decisions w ++ [row])%list (arg_idempotency_key a)
      final_status doc ->
  trace w' = (((trace w ++ [EvAccountInfo]) ++ evs) ++ after)%list ->
  call_with_retries (fun i => place_order b i req) (EvPlaceOrder req)
    (max_attempts (retries (execution cfg)))
    (backoff_seconds (retries (execution cfg))) = (res, evs) ->
  trading_enabled (execution cfg) = true ->
  account_info b = Returned ai ->
  gate_passes ai = true ->
  has_key (decisions w) (arg_idempotency_key a) = false ->
  idempotency_key row = arg_idempotency_key a ->
  broker_calls after = 0%nat ->
  terminal_status final_status = true ->
  (rep_success r = true <-> exists o, res = Returned o /\ success o = true) ->
  ran F cfg b a t w w' (Returned r).
Proof.
  intros Hd Ht Hcall Hen Hai Hgate Hkey Hrow Hafter Hterm Hsucc.
  destruct w' as [d' t']. cbn in Hd, Ht. subst d' t'.
  rewrite <- !app_assoc. cbn [app].
  eapply ran_dispatched; eassumption.
Qed.

Ltac enter_executor Hen Hai Hgate Hkey t :=
  unfold report;
  destruct (trading_enabled (execution cfg)) eqn:Hen; cbn [negb fst snd];
  [| now apply ran_disabled];
  destruct (account_info _) as [ai|e] eqn:Hai; cbn [fst snd];
  [| now apply ran_account_raised];
  assert (Hgate :
    match ai with
    | Some info =>
        if negb (paper_account (trade_mode info)) then Some info else None
    | None => None
    end = None -> gate_passes ai = true)
    by (destruct ai as [info|]; [| reflexivity]; simpl;
        destruct (paper_account (trade_mode info)); [reflexivity | discriminate]);
  destruct (match ai with
            | Some info =>
                if negb (paper_account (trade_mode info)) then Some info else None
            | None => None
            end) as [info|] eqn:Href; cbn [fst snd];
  [ destruct ai as [info'|]; [| discriminate];
    destruct (paper_account (trade_mode info')) eqn:Hpaper; [discriminate |];
    injection Href as <-; now apply (ran_refused F cfg _ _ t _ info')
  | specialize (Hgate eq_refl) ];
  unfold try_insert; cbn [idempotency_key skipped_row];
  destruct (has_key (decisions (emit _ [EvAccountInfo])) _) eqn:Hkey;
  cbn [negb fst snd];
  [ cbn [decisions emit] in Hkey;
    match goal with
    | |- ran _ _ _ _ _ ?w (set_decisions (emit ?w ?e) _) _ =>
        change (set_decisions (emit w e) (decisions (emit w e))) with (emit w e)
    end;
    now apply (ran_duplicate F cfg _ _ t _ ai)
  | cbn [decisions emit] in Hkey ].

Ltac dispatch Hen Hai Hgate Hkey Hcall :=
  eapply ran_dispatched_at;
  [ reflexivity | | exact Hcall | exact Hen | exact Hai | exact Hgate
  | exact Hkey | reflexivity | | reflexivity | ].

Lemma open_trade_ran b a side volume sl tp qb qa w :
  ran F cfg b a (Open side volume sl tp qb qa) w
    (fst (open_trade F cfg b a side volume sl tp qb qa w))
    (snd (open_trade F cfg b a side volume sl tp qb qa w)).
Proof.
  unfold open_trade.
  enter_executor Hen Hai Hgate Hkey (Open side volume sl tp qb qa).
  match goal with |- context [call_with_retries ?f ?ev ?m ?bo] =>
    destruct (call_with_retries f ev m bo) as [res evs] eqn:Hcall end.
  destruct res as [o|exc].
  - destruct (success o) eqn:Hsucc; cbn [negb fst snd].
    + match goal with |- context [_verify_open cfg b ?W ?s] =>
        destruct (verify_open_shape b W s) as (after & -> & Hafter) end.
      dispatch Hen Hai Hgate Hkey Hcall.
      * reflexivity.
      * exact Hafter.
      * cbn. split; [intros _; eauto | reflexivity].
    + dispatch Hen Hai Hgate Hkey Hcall.
      * cbn. now rewrite app_nil_r.
      * reflexivity.
      * cbn. split; [discriminate |]. intros (o' & Ho & Hs). injection Ho as <-. congruence.
  - cbn [fst snd]. dispatch Hen Hai Hgate Hkey Hcall.
    + cbn. now rewrite app_nil_r.
    + reflexivity.
    + cbn. split; [discriminate |]. intros (o' & Ho & _). discriminate.
Qed.

Lemma close_trade_ran b a pid side volume reason w :
  ran F cfg b a (Close pid side volume reason) w
    (fst (close_trade F cfg b a pid side volume reason w))
    (snd (close_trade F cfg b a pid side volume reason w)).
Proof.
  unfold close_trade.
  enter_executor Hen Hai Hgate Hkey (Close pid side volume reason).
  match goal with |- context [call_with_retries ?f ?ev ?m ?bo] =>
    destruct (call_with_retries f ev m bo) as [res evs] eqn:Hcall end.
  destruct res as [o|exc].
  - destruct (success o) eqn:Hsucc; cbn [negb fst snd].
    + match goal with |- context [_verify_closed b ?W ?s] =>
        destruct (verify_closed_shape b W s) as (after & -> & Hafter) end.
      dispatch Hen Hai Hgate Hkey Hcall.
      * reflexivity.
      * exact Hafter.
      * cbn. split; [intros _; eauto | reflexivity].
    + dispatch Hen Hai Hgate Hkey Hcall.
      * cbn. now rewrite app_nil_r.
      * reflexivity.
      * cbn. split; [discriminate |]. intros (o' & Ho & Hs). injection Ho as <-. congruence.
  - cbn [fst snd]. dispatch Hen Hai Hgate Hkey Hcall.
    + cbn. now rewrite app_nil_r.
    + reflexivity.
    + cbn. split; [discriminate |]. intros (o' & Ho & _). discriminate.
Qed.


(** *** The retry wrapper *)




(** When the first invocation settles the matter (it returns, or raises what
    is not retried) the wrapper invokes the callable exactly once. *)
Lemma call_with_retries_once {T : Type} (fn : nat -> outcome T)
  (req : OrderRequest) (max : Z) (backoff : list Q) :
  1 <= max ->
  (forall e, fn O = Raised e -> retryable e = false) ->
  call_with_retries fn (EvPlaceOrder req) max backoff = (fn O, [EvPlaceOrder req]).
Proof.
  intros Hmax Hfinal. unfold call_with_retries.
  destruct (Z.to_nat max) as [|k] eqn:Hk; [lia |].
  simpl. change (Z.to_nat (1 - 1)) with O.
  destruct (fn O) as [r|e] eqn:Hfn; [reflexivity |].
  now rewrite (Hfinal e eq_refl).
Qed.

(** *** The store *)

Lemma rows_of_app (xs ys : list DecisionRow) (key : string) :
  rows_of (xs ++ ys) key = (rows_of xs key ++ rows_of ys key)%list.
Proof. unfold rows_of. apply List.filter_app. Qed.

Lemma has_key_false_rows_of (rows : list DecisionRow) (key : string) :
  has_key rows key = false -> rows_of rows key = [].
Proof.
  unfold has_key, rows_of. induction rows as [|r rest IH]; simpl; [reflexivity |].
  intro H. apply orb_false_iff in H as [Hr Hrest].
  rewrite Hr. now apply IH.
Qed.

Lemma has_key_app (xs ys : list DecisionRow) (key : string) :
  has_key (xs ++ ys) key = has_key xs key || has_key ys key.
Proof. unfold has_key. apply existsb_app. Qed.

Lemma rows_of_update (rows : list DecisionRow) (key key' : string)
  (s : string) (doc : option ResultDoc) :
  rows_of (update_decision rows key s doc) key'
  = map (fun r => if String.eqb (idempotency_key r) key
                  then with_verdict r s doc else r)
        (rows_of rows key').
Proof.
  unfold rows_of, update_decision.
  induction rows as [|r rest IH]; simpl; [reflexivity |].
  destruct (String.eqb (idempotency_key r) key) eqn:Hk; simpl;
    destruct (String.eqb (idempotency_key r) key') eqn:Hk'; simpl;
    rewrite ?Hk; now rewrite IH.
Qed.

Lemma has_key_update (rows : list DecisionRow) (key key' : string)
  (s : string) (doc : option ResultDoc) :
  has_key (update_decision rows key s doc) key' = has_key rows key'.
Proof.
  unfold has_key, update_decision.
  induction rows as [|r rest IH]; simpl; [reflexivity |].
  rewrite IH. destruct (String.eqb (idempotency_key r) key); reflexivity.
Qed.


Lemma update_decision_absent (rows : list DecisionRow) (key : string)
  (st : string) (doc : option ResultDoc) :
  has_key rows key = false -> update_decision rows key st doc = rows.
Proof.
  unfold has_key, update_decision.
  induction rows as [|r rest IH]; simpl; [reflexivity |].
  intro H. apply orb_false_iff in H as [Hr Hrest].
  rewrite Hr. now rewrite IH.
Qed.

Lemma unique_keys_insert (rows : list DecisionRow) (row : DecisionRow) :
  unique_keys rows -> has_key rows (idempotency_key row) = false ->
  unique_keys (rows ++ [row]).
Proof.
  intros Hu Hfresh key. rewrite rows_of_app, length_app.
  unfold rows_of at 2. simpl.
  destruct (String.eqb (idempotency_key row) key) eqn:Hk; simpl.
  - apply String.eqb_eq in Hk. subst key.
    rewrite (has_key_false_rows_of rows _ Hfresh). simpl. lia.
  - specialize (Hu key). lia.
Qed.



Lemma run_attempt_ran (b : Broker) (a : DecisionArgs) (t : attempt) (w : World) :
  ran F cfg b a t w (fst (run_attempt F cfg b a t w))
    (snd (run_attempt F cfg b a t w)).
Proof.
  destruct t; [apply open_trade_ran | apply close_trade_ran].
Qed.

(** With trading enabled, the gate passed, a fresh key and a first broker
    answer that is not retried, the attempt calls the broker exactly once and
    leaves one terminal row. *)
Lemma ran_once (b : Broker) (a : DecisionArgs) (t : attempt)
  (w w' : World) (out : outcome ExecutionReport) :
  ran F cfg b a t w w' out ->
  trading_enabled (execution cfg) = true ->
  (exists ai, account_info b = Returned ai /\ gate_passes ai = true) ->
  has_key (decisions w) (arg_idempotency_key a) = false ->
  1 <= max_attempts (retries (execution cfg)) ->
  (forall req e, place_order b O req = Raised e -> retryable e = false) ->
  exists evs row,
    trace w' = (trace w ++ evs)%list /\ broker_calls evs = 1%nat
    /\ decisions w' = (decisions w ++ [row])%list
    /\ idempotency_key row = arg_idempotency_key a
    /\ terminal_status (status row) = true.
Proof.
  intros H Hen (ai0 & Hai0 & Hgate0) Hfresh Hmax Hfinal. destruct H.
  - congruence.
  - congruence.
  - match goal with H : account_info b = Returned (Some _) |- _ =>
      rewrite H in Hai0; injection Hai0 as <- end.
    simpl in Hgate0. congruence.
  - congruence.
  - match goal with H : call_with_retries _ _ _ _ = _ |- _ =>
      rewrite (call_with_retries_once _ req _ _ Hmax (Hfinal req)) in H;
      injection H as Hres Hevs end.
    subst evs.
    exists (EvAccountInfo :: [EvPlaceOrder req] ++ after)%list,
           (with_verdict row final_status doc).
    cbn [decisions trace].
    split; [reflexivity |]. split.
    { unfold broker_calls in *. simpl. lia. }
    split; [| split; assumption].
    unfold update_decision. rewrite map_app. simpl.
    match goal with H : idempotency_key row = _ |- _ => rewrite H end.
    rewrite String.eqb_refl. f_equal.
    now apply update_decision_absent.
Qed.


(** C2. In every [open_trade] or [close_trade] call for which the broker's
    account info reports a trade mode outside DEMO and CONTEST, the executor
    returns an unsuccessful report, writes nothing to the store and never
    invokes [place_order].  The account info is fetched exactly when trading
    is enabled, and whenever it is fetched the reason is the paper-only gate's
    ("paper-only gate: trade_mode=..."); with trading disabled the call has
    already been refused as "trading disabled". *)
Theorem paper_only_gate_refuses :
  forall (b : Broker) (a : DecisionArgs) (t : attempt) (w : World)
         (info : AccountInfo),
    account_info b = Returned (Some info) ->
    paper_account (trade_mode info) = false ->
    exists r evs,
      snd (run_attempt F cfg b a t w) = Returned r
      /\ rep_success r = false
      /\ decisions (fst (run_attempt F cfg b a t w)) = decisions w
      /\ trace (fst (run_attempt F cfg b a t w)) = (trace w ++ evs)%list
      /\ broker_calls evs = 0%nat
      /\ (In EvAccountInfo evs <-> trading_enabled (execution cfg) = true)
      /\ (In EvAccountInfo evs ->
          rep_reason r = ("paper-only gate: trade_mode="
                          ++ str_trade_mode F (trade_mode info))%string
          /\ String.prefix "paper-only gate" (rep_reason r) = true)
      /\ (trading_enabled (execution cfg) = false ->
          rep_reason r = "trading disabled").
Proof.
  intros b a t w info Hai Hpaper.
  pose proof (run_attempt_ran b a t w) as H.
  destruct H.
  - eexists. exists []. rewrite app_nil_r.
    split; [reflexivity |]. split; [reflexivity |]. split; [reflexivity |].
    split; [reflexivity |]. split; [reflexivity |].
    split; [split; [intros [] | congruence] |].
    split; [intros [] | reflexivity].
  - congruence.
  - match goal with H : account_info b = Returned (Some _) |- _ =>
      rewrite H in Hai; injection Hai as -> end.
    eexists. exists [EvAccountInfo].
    split; [reflexivity |]. split; [reflexivity |]. split; [reflexivity |].
    split; [reflexivity |]. split; [reflexivity |].
    split; [split; [intros _; assumption | intros _; now left] |].
    split; [intros _; split; reflexivity | congruence].
  - match goal with H : account_info b = Returned _ |- _ =>
      rewrite H in Hai; injection Hai as -> end.
    simpl in *. congruence.
  - match goal with H : account_info b = Returned _ |- _ =>
      rewrite H in Hai; injection Hai as -> end.
    simpl in *. congruence.
Qed.




End Attempts.

(** The gate at work: a REAL account, trading enabled. *)
Lemma paper_only_gate_witness :
  snd (run_attempt terse trading_config (broker_on REAL fills) (long_args "c1")
         long_attempt empty_world)
  = Returned {| action := "open"; rep_success := false;
                rep_reason := "paper-only gate: trade_mode=AccountTradeMode.REAL";
                rep_order := None; rep_result := None |}
  /\ broker_calls
       (trace (fst (run_attempt terse trading_config (broker_on REAL fills)
                      (long_args "c1") long_attempt empty_world))) = 0%nat.
Proof.
  destruct (paper_only_gate_refuses terse trading_config (broker_on REAL fills)
              (long_args "c1") long_attempt empty_world
              (account REAL (Some 1000%Q)) eq_refl eq_refl)
    as (r & evs & Hr & Hs & Hd & Ht & Hc & _).
  split; [vm_compute; reflexivity |].
  rewrite Ht. exact Hc.
Defined.



End ExecutionProps.

(** ** The normaliser *)

Module NormalizerProps.
Import Num Normalizer.
Local Open Scope Q_scope.

Lemma full_like_length (v : list fl) (c : fl) : length (full_like v c) = length v.
Proof. apply length_map. Qed.

(** The result always has the length of the input. *)
Lemma robust_minmax_length (v : list fl) :
  length (robust_minmax v) = length v.
Proof.
  unfold robust_minmax.
  repeat match goal with
         | |- context [match ?x with Some _ => _ | None => _ end] => destruct x
         | |- context [if ?c then _ else _] => destruct c
         end;
    rewrite ?full_like_length, ?length_map; reflexivity.
Qed.

(** Without a finite value every entry is NaN. *)
Lemma robust_minmax_no_finite (v : list fl) :
  finite_values v = [] -> robust_minmax v = full_like v NaN.
Proof. intro H. unfold robust_minmax. now rewrite H. Qed.

(** C7 on the input [1, 1, 1, 1, 2, +inf]: the finite values have quartiles
    1 and 1, so the IQR is 0 and the plain min-max fallback runs with minimum
    1 and maximum 2.  The fallback rescales the unclipped input, and the
    infinite entry comes out as [+inf]: neither in [0, 1] nor NaN.  (The
    branch for a positive IQR clips first and maps the same entry to 1.) *)
Theorem robust_minmax_fallback_returns_infinity :
  quantile [1; 1; 1; 1; 2] (3 # 4) - quantile [1; 1; 1; 1; 2] (1 # 4) == 0
  /\ length (robust_minmax [Fin 1; Fin 1; Fin 1; Fin 1; Fin 2; PInf]) = 6%nat
  /\ nth 5 (robust_minmax [Fin 1; Fin 1; Fin 1; Fin 1; Fin 2; PInf]) NaN = PInf
  /\ all_in_unit_or_nan [Fin 1; Fin 1; Fin 1; Fin 1; Fin 2; PInf]
       (robust_minmax [Fin 1; Fin 1; Fin 1; Fin 1; Fin 2; PInf]) = false
  /\ in_unit_or_nan PInf
       (nth 5 (robust_minmax [Fin 1; Fin 2; Fin 3; Fin 4; Fin 5; PInf]) NaN) = true.
Proof.
  split; [vm_compute; reflexivity |].
  split; [vm_compute; reflexivity |].
  split; [vm_compute; reflexivity |].
  split; vm_compute; reflexivity.
Qed.

End NormalizerProps.

(** ** The correlation filter *)

Module CorrelationProps.
Import Num Format Correlation Examples NumProps.

Section Loops.

Variable F : Renderer.
Variable corr : string -> string -> Q.
Variable max_abs_corr : Q.
Variable top_n : Z.

Local Open Scope Q_scope.

Lemma first_conflict_none (sym : string) (adm : list string) :
  first_conflict corr max_abs_corr sym adm = None
  <-> admissible corr max_abs_corr sym adm.
Proof.
  unfold admissible. induction adm as [|s2 rest IH]; simpl.
  - split; [constructor | reflexivity].
  - destruct (Qlt_bool max_abs_corr (Qabs (corr sym s2))) eqn:E.
    + apply Qlt_bool_true in E. split; [discriminate |].
      intro H. inversion H; subst. exfalso. eapply Qlt_not_le; eassumption.
    + apply Qlt_bool_false in E. rewrite IH. split.
      * intro H. now constructor.
      * intro H. now inversion H.
Qed.

Lemma first_conflict_some (sym : string) (adm : list string) (s2 : string) (c : Q) :
  first_conflict corr max_abs_corr sym adm = Some (s2, c) ->
  In s2 adm /\ c = corr sym s2 /\ max_abs_corr < Qabs (corr sym s2).
Proof.
  induction adm as [|s rest IH]; simpl; [discriminate |].
  destruct (Qlt_bool max_abs_corr (Qabs (corr sym s))) eqn:E.
  - intro H. injection H as <- <-. apply Qlt_bool_true in E. auto.
  - intro H. destruct (IH H) as (Hin & Hc & Hlt). auto.
Qed.

Lemma admitted_in_turn_snoc (sel : list string) (sym : string) :
  admitted_in_turn corr max_abs_corr sel ->
  admissible corr max_abs_corr sym sel ->
  admitted_in_turn corr max_abs_corr (sel ++ [sym]).
Proof.
  intros Hsel Hsym before s after Heq.
  destruct after as [|a after'] using rev_ind.
  - apply app_inj_tail in Heq as [<- <-]. exact Hsym.
  - clear IHafter'. rewrite app_comm_cons, app_assoc in Heq.
    apply app_inj_tail in Heq as [Heq _].
    now apply (Hsel before s after').
Qed.


Lemma greedy_loop_spec (ranked : list string) :
  forall (sel : list string) (exc : gmap string string)
         (sel' : list string) (exc' : gmap string string),
    greedy_loop F corr max_abs_corr top_n ranked sel exc = (sel', exc') ->
    admitted_in_turn corr max_abs_corr sel ->
    (exists added, sel' = (sel ++ added)%list /\ Forall (fun s => In s ranked) added)
    /\ admitted_in_turn corr max_abs_corr sel'
    /\ (Z.of_nat (length sel') <= Z.max (Z.of_nat (length sel)) top_n)%Z
    /\ (forall s r, exc' !! s = Some r ->
          exc !! s = Some r
          \/ exists s2, In s2 sel' /\ max_abs_corr < Qabs (corr s s2)
                        /\ r = conflict_reason F max_abs_corr s s2 (corr s s2)).
Proof.
  induction ranked as [|sym rest IH]; intros sel exc sel' exc' H Hsel; simpl in H.
  - injection H as <- <-. split; [exists []; now rewrite app_nil_r |].
    split; [exact Hsel |]. split; [lia | auto].
  - destruct (top_n <=? Z.of_nat (length sel))%Z eqn:Hfull.
    + injection H as <- <-. split; [exists []; now rewrite app_nil_r |].
      split; [exact Hsel |]. split; [lia | auto].
    + apply Z.leb_gt in Hfull.
      destruct (first_conflict corr max_abs_corr sym sel) as [[s2 c]|] eqn:Hc.
      * destruct (first_conflict_some sym sel s2 c Hc) as (Hin & -> & Hlt).
        destruct (IH _ _ _ _ H Hsel) as ((added & -> & Hadded) & Hturn & Hlen & Hexc).
        split.
        { exists added. split; [reflexivity |].
          eapply Forall_impl; [exact Hadded |]. intros x Hx. now right. }
        split; [exact Hturn |]. split; [exact Hlen |].
        intros s r Hr. destruct (Hexc s r Hr) as [Hins | Hnew]; [| now right].
        apply lookup_insert_Some in Hins as [[<- <-] | [_ Hold]]; [| now left].
        right. exists s2. split; [apply in_or_app; now left | now split].
      * apply first_conflict_none in Hc.
        destruct (IH _ _ _ _ H (admitted_in_turn_snoc sel sym Hsel Hc))
          as ((added & -> & Hadded) & Hturn & Hlen & Hexc).
        split.
        { exists (sym :: added). rewrite <- app_assoc. split; [reflexivity |].
          constructor; [now left |].
          eapply Forall_impl; [exact Hadded |]. intros x Hx. now right. }
        split; [exact Hturn |]. split; [| exact Hexc].
        rewrite !length_app in *. simpl in *. lia.
Qed.

Lemma filter_not_mem_snoc (sel rest : list string) (sym : string) :
  ~ In sym rest ->
  List.filter (fun s => negb (mem s (sel ++ [sym]))) rest
  = List.filter (fun s => negb (mem s sel)) rest.
Proof.
  intro Hnot. induction rest as [|x rest IH]; simpl; [reflexivity |].
  assert (Hx : mem x (sel ++ [sym]) = mem x sel).
  { unfold mem. rewrite existsb_app. simpl.
    destruct (String.eqb x sym) eqn:E.
    - apply String.eqb_eq in E. subst x. exfalso. apply Hnot. now left.
    - now rewrite !orb_false_r. }
  rewrite Hx, IH; [reflexivity |]. intro H. apply Hnot. now right.
Qed.

(** The second loop appends, in rank order, the first symbols not yet
    selected until [top_n] are there. *)
Lemma pad_loop_spec (ranked : list string) :
  List.NoDup ranked ->
  forall sel : list string,
    pad_loop top_n ranked sel
    = (sel ++ firstn (Z.to_nat (top_n - Z.of_nat (length sel)))
                (List.filter (fun s => negb (mem s sel)) ranked))%list.
Proof.
  induction 1 as [|sym rest Hnot Hnd IH]; intro sel; simpl.
  - now rewrite firstn_nil, app_nil_r.
  - destruct (top_n <=? Z.of_nat (length sel))%Z eqn:Hfull.
    + apply Z.leb_le in Hfull.
      replace (Z.to_nat (top_n - Z.of_nat (length sel))) with O by lia.
      now rewrite app_nil_r.
    + apply Z.leb_gt in Hfull.
      destruct (mem sym sel) eqn:Hmem; simpl.
      * apply IH.
      * rewrite IH, length_app. simpl.
        rewrite (filter_not_mem_snoc sel rest sym Hnot), <- app_assoc. simpl.
        replace (Z.to_nat (top_n - Z.of_nat (length sel)))
          with (S (Z.to_nat (top_n - Z.of_nat (length sel + 1)))) by lia.
        reflexivity.
Qed.

Lemma pad_loop_length (ranked : list string) :
  forall sel : list string,
    (Z.of_nat (length (pad_loop top_n ranked sel))
     <= Z.max (Z.of_nat (length sel)) top_n)%Z
    /\ exists added, pad_loop top_n ranked sel = (sel ++ added)%list
                     /\ Forall (fun s => In s ranked) added.
Proof.
  induction ranked as [|sym rest IH]; intro sel; simpl.
  - split; [lia |]. exists []. now rewrite app_nil_r.
  - destruct (top_n <=? Z.of_nat (length sel))%Z eqn:Hfull.
    + split; [lia |]. exists []. now rewrite app_nil_r.
    + apply Z.leb_gt in Hfull. destruct (mem sym sel).
      * destruct (IH sel) as (Hlen & added & Heq & Hadded).
        split; [exact Hlen |]. exists added. split; [exact Heq |].
        eapply Forall_impl; [exact Hadded |]. intros x Hx. now right.
      * destruct (IH (sel ++ [sym])%list) as (Hlen & added & Heq & Hadded).
        rewrite length_app in Hlen. simpl in Hlen.
        split; [lia |]. exists (sym :: added). rewrite Heq, <- app_assoc.
        split; [reflexivity |]. constructor; [now left |].
        eapply Forall_impl; [exact Hadded |]. intros x Hx. now right.
Qed.

End Loops.

Section Pearson.

Local Open Scope Q_scope.

Lemma total_opp (xs : list Q) : total (map Qopp xs) == - total xs.
Proof.
  induction xs as [|x rest IH]; simpl; [reflexivity |]. rewrite IH. ring.
Qed.

Lemma mean_opp (xs : list Q) : mean (map Qopp xs) == - mean xs.
Proof.
  unfold mean. rewrite total_opp, length_map. unfold Qdiv. ring.
Qed.

Lemma co_dev_opp_l (xs : list Q) :
  forall (ys : list Q) (mx mx' my : Q),
    mx' == - mx ->
    co_dev mx' my (map Qopp xs) ys == - co_dev mx my xs ys.
Proof.
  induction xs as [|x rest IH]; intros ys mx mx' my Hm; simpl; [reflexivity |].
  destruct ys as [|y ys']; [reflexivity |].
  rewrite (IH ys' mx mx' my Hm), Hm. ring.
Qed.

Lemma co_dev_opp_both (xs : list Q) :
  forall m m' : Q,
    m' == - m ->
    co_dev m' m' (map Qopp xs) (map Qopp xs) == co_dev m m xs xs.
Proof.
  induction xs as [|x rest IH]; intros m m' Hm; simpl; [reflexivity |].
  rewrite (IH m m' Hm), Hm. ring.
Qed.

Lemma co_moment_opp_l (t : list Q) :
  co_moment (map Qopp t) t == - co_moment t t.
Proof. unfold co_moment. apply co_dev_opp_l, mean_opp. Qed.

Lemma co_moment_opp_both (t : list Q) :
  co_moment (map Qopp t) (map Qopp t) == co_moment t t.
Proof. unfold co_moment. apply co_dev_opp_both, mean_opp. Qed.

Lemma unit_square (c : Q) : c * c == 1 -> Qabs c == 1.
Proof.
  intro H.
  assert (Hf : (c - 1) * (c + 1) == 0) by (ring_simplify; rewrite H; ring).
  apply Qmult_integral in Hf as [Hc | Hc].
  - assert (E : c == 1) by (rewrite <- (Qplus_0_l 1), <- Hc; ring).
    rewrite E. reflexivity.
  - assert (E : c == - (1)) by (rewrite <- (Qplus_0_l (- (1))), <- Hc; ring).
    rewrite E. reflexivity.
Qed.

(** Two series that are equal up to sign, one of them with some variance,
    correlate with absolute value one. *)
Lemma pearson_of_mirror (xs ys : list Q) (c v : Q) :
  is_pearson xs ys c ->
  co_moment xs xs == v -> co_moment ys ys == v ->
  co_moment xs ys * co_moment xs ys == v * v ->
  ~ v == 0 ->
  Qabs c == 1.
Proof.
  intros [_ Hp] Hxx Hyy Hxy Hv.
  assert (Hvv : ~ v * v == 0).
  { intro H0. apply Qmult_integral in H0. tauto. }
  destruct Hp as [Hsq _].
  { rewrite Hxx, Hyy. exact Hvv. }
  rewrite Hxx, Hyy, Hxy in Hsq.
  apply unit_square.
  apply (Qmult_inj_r _ _ (v * v) Hvv). rewrite Hsq. ring.
Qed.

End Pearson.

Section Main.

Local Open Scope Q_scope.

(** C9. On a non-empty returns frame and at least two ranked symbols the
    selection is what the greedy pass admitted followed by the padding.  The
    greedy pass admits a symbol only if its absolute correlation with every
    symbol admitted before it is at most [max_abs_corr], and stops at
    [top_n]; a symbol it drops is recorded with a reason that names an
    admitted symbol it exceeds the bound against.  The padding is there only
    when fewer than [top_n] were admitted and consists of the next ranked
    symbols not yet selected, in rank order, up to [top_n].  (An empty frame
    or a single symbol gives the first [top_n] ranked symbols.)  For the
    series A = B = t and C = -t, t not constant, with bound 0.85 and
    [top_n = 2], whatever Pearson matrix pandas computes: A is admitted, B and
    C are dropped with reasons naming A, and the padding takes B back, so the
    selection is A and B, and C stays out with its reason referencing A. *)
Theorem greedy_filter_admits_within_bound :
  (forall (F : Renderer) (corr : string -> string -> Q) (max_abs_corr : Q)
          (top_n : Z) (ranked : list string) (df : frame)
          (d : CorrelationDecision),
      greedy_correlation_filter F corr max_abs_corr top_n ranked df = Returned d ->
      (frame_empty df = true \/ (length ranked <= 1)%nat ->
       d = {| selected := slice_to ranked top_n; excluded := ∅ |})
      /\ (frame_empty df = false -> (2 <= length ranked)%nat ->
          exists admitted padding,
            selected d = (admitted ++ padding)%list
            /\ admitted_in_turn corr max_abs_corr admitted
            /\ (Z.of_nat (length admitted) <= Z.max 0 top_n)%Z
            /\ (Z.of_nat (length (selected d)) <= Z.max 0 top_n)%Z
            /\ Forall (fun s => In s ranked) (selected d)
            /\ (List.NoDup ranked ->
                padding
                = firstn (Z.to_nat (top_n - Z.of_nat (length admitted)))
                    (List.filter (fun s => negb (mem s admitted)) ranked))
            /\ (forall s r, excluded d !! s = Some r ->
                  exists s2,
                    In s2 admitted /\ max_abs_corr < Qabs (corr s s2)
                    /\ r = conflict_reason F max_abs_corr s s2 (corr s s2))))
  /\ (forall (F : Renderer) (corr : string -> string -> Q) (t : list Q),
        ~ co_moment t t == 0 ->
        pearson_matrix (abc_frame t) corr ->
        greedy_correlation_filter F corr (85 # 100) 2 ["A"; "B"; "C"] (abc_frame t)
        = Returned
            {| selected := ["A"; "B"];
               excluded :=
                 <[ "C" := conflict_reason F (85 # 100) "C" "A" (corr "C" "A") ]>
                   (<[ "B" := conflict_reason F (85 # 100) "B" "A" (corr "B" "A") ]>
                      ∅) |}).
Proof.
  split.
  - intros F corr max_abs_corr top_n ranked df d H.
    unfold greedy_correlation_filter in H.
    destruct (frame_empty df) eqn:Hempty; simpl in H.
    { injection H as <-. split; [reflexivity | discriminate]. }
    destruct (length ranked <=? 1)%nat eqn:Hlen.
    { injection H as <-. split; [reflexivity |].
      apply Nat.leb_le in Hlen. intros _ Hge. lia. }
    apply Nat.leb_gt in Hlen.
    split; [intros [Hc | Hc]; [discriminate | lia] |].
    intros _ _.
    destruct (find _ ranked) as [missing|]; [discriminate |].
    destruct (greedy_loop F corr max_abs_corr top_n ranked [] ∅)
      as [sel exc] eqn:Hloop.
    injection H as <-. cbn [selected excluded].
    assert (Hnil : admitted_in_turn corr max_abs_corr []).
    { intros before sym after Heq. destruct before; discriminate. }
    destruct (greedy_loop_spec F corr max_abs_corr top_n ranked [] ∅ sel exc
                Hloop Hnil) as ((added & Hsel & Hadded) & Hturn & Hbound & Hexc).
    simpl in Hsel, Hbound. subst added.
    destruct (pad_loop_length top_n ranked sel) as (Hplen & padded & Hpad & Hpadded).
    destruct (Z.of_nat (length sel) <? top_n)%Z eqn:Hshort.
    + apply Z.ltb_lt in Hshort. exists sel, padded.
      split; [exact Hpad |]. split; [exact Hturn |]. split; [lia |].
      split; [lia |].
      split; [rewrite Hpad; apply Forall_app; split; assumption |].
      split.
      { intro Hnd. rewrite (pad_loop_spec top_n ranked Hnd sel) in Hpad.
        apply app_inv_head in Hpad. now symmetry. }
      intros s r Hr. destruct (Hexc s r Hr) as [Hold | Hnew]; [| exact Hnew].
      rewrite lookup_empty in Hold. discriminate.
    + apply Z.ltb_ge in Hshort. exists sel, []. rewrite app_nil_r.
      split; [reflexivity |]. split; [exact Hturn |]. split; [lia |].
      split; [lia |]. split; [exact Hadded |].
      split.
      { intros _. replace (Z.to_nat (top_n - Z.of_nat (length sel))) with O by lia.
        reflexivity. }
      intros s r Hr. destruct (Hexc s r Hr) as [Hold | Hnew]; [| exact Hnew].
      rewrite lookup_empty in Hold. discriminate.
  - intros F corr t Hvar Hcorr.
    assert (Ht : frame_empty (abc_frame t) = false).
    { destruct t; [| reflexivity]. exfalso. apply Hvar. reflexivity. }
    assert (HB : Qlt_bool (85 # 100) (Qabs (corr "B" "A")) = true).
    { apply Qlt_bool_true.
      rewrite (pearson_of_mirror t t (corr "B" "A") (co_moment t t)
                 (Hcorr "B" "A" t t eq_refl eq_refl));
        [reflexivity | reflexivity | reflexivity | reflexivity | exact Hvar]. }
    assert (HC : Qlt_bool (85 # 100) (Qabs (corr "C" "A")) = true).
    { apply Qlt_bool_true.
      rewrite (pearson_of_mirror (map Qopp t) t (corr "C" "A") (co_moment t t)
                 (Hcorr "C" "A" (map Qopp t) t eq_refl eq_refl));
        [reflexivity | apply co_moment_opp_both | reflexivity | | exact Hvar].
      rewrite co_moment_opp_l. ring. }
    unfold greedy_correlation_filter. rewrite Ht.
    cbn -[Qlt_bool Qabs conflict_reason]. rewrite HB, HC.
    cbn -[Qlt_bool Qabs conflict_reason]. reflexivity.
Qed.

End Main.

Local Open Scope Q_scope.

(** The matrix of the example is the Pearson matrix of its frame. *)
Lemma abc_corr_is_pearson : pearson_matrix (abc_frame ramp) abc_corr.
Proof.
  intros a b xs ys Ha Hb. unfold abc_frame, column in Ha, Hb.
  repeat match goal with
         | H : (if String.eqb ?c ?x then _ else _) = Some _ |- _ =>
             let E := fresh "E" in
             destruct (String.eqb c x) eqn:E;
             [apply String.eqb_eq in E; subst x; injection H as <- |]
         | H : None = Some _ |- _ => discriminate H
         end;
    (split;
     [ intro H0; vm_compute in H0; discriminate H0
     | intros _; split; vm_compute; [reflexivity | intro H0; discriminate H0] ]).
Qed.

Lemma ramp_varies : ~ co_moment ramp ramp == 0.
Proof. intro H. vm_compute in H. discriminate H. Qed.

(** The scenario on the ramp 0, 1, 2. *)
Lemma greedy_filter_scenario_witness :
  greedy_correlation_filter terse abc_corr (85 # 100) 2 ["A"; "B"; "C"]
    (abc_frame ramp)
  = Returned {| selected := ["A"; "B"];
                excluded := <[ "C" := "|corr(C,A)|=# > #" ]>
                              (<[ "B" := "|corr(B,A)|=# > #" ]> ∅) |}.
Proof.
  exact (proj2 greedy_filter_admits_within_bound terse abc_corr ramp
           ramp_varies abc_corr_is_pearson).
Defined.

End CorrelationProps.

(** ** The retry wrapper on its own *)

Module RetryProps.
Import Connector Num Config Execution RetrySpec Examples Scenarios NumProps.

Lemma backoff_delay_nonneg (backoff : list Q) (attempt : Z) :
  Forall (fun d => (0 <= d)%Q) backoff -> (0 <= backoff_delay backoff attempt)%Q.
Proof.
  intros H. unfold backoff_delay. destruct backoff as [|d rest]; [easy|].
  set (n := Z.to_nat _).
  destruct (nth_in_or_default n (d :: rest) 0%Q) as [Hin | ->]; [| easy].
  rewrite List.Forall_forall in H. now apply H.
Qed.

Lemma retry_loop_first_answer {T : Type} (fn : nat -> outcome T) (ev : event)
  (max : Z) (backoff : list Q) (i : nat) :
  forall (remaining : nat) (attempt : Z) (last : option exn),
    1 <= attempt ->
    (i < remaining)%nat ->
    attempt + Z.of_nat i <= max ->
    (forall j, (j < i)%nat -> transient (fn (Z.to_nat (attempt - 1) + j)%nat)) ->
    (forall e, fn (Z.to_nat (attempt - 1) + i)%nat = Raised e ->
               retryable e = true -> attempt + Z.of_nat i = max) ->
    Forall (fun d => (0 <= d)%Q) backoff ->
    retry_loop fn ev max backoff remaining attempt last
    = (fn (Z.to_nat (attempt - 1) + i)%nat, retry_trace ev backoff attempt i).
Proof.
  induction i as [|i IH]; intros remaining attempt last Ha Hrem Hmax Hbefore Hlast Hb.
  - destruct remaining as [|k]; [lia|]. cbn [retry_loop retry_trace].
    rewrite Nat.add_0_r in *.
    destruct (fn (Z.to_nat (attempt - 1))) as [r|e] eqn:E; [reflexivity|].
    destruct (retryable e) eqn:R; [| reflexivity].
    specialize (Hlast e eq_refl R).
    replace (max <=? attempt) with true by (symmetry; apply Z.leb_le; lia).
    reflexivity.
  - destruct remaining as [|k]; [lia|]. cbn [retry_loop retry_trace].
    destruct (Hbefore 0%nat ltac:(lia)) as (e & E & R).
    rewrite Nat.add_0_r in E. rewrite E, R.
    replace (max <=? attempt) with false by (symmetry; apply Z.leb_gt; lia).
    assert (Hd : Qlt_bool (backoff_delay backoff attempt) 0 = false).
    { apply Qlt_bool_false. now apply backoff_delay_nonneg. }
    rewrite Hd.
    assert (Hidx : forall j, (Z.to_nat (attempt + 1 - 1) + j
                              = Z.to_nat (attempt - 1) + S j)%nat) by (intros; lia).
    rewrite (IH k (attempt + 1) (Some e)); try lia; try assumption.
    + rewrite Hidx. reflexivity.
    + intros j Hj. rewrite Hidx. apply Hbefore. lia.
    + intros e' E' R'. rewrite Hidx in E'. specialize (Hlast e' E' R'). lia.
Qed.


Lemma retry_loop_returned {T : Type} (fn : nat -> outcome T) (ev : event)
  (max : Z) (backoff : list Q) (remaining : nat) :
  forall (attempt : Z) (last : option exn) (r : T) (evs : list event),
    1 <= attempt ->
    retry_loop fn ev max backoff remaining attempt last = (Returned r, evs) ->
    exists i : nat,
      (i < remaining)%nat
      /\ fn (Z.to_nat (attempt - 1) + i)%nat = Returned r
      /\ (forall j, (j < i)%nat -> transient (fn (Z.to_nat (attempt - 1) + j)%nat))
      /\ evs = retry_trace ev backoff attempt i.
Proof.
  induction remaining as [|k IH]; intros attempt last r evs Ha H.
  - discriminate.
  - cbn [retry_loop] in H.
    destruct (fn (Z.to_nat (attempt - 1))) as [r0|e] eqn:E.
    + injection H as <- <-. exists 0%nat. rewrite Nat.add_0_r.
      split; [lia|]. split; [exact E|]. split; [intros; lia | reflexivity].
    + destruct (retryable e) eqn:R; [| discriminate].
      destruct (max <=? attempt); [discriminate|].
      destruct (Qlt_bool (backoff_delay backoff attempt) 0); [discriminate|].
      destruct (retry_loop fn ev max backoff k (attempt + 1) (Some e))
        as [o evs'] eqn:L.
      injection H as -> <-.
      assert (Ha' : 1 <= attempt + 1) by lia.
      destruct (IH _ _ _ _ Ha' L) as (i & Hi & Hfn & Hbefore & ->).
      assert (Hidx : forall j, (Z.to_nat (attempt + 1 - 1) + j
                                = Z.to_nat (attempt - 1) + S j)%nat) by (intros; lia).
      exists (S i). split; [lia|]. rewrite Hidx in Hfn. split; [exact Hfn|].
      split; [| reflexivity].
      intros [|j] Hj.
      * rewrite Nat.add_0_r. exists e. now split.
      * rewrite <- Hidx. apply Hbefore. lia.
Qed.

Lemma sleeps_retry_trace (req : OrderRequest) (backoff : list Q) (i : nat) :
  forall attempt : Z,
    sleeps (retry_trace (EvPlaceOrder req) backoff attempt i)
    = map (fun j => backoff_delay backoff (attempt + Z.of_nat j)) (seq 0 i)
    /\ broker_calls (retry_trace (EvPlaceOrder req) backoff attempt i) = S i.
Proof.
  induction i as [|i IH]; intros attempt; [split; reflexivity|].
  destruct (IH (attempt + 1)) as [Hs Hc].
  cbn [retry_trace sleeps]. split.
  - rewrite Hs. cbn [seq map]. rewrite Z.add_0_r. f_equal.
    rewrite <- seq_shift, map_map. apply map_ext. intros j. f_equal. lia.
  - change (broker_calls (?a :: ?b :: ?l)) with (S (broker_calls l)).
    now rewrite Hc.
Qed.

(** X1. [call_with_retries] ends on the first invocation that does not raise
    one of the two caught exceptions, provided it comes before the attempts
    run out and no backoff entry is negative: the wrapper answers what that
    invocation answered (its result, or its exception unchanged), having
    slept once after each failed invocation before it and not after it. *)
Theorem call_with_retries_stops_at_first_answer :
  forall (T : Type) (fn : nat -> outcome T) (call_ev : event) (max_attempts : Z)
         (backoff_seconds : list Q) (i : nat),
    Z.of_nat i < max_attempts ->
    (forall j, (j < i)%nat -> transient (fn j)) ->
    ~ transient (fn i) ->
    Forall (fun d => (0 <= d)%Q) backoff_seconds ->
    call_with_retries fn call_ev max_attempts backoff_seconds
    = (fn i, retry_trace call_ev backoff_seconds 1 i).
Proof.
  intros T fn ev max backoff i Hi Hbefore Hlast Hb. unfold call_with_retries.
  rewrite (retry_loop_first_answer fn ev max backoff i); try assumption; try lia.
  - reflexivity.
  - intros e E R. exfalso. apply Hlast. exists e. split; assumption.
Qed.

(** X2. With [max_attempts <= 0] the callable is never invoked and the final
    [assert] fails.  When every invocation raises a caught exception, the
    wrapper invokes the callable exactly [max_attempts] times, sleeps
    [max_attempts - 1] times (after every failure but the last) and raises
    the exception of the last invocation. *)
Theorem call_with_retries_gives_up_after_max_attempts :
  forall (T : Type) (fn : nat -> outcome T) (req : OrderRequest)
         (max_attempts : Z) (backoff_seconds : list Q),
    (max_attempts <= 0 ->
     call_with_retries fn (EvPlaceOrder req) max_attempts backoff_seconds
     = (Raised AssertionError, []))
    /\ (1 <= max_attempts ->
        (forall j, Z.of_nat j < max_attempts -> transient (fn j)) ->
        Forall (fun d => (0 <= d)%Q) backoff_seconds ->
        let run := call_with_retries fn (EvPlaceOrder req) max_attempts
                     backoff_seconds in
        fst run = fn (Z.to_nat (max_attempts - 1))
        /\ Z.of_nat (broker_calls (snd run)) = max_attempts
        /\ sleeps (snd run)
           = map (fun j => backoff_delay backoff_seconds (1 + Z.of_nat j))
               (seq 0 (Z.to_nat (max_attempts - 1)))).
Proof.
  intros T fn req max backoff. split.
  - intros Hmax. unfold call_with_retries.
    replace (Z.to_nat max) with O by lia. reflexivity.
  - intros Hmax Hall Hb run. subst run. unfold call_with_retries.
    rewrite (retry_loop_first_answer fn (EvPlaceOrder req) max backoff
               (Z.to_nat (max - 1))); try assumption; try lia.
    + cbn [fst snd].
      destruct (sleeps_retry_trace req backoff (Z.to_nat (max - 1)) 1) as [Hs Hc].
      rewrite Hs, Hc. split; [reflexivity|]. split; [lia | reflexivity].
    + intros j Hj. apply Hall. lia.
Qed.

(** X3. A value [call_with_retries] returns is the value of one invocation
    within the attempt limit; every invocation before it raised a caught
    exception, and the trace is those failures with their sleeps followed by
    the successful invocation. *)
Theorem call_with_retries_result_is_an_answer :
  forall (T : Type) (fn : nat -> outcome T) (call_ev : event) (max_attempts : Z)
         (backoff_seconds : list Q) (r : T) (evs : list event),
    call_with_retries fn call_ev max_attempts backoff_seconds = (Returned r, evs) ->
    exists i : nat,
      Z.of_nat i < max_attempts
      /\ fn i = Returned r
      /\ (forall j, (j < i)%nat -> transient (fn j))
      /\ evs = retry_trace call_ev backoff_seconds 1 i.
Proof.
  intros T fn ev max backoff r evs H. unfold call_with_retries in H.
  destruct (retry_loop_returned fn ev max backoff _ _ _ _ _ (Z.le_refl 1) H)
    as (i & Hi & Hfn & Hbefore & ->).
  exists i. split; [lia|]. split; [exact Hfn|]. split; [exact Hbefore | reflexivity].
Qed.

(** X4. The backoff schedule is read in order, one entry per failed attempt,
    and its last entry serves every attempt beyond its length; an empty
    schedule means one second. *)
Theorem backoff_delay_saturates :
  forall (backoff_seconds : list Q) (attempt : Z),
    1 <= attempt ->
    (backoff_seconds = [] -> backoff_delay backoff_seconds attempt = 1%Q)
    /\ (attempt <= Z.of_nat (length backoff_seconds) ->
        nth_error backoff_seconds (Z.to_nat (attempt - 1))
        = Some (backoff_delay backoff_seconds attempt))
    /\ (backoff_seconds <> [] -> Z.of_nat (length backoff_seconds) <= attempt ->
        backoff_delay backoff_seconds attempt = List.last backoff_seconds 0%Q).
Proof.
  intros backoff attempt Ha. split; [intros ->; reflexivity|].
  unfold backoff_delay. split.
  - intros Hlen. destruct backoff as [|d rest]; [simpl in Hlen; lia|].
    rewrite Z.min_l by lia.
    apply nth_error_nth'. lia.
  - intros Hne Hlen. destruct backoff as [|d rest]; [congruence|].
    rewrite Z.min_r by lia.
    replace (Z.to_nat (Z.of_nat (length (d :: rest)) - 1))
      with (length (d :: rest) - 1)%nat by lia.
    assert (Hne' : d :: rest <> []) by congruence.
    revert Hne'. generalize (d :: rest) as l. intros l Hl.
    destruct (exists_last Hl) as (l' & a & ->).
    rewrite last_last, length_app, app_nth2 by (simpl; lia).
    simpl. replace (length l' + 1 - 1 - length l')%nat with O by lia. reflexivity.
Qed.


(** One missing tick, then a fill, under the default retry settings. *)
Lemma call_with_retries_stops_witness :
  call_with_retries (fun i => fills_on_retry i long_order) (EvPlaceOrder long_order)
    3 [1; 3; 7]%Q
  = (Returned filled,
     [EvPlaceOrder long_order; EvSleep 1; EvPlaceOrder long_order]).
Proof.
  apply (call_with_retries_stops_at_first_answer _
           (fun i => fills_on_retry i long_order) (EvPlaceOrder long_order)
           3 [1; 3; 7]%Q 1%nat).
  - lia.
  - intros [|j] Hj; [| lia]. eexists. split; reflexivity.
  - intros (e & E & _). discriminate E.
  - repeat constructor; discriminate.
Defined.

(** A terminal that stays disconnected, under the default retry settings:
    the third schedule entry is never slept. *)
Lemma call_with_retries_gives_up_witness :
  fst (call_with_retries (fun i => never_connects i long_order)
         (EvPlaceOrder long_order) 3 [1; 3; 7]%Q)
  = Raised (BrokerDisconnectedError "MT5 not connected")
  /\ Z.of_nat (broker_calls
                 (snd (call_with_retries (fun i => never_connects i long_order)
                         (EvPlaceOrder long_order) 3 [1; 3; 7]%Q))) = 3
  /\ sleeps (snd (call_with_retries (fun i => never_connects i long_order)
                    (EvPlaceOrder long_order) 3 [1; 3; 7]%Q))
     = [1; 3]%Q.
Proof.
  apply (proj2 (call_with_retries_gives_up_after_max_attempts _
                  (fun i => never_connects i long_order) long_order 3
                  [1; 3; 7]%Q)).
  - lia.
  - intros j _. eexists. split; reflexivity.
  - repeat constructor; discriminate.
Defined.

(** The fill after one missing tick, traced back to its invocation. *)
Lemma call_with_retries_result_witness :
  exists i : nat,
    Z.of_nat i < 3
    /\ fills_on_retry i long_order = Returned filled
    /\ (forall j, (j < i)%nat -> transient (fills_on_retry j long_order))
    /\ [EvPlaceOrder long_order; EvSleep 1; EvPlaceOrder long_order]
       = retry_trace (EvPlaceOrder long_order) [1; 3; 7]%Q 1 i.
Proof.
  exact (call_with_retries_result_is_an_answer _
           (fun i => fills_on_retry i long_order) (EvPlaceOrder long_order)
           3 [1; 3; 7]%Q filled _ eq_refl).
Defined.

(** The default schedule at its second entry and beyond its end. *)
Lemma backoff_delay_saturates_witness :
  nth_error [1; 3; 7]%Q 1 = Some (backoff_delay [1; 3; 7]%Q 2)
  /\ backoff_delay [1; 3; 7]%Q 5 = 7%Q.
Proof.
  split.
  - apply (proj1 (proj2 (backoff_delay_saturates [1; 3; 7]%Q 2 ltac:(lia)))).
    simpl. lia.
  - apply (proj2 (proj2 (backoff_delay_saturates [1; 3; 7]%Q 5 ltac:(lia)))).
    + discriminate.
    + simpl. lia.
Defined.

End RetryProps.
(** ** The executor past its gates *)

Module DispatchProps.
Import Connector Num Config Format Constants Persistence Execution ExecutionSpec
  DispatchSpec Examples Scenarios.

Lemma update_decision_last (rows : list DecisionRow) (row : DecisionRow)
  (key st : string) (doc : option ResultDoc) :
  has_key rows key = false -> idempotency_key row = key ->
  update_decision (rows ++ [row]) key st doc
  = (rows ++ [with_verdict row st doc])%list.
Proof.
  intros H <-. unfold update_decision. rewrite map_app.
  fold (update_decision rows (idempotency_key row) st doc).
  rewrite ExecutionProps.update_decision_absent by exact H.
  cbn [map]. now rewrite String.eqb_refl.
Qed.

Lemma gate_passes_not_refused (ai : option AccountInfo) :
  gate_passes ai = true ->
  match ai with
  | Some info => if negb (paper_account (trade_mode info)) then Some info else None
  | None => None
  end = None.
Proof.
  destruct ai as [info|]; [| reflexivity]. simpl. now intros ->.
Qed.

Lemma retry_loop_events {T : Type} (fn : nat -> outcome T) (ev : event)
  (max : Z) (backoff : list Q) (remaining : nat) :
  forall (attempt : Z) (last : option exn),
    Forall (fun e => e = ev \/ exists d, e = EvSleep d)
      (snd (retry_loop fn ev max backoff remaining attempt last)).
Proof.
  induction remaining as [|k IH]; intros attempt last; cbn [retry_loop].
  - constructor.
  - destruct (fn (Z.to_nat (attempt - 1))) as [r|e];
      [repeat constructor; now left |].
    destruct (retryable e); [| repeat constructor; now left].
    destruct (max <=? attempt); [repeat constructor; now left |].
    destruct (Qlt_bool (backoff_delay backoff attempt) 0);
      [repeat constructor; now left |].
    specialize (IH (attempt + 1) (Some e)).
    destruct (retry_loop fn ev max backoff k (attempt + 1) (Some e)) as [o evs].
    cbn [snd] in *. constructor; [now left |].
    constructor; [right; eexists; reflexivity | exact IH].
Qed.

Lemma retries_never_list_positions {T : Type} (fn : nat -> outcome T)
  (req : OrderRequest) (max : Z) (backoff : list Q) :
  ~ In EvListPositions
      (snd (call_with_retries fn (EvPlaceOrder req) max backoff)).
Proof.
  unfold call_with_retries. intros Hin.
  pose proof (retry_loop_events fn (EvPlaceOrder req) max backoff (Z.to_nat max)
                1 None) as Hall.
  rewrite List.Forall_forall in Hall.
  destruct (Hall _ Hin) as [H | [d H]]; discriminate H.
Qed.

(** X7. The [decisions] table under [try_insert] and the executor's UPDATE:
    an insert is accepted exactly when the key is new, a refused insert
    leaves the table as it was, after either the key is present and a
    second insert under it is refused; both operations keep at most one row
    per key, and the UPDATE sets status and result of the rows under its
    key and of no other row. *)
Theorem decision_store_keeps_one_row_per_key :
  forall (rows : list DecisionRow) (row : DecisionRow),
    snd (try_insert rows row) = negb (has_key rows (idempotency_key row))
    /\ (snd (try_insert rows row) = false -> fst (try_insert rows row) = rows)
    /\ has_key (fst (try_insert rows row)) (idempotency_key row) = true
    /\ (forall row',
          idempotency_key row' = idempotency_key row ->
          try_insert (fst (try_insert rows row)) row'
          = (fst (try_insert rows row), false))
    /\ (unique_keys rows -> unique_keys (fst (try_insert rows row)))
    /\ (forall key st doc,
          unique_keys rows -> unique_keys (update_decision rows key st doc))
    /\ (forall key st doc,
          length (update_decision rows key st doc) = length rows
          /\ (forall r, In r (update_decision rows key st doc) ->
                 idempotency_key r = key -> status r = st /\ result_json r = doc)
          /\ (forall r, In r rows -> idempotency_key r <> key ->
                 In r (update_decision rows key st doc))).
Proof.
  intros rows row.
  assert (Hafter : has_key (fst (try_insert rows row)) (idempotency_key row) = true).
  { unfold try_insert.
    destruct (has_key rows (idempotency_key row)) eqn:Hk; cbn [fst]; [exact Hk |].
    rewrite ExecutionProps.has_key_app. cbn [has_key existsb with_id idempotency_key].
    rewrite String.eqb_refl. now rewrite orb_true_r. }
  split; [unfold try_insert; now destruct (has_key rows _) |].
  split; [unfold try_insert; now destruct (has_key rows _) |].
  split; [exact Hafter |].
  split.
  { intros row' Hk. unfold try_insert at 1. rewrite Hk, Hafter. reflexivity. }
  split.
  { intros Hu. unfold try_insert.
    destruct (has_key rows (idempotency_key row)) eqn:Hk; cbn [fst]; [exact Hu |].
    apply ExecutionProps.unique_keys_insert; [exact Hu | exact Hk]. }
  split.
  { intros key st doc Hu key'. rewrite ExecutionProps.rows_of_update, length_map.
    apply Hu. }
  intros key st doc. unfold update_decision. split; [apply length_map |]. split.
  - intros r Hin Hk. apply in_map_iff in Hin. destruct Hin as (r0 & <- & _).
    destruct (String.eqb (idempotency_key r0) key) eqn:E.
    + split; reflexivity.
    + apply String.eqb_neq in E. contradiction.
  - intros r Hin Hk. apply in_map_iff. exists r. split; [| exact Hin].
    apply String.eqb_neq in Hk. now rewrite Hk.
Qed.

Section Dispatch.

Variable F : Renderer.
Variable cfg : AppConfig.

Ltac pass_gates Hen Hai Hgate Hkey :=
  rewrite Hen, Hai; cbn [negb];
  rewrite (gate_passes_not_refused _ Hgate);
  unfold try_insert; cbn [idempotency_key skipped_row decisions emit];
  rewrite Hkey; cbn [negb].

Ltac finish Hcall Hkey Hs :=
  cbn zeta; rewrite Hcall;
  cbn [fst snd decisions trace _update_decision set_decisions emit report
       rep_success rep_order rep_result rep_reason action];
  rewrite update_decision_last by (exact Hkey || reflexivity);
  rewrite ?Hs, ?app_nil_r, <- ?app_assoc;
  repeat match goal with |- _ /\ _ => split end;
  try reflexivity; try (intros; discriminate); try (intros; split; reflexivity).

(** X5. An attempt that passes the three gates (trading enabled, a paper
    account or none, a fresh idempotency key) appends exactly one row under
    its key and hands one order to the retry wrapper.  The row stores that
    order; the order carries the configured magic number and slippage, the key
    and the comment ["tb:"] plus the first twelve characters of the key, and
    names a position only on a close.  The report succeeds exactly when the
    wrapper returns a result the broker marked successful; the row then
    reads opened (or closed), and reads error after a failed result or an
    exception, whose [str(exc)] becomes the reason: its message, or for a
    [KeyError] the repr of its argument. *)
Theorem dispatched_attempt_records_broker_verdict :
  forall (b : Broker) (a : DecisionArgs) (t : attempt) (w : World)
         (ai : option AccountInfo),
    trading_enabled (execution cfg) = true ->
    account_info b = Returned ai ->
    gate_passes ai = true ->
    has_key (decisions w) (arg_idempotency_key a) = false ->
    exists (req : OrderRequest) (row : DecisionRow) (r : ExecutionReport)
           (after : list event),
      let run := call_with_retries (fun i => place_order b i req) (EvPlaceOrder req)
                   (max_attempts (retries (execution cfg)))
                   (backoff_seconds (retries (execution cfg))) in
      snd (run_attempt F cfg b a t w) = Returned r
      /\ decisions (fst (run_attempt F cfg b a t w)) = (decisions w ++ [row])%list
      /\ trace (fst (run_attempt F cfg b a t w))
         = (trace w ++ EvAccountInfo :: snd run ++ after)%list
      /\ idempotency_key row = arg_idempotency_key a
      /\ order_json row = Some req
      /\ rep_order r = Some req
      /\ action r = action_of t
      /\ req_symbol req = arg_symbol a
      /\ req_magic req = magic_number (execution cfg)
      /\ deviation_points req = slippage_points (execution cfg)
      /\ req_idempotency_key req = arg_idempotency_key a
      /\ req_comment req = "tb:" ++ String.substring 0 12 (arg_idempotency_key a)
      /\ req_position_id req = closes t
      /\ match fst run with
         | Returned o =>
             rep_success r = success o
             /\ status row
                = (if success o then done_status t else DECISION_STATUS_ERROR)
             /\ rep_result r = Some (raw o)
             /\ (success o = false ->
                 after = []
                 /\ rep_reason r = "retcode=" ++ str_opt_int F (retcode o))
         | Raised e =>
             rep_success r = false
             /\ status row = DECISION_STATUS_ERROR
             /\ rep_reason r = str_exn F e
             /\ rep_result r = None
             /\ after = []
         end.
Proof.
  intros b a t w ai Hen Hai Hgate Hkey.
  destruct t as [side volume sl tp qb qa | pid side volume reason];
    cbn [run_attempt action_of closes done_status].
  - unfold open_trade. pass_gates Hen Hai Hgate Hkey.
    match goal with
    | |- context [call_with_retries ?f ?e ?m ?bk] =>
        destruct (call_with_retries f e m bk) as [res evs] eqn:Hcall
    end.
    destruct res as [o|e]; [destruct (success o) eqn:Hs |]; cbn [negb fst snd].
    all: match type of Hcall with
         | call_with_retries _ (EvPlaceOrder ?rq) _ _ = _ => exists rq
         end.
    + match goal with
      | |- context [_verify_open cfg b ?w' ?s] =>
          destruct (ExecutionProps.verify_open_shape cfg b w' s) as (after & Hv & _);
          rewrite Hv
      end.
      eexists. eexists. exists after. finish Hcall Hkey Hs.
    + eexists. eexists. exists []. finish Hcall Hkey Hs.
    + eexists. eexists. exists []. finish Hcall Hkey Hkey.
  - unfold close_trade. pass_gates Hen Hai Hgate Hkey.
    match goal with
    | |- context [call_with_retries ?f ?e ?m ?bk] =>
        destruct (call_with_retries f e m bk) as [res evs] eqn:Hcall
    end.
    destruct res as [o|e]; [destruct (success o) eqn:Hs |]; cbn [negb fst snd].
    all: match type of Hcall with
         | call_with_retries _ (EvPlaceOrder ?rq) _ _ = _ => exists rq
         end.
    + match goal with
      | |- context [_verify_closed b ?w' ?s] =>
          destruct (ExecutionProps.verify_closed_shape b w' s) as (after & Hv & _);
          rewrite Hv
      end.
      eexists. eexists. exists after. finish Hcall Hkey Hs.
    + eexists. eexists. exists []. finish Hcall Hkey Hs.
    + eexists. eexists. exists []. finish Hcall Hkey Hkey.
Qed.

Ltac not_verified :=
  split; [reflexivity |]; split; [reflexivity |]; split; [reflexivity |];
  let evs := fresh "evs" in
  let H := fresh "H" in
  let Hin := fresh "Hin" in
  intros evs H;
  cbn [trace decisions emit set_decisions _update_decision] in H;
  rewrite <- ?app_assoc in H; apply app_inv_head in H; subst evs;
  split;
  [ intros Hin; exfalso;
    repeat (apply in_app_or in Hin; destruct Hin as [Hin | Hin]);
    try (now (simpl in Hin; intuition discriminate));
    try contradiction
  | let r := fresh "r" in
    let Hr := fresh "Hr" in
    let Hs' := fresh "Hs'" in
    intros (r & Hr & Hs');
    first [ discriminate Hr | injection Hr as <-; discriminate Hs' ] ].

Ltac disabled :=
  split; [reflexivity |]; split; [reflexivity |]; split; [reflexivity |];
  let evs := fresh "evs" in
  let H := fresh "H" in
  intros evs H; rewrite <- (app_nil_r (trace _)) in H at 1;
  apply app_inv_head in H; subst evs;
  split; [intros [] |];
  let r := fresh "r" in
  let Hr := fresh "Hr" in
  let Hs' := fresh "Hs'" in
  intros (r & Hr & Hs'); injection Hr as <-; discriminate Hs'.

Ltac verified :=
  split; [reflexivity |]; split; [reflexivity |];
  split;
  [ cbn [trace decisions emit set_decisions _update_decision];
    unfold without_logs; rewrite !List.filter_app;
    cbn [List.filter is_log negb]; rewrite ?app_nil_r; reflexivity |];
  let evs := fresh "evs" in
  let H := fresh "H" in
  intros evs H;
  cbn [trace decisions emit set_decisions _update_decision] in H;
  rewrite <- ?app_assoc in H; apply app_inv_head in H; subst evs;
  split;
  [ intros _; eexists; split; reflexivity
  | intros _; apply in_or_app; right; apply in_or_app; right;
    simpl; tauto ].

(** X6. What [list_positions] answers after a trade changes neither the
    report nor the stored decisions, only the log lines of the trace; and
    the executor asks for the positions exactly when it reports a success. *)
Theorem post_trade_verification_only_observes :
  forall (b : Broker) (a : DecisionArgs) (t : attempt) (w : World)
         (answer answer' : outcome (list Position)),
    let out := run_attempt F cfg (with_positions b answer) a t w in
    let out' := run_attempt F cfg (with_positions b answer') a t w in
    snd out = snd out'
    /\ decisions (fst out) = decisions (fst out')
    /\ without_logs (trace (fst out)) = without_logs (trace (fst out'))
    /\ (forall evs, trace (fst out) = (trace w ++ evs)%list ->
          (In EvListPositions evs
           <-> exists r, snd out = Returned r /\ rep_success r = true)).
Proof.
  intros b a t w answer answer' out out'. subst out out'.
  destruct t as [side volume sl tp qb qa | pid side volume reason];
    cbn [run_attempt].
  - unfold open_trade. cbn [account_info place_order utc_iso with_positions].
    destruct (trading_enabled (execution cfg)); cbn [negb fst snd];
      [| disabled].
    destruct (account_info b) as [ai|e]; cbn [fst snd]; [| not_verified].
    destruct (match ai with
              | Some info =>
                  if negb (paper_account (trade_mode info)) then Some info else None
              | None => None
              end) as [info|]; cbn [fst snd]; [not_verified |].
    unfold try_insert, skipped_row;
      cbn [idempotency_key decisions emit utc_iso with_positions].
    destruct (has_key (decisions w) (arg_idempotency_key a));
      cbn [negb fst snd]; [not_verified |].
    match goal with
    | |- context [call_with_retries ?f (EvPlaceOrder ?rq) ?m ?bk] =>
        pose proof (retries_never_list_positions f rq m bk) as Hnever;
        destruct (call_with_retries f (EvPlaceOrder rq) m bk) as [res evs]
    end.
    cbn [snd] in Hnever.
    destruct res as [o|e]; [destruct (success o) eqn:Hs |]; cbn [negb fst snd];
      [| not_verified | not_verified].
    unfold _verify_open; cbn [list_positions with_positions].
    destruct answer as [ps|e]; [destruct (existsb _ ps) |];
      (destruct answer' as [ps'|e']; [destruct (existsb _ ps') |]); verified.
  - unfold close_trade. cbn [account_info place_order utc_iso with_positions].
    destruct (trading_enabled (execution cfg)); cbn [negb fst snd];
      [| disabled].
    destruct (account_info b) as [ai|e]; cbn [fst snd]; [| not_verified].
    destruct (match ai with
              | Some info =>
                  if negb (paper_account (trade_mode info)) then Some info else None
              | None => None
              end) as [info|]; cbn [fst snd]; [not_verified |].
    unfold try_insert, skipped_row;
      cbn [idempotency_key decisions emit utc_iso with_positions].
    destruct (has_key (decisions w) (arg_idempotency_key a));
      cbn [negb fst snd]; [not_verified |].
    match goal with
    | |- context [call_with_retries ?f (EvPlaceOrder ?rq) ?m ?bk] =>
        pose proof (retries_never_list_positions f rq m bk) as Hnever;
        destruct (call_with_retries f (EvPlaceOrder rq) m bk) as [res evs]
    end.
    cbn [snd] in Hnever.
    destruct res as [o|e]; [destruct (success o) eqn:Hs |]; cbn [negb fst snd];
      [| not_verified | not_verified].
    unfold _verify_closed; cbn [list_positions with_positions].
    destruct answer as [ps|e]; [destruct (existsb _ ps) |];
      (destruct answer' as [ps'|e']; [destruct (existsb _ ps') |]); verified.
Qed.

End Dispatch.

(** A fill on a demo account: the row ends as opened and the report is a
    success. *)
Lemma dispatched_attempt_witness :
  exists (row : DecisionRow) (r : ExecutionReport),
    snd (run_attempt terse trading_config (broker_on DEMO fills) (long_args "c1")
           long_attempt empty_world) = Returned r
    /\ decisions (fst (run_attempt terse trading_config (broker_on DEMO fills)
                         (long_args "c1") long_attempt empty_world)) = [row]
    /\ status row = DECISION_STATUS_OPENED
    /\ rep_success r = true.
Proof.
  destruct (dispatched_attempt_records_broker_verdict terse trading_config
              (broker_on DEMO fills) (long_args "c1") long_attempt empty_world
              (Some (account DEMO (Some 1000%Q)))
              eq_refl eq_refl eq_refl eq_refl)
    as (req & row & r & after & H).
  cbn zeta in H.
  destruct H as (Hout & Hrows & _ & _ & _ & _ & _ & _ & _ & _ & _ & _ & _ & Hres).
  unfold call_with_retries in Hres. cbn in Hres.
  destruct Hres as (Hs & Hst & _).
  exists row, r. split; [exact Hout |]. split; [exact Hrows |].
  split; [exact Hst | exact Hs].
Defined.

End DispatchProps.

(** ** Counting positions and measuring losses *)

Module LimitsProps.
Import Connector Num Config Limits CountSpec Examples NumProps.

Lemma count_fold (magic : option Z) (positions : list Position) :
  forall acc : PositionCounts,
    total (fold_left (count_step magic) positions acc)
    = total acc + Z.of_nat (length (counted magic positions))
    /\ forall sym,
         default 0 (per_symbol (fold_left (count_step magic) positions acc) !! sym)
         = default 0 (per_symbol acc !! sym)
           + Z.of_nat (length (on_symbol sym (counted magic positions))).
Proof.
  induction positions as [|p rest IH]; intros acc; cbn [fold_left counted List.filter].
  - cbn [length on_symbol List.filter]. split; [lia | intros; lia].
  - fold (counted magic rest).
    assert (Hstep : count_step magic acc p
                    = if other_magic magic (pos_magic p) then acc
                      else {| total := total acc + 1;
                              per_symbol :=
                                <[ pos_symbol p :=
                                     default 0 (per_symbol acc !! pos_symbol p) + 1 ]>
                                  (per_symbol acc) |}) by reflexivity.
    destruct (IH (count_step magic acc p)) as [Ht Hs].
    destruct (other_magic magic (pos_magic p)) eqn:E; cbn [negb];
      rewrite Hstep in Ht, Hs; rewrite Hstep.
    + split; [exact Ht | exact Hs].
    + cbn [total per_symbol] in Ht, Hs. cbn [length]. split; [lia |].
      intros sym. rewrite Hs. cbn [on_symbol List.filter].
      fold (on_symbol sym (counted magic rest)).
      destruct (String.eqb (pos_symbol p) sym) eqn:Es.
      * apply String.eqb_eq in Es. subst sym. rewrite lookup_insert_eq.
        cbn [length]. rewrite Nat2Z.inj_succ.
        change (default 0 (Some ?x)) with x. lia.
      * apply String.eqb_neq in Es. rewrite lookup_insert_ne by exact Es. lia.
Qed.

Lemma count_fold_entries (magic : option Z) (positions : list Position) :
  forall acc : PositionCounts,
    (forall sym n, per_symbol acc !! sym = Some n -> 1 <= n) ->
    forall sym n,
      per_symbol (fold_left (count_step magic) positions acc) !! sym = Some n ->
      1 <= n.
Proof.
  induction positions as [|p rest IH]; intros acc Hacc; cbn [fold_left];
    [exact Hacc |].
  apply IH. intros sym n. unfold count_step.
  destruct (other_magic magic (pos_magic p)); [apply Hacc |].
  cbn [per_symbol]. destruct (String.eqb (pos_symbol p) sym) eqn:Es.
  - apply String.eqb_eq in Es. subst sym. rewrite lookup_insert_eq.
    intros [= <-]. destruct (per_symbol acc !! pos_symbol p) as [m|] eqn:Em.
    + specialize (Hacc _ _ Em). change (default 0 (Some m)) with m. lia.
    + change (default 0 (@None Z)) with 0. lia.
  - apply String.eqb_neq in Es. rewrite lookup_insert_ne by exact Es.
    apply Hacc.
Qed.

Lemma count_positions_view (positions : list Position) (magic : option Z) :
  total (count_positions positions magic)
  = Z.of_nat (length (counted magic positions))
  /\ forall sym,
       default 0 (per_symbol (count_positions positions magic) !! sym)
       = Z.of_nat (length (on_symbol sym (counted magic positions))).
Proof.
  unfold count_positions.
  destruct (count_fold magic positions {| total := 0; per_symbol := ∅ |})
    as [Ht Hs].
  cbn [total per_symbol] in Ht, Hs. split; [rewrite Ht; lia |].
  intros sym. rewrite Hs, lookup_empty. reflexivity.
Qed.

Lemma counted_none (positions : list Position) :
  counted None positions = positions.
Proof.
  unfold counted. induction positions as [|p rest IH]; [reflexivity |].
  simpl. now f_equal.
Qed.

(** X8. [count_positions] counts exactly the positions it does not skip, those
    that carry no magic number or the given one: [total] is their number,
    the entry of a symbol is the number of them on that symbol, a symbol
    without any has no entry, no entry is below one or above [total], and
    without a magic filter every position counts. *)
Theorem count_positions_counts_what_it_keeps :
  forall (positions : list Position) (magic : option Z),
    let counts := count_positions positions magic in
    total counts = Z.of_nat (length (counted magic positions))
    /\ (forall sym,
          default 0 (per_symbol counts !! sym)
          = Z.of_nat (length (on_symbol sym (counted magic positions))))
    /\ (forall sym n, per_symbol counts !! sym = Some n -> 1 <= n <= total counts)
    /\ (forall sym,
          per_symbol counts !! sym = None
          <-> on_symbol sym (counted magic positions) = [])
    /\ (magic = None -> counted magic positions = positions).
Proof.
  intros positions magic counts. subst counts. unfold count_positions.
  destruct (count_fold magic positions {| total := 0; per_symbol := ∅ |})
    as [Ht Hs].
  cbn [total per_symbol] in Ht, Hs.
  assert (Hone : forall sym n,
             per_symbol (fold_left (count_step magic) positions
                           {| total := 0; per_symbol := ∅ |}) !! sym = Some n ->
             1 <= n).
  { apply count_fold_entries. intros sym n. cbn [per_symbol].
    rewrite lookup_empty. discriminate. }
  split; [rewrite Ht; lia |].
  split; [intros sym; rewrite Hs, lookup_empty; reflexivity |].
  split.
  { intros sym n Hn. split; [exact (Hone _ _ Hn) |].
    specialize (Hs sym). rewrite Hn, lookup_empty in Hs.
    change (default 0 (Some n)) with n in Hs.
    change (default 0 (@None Z)) with 0 in Hs.
    rewrite Ht, Hs. unfold on_symbol.
    pose proof (List.filter_length_le
                  (fun p => String.eqb (pos_symbol p) sym)
                  (counted magic positions)). lia. }
  split.
  { intros sym. specialize (Hs sym). rewrite lookup_empty in Hs.
    change (default 0 (@None Z)) with 0 in Hs. split.
    - intros Hnone. rewrite Hnone in Hs.
      change (default 0 (@None Z)) with 0 in Hs.
      destruct (on_symbol sym (counted magic positions)); [reflexivity |].
      cbn [length] in Hs. lia.
    - intros Hnil. rewrite Hnil in Hs. cbn [length] in Hs.
      destruct (per_symbol _ !! sym) as [n|] eqn:En; [| reflexivity].
      specialize (Hone _ _ En). change (default 0 (Some n)) with n in Hs. lia. }
  intros ->. apply counted_none.
Qed.

Local Open Scope Q_scope.

Lemma py_max_zero (x : Q) :
  (x <= 0 /\ py_max 0 x = 0) \/ (0 < x /\ py_max 0 x = x).
Proof.
  unfold py_max. destruct (Qlt_bool 0 x) eqn:E.
  - right. split; [now apply Qlt_bool_true | reflexivity].
  - left. split; [now apply Qlt_bool_false | reflexivity].
Qed.

Lemma drawdown_cases (peak equity : Q) :
  (peak <= 0 /\ drawdown_pct peak equity = 0)
  \/ (0 < peak /\ peak <= equity /\ drawdown_pct peak equity = 0)
  \/ (0 < peak /\ equity < peak
      /\ drawdown_pct peak equity = (peak - equity) / peak).
Proof.
  unfold drawdown_pct. destruct (Qle_bool peak 0) eqn:E.
  - left. split; [now apply Qle_bool_iff | reflexivity].
  - apply Qle_bool_false in E. right.
    destruct (py_max_zero ((peak - equity) / peak)) as [[Hx ->] | [Hx ->]].
    + left. split; [exact E |]. split; [| reflexivity].
      destruct (Qlt_le_dec equity peak) as [Hlt | Hle]; [| exact Hle].
      exfalso. assert (Hpos : 0 < (peak - equity) / peak).
      { apply Qlt_shift_div_l; [exact E | lra]. }
      lra.
    + right. split; [exact E |]. split; [| reflexivity].
      destruct (Qlt_le_dec equity peak) as [Hlt | Hle]; [exact Hlt |].
      exfalso. assert (Hneg : (peak - equity) / peak <= 0).
      { apply Qle_shift_div_r; [exact E | lra]. }
      lra.
Qed.

(** X9. [drawdown_pct] is never negative, is zero for a non-positive peak and
    for an equity at or above the peak, is the relative shortfall below a
    positive peak, stays at or below one while the equity is not negative,
    and never grows when the equity does; [daily_loss_pct] is the same
    function of the day's starting equity. *)
Theorem loss_percentages_are_bounded :
  forall peak equity : Q,
    0 <= drawdown_pct peak equity
    /\ (peak <= 0 \/ peak <= equity -> drawdown_pct peak equity = 0)
    /\ (0 < peak -> equity <= peak ->
        drawdown_pct peak equity == (peak - equity) / peak)
    /\ (0 < peak -> 0 <= equity -> drawdown_pct peak equity <= 1)
    /\ (forall higher, equity <= higher ->
          drawdown_pct peak higher <= drawdown_pct peak equity)
    /\ daily_loss_pct peak equity = drawdown_pct peak equity.
Proof.
  intros peak equity.
  assert (Hdiv : forall e, 0 < peak -> e < peak -> 0 < (peak - e) / peak).
  { intros e Hp He. apply Qlt_shift_div_l; [exact Hp | lra]. }
  split.
  { destruct (drawdown_cases peak equity)
      as [[_ ->] | [(_ & _ & ->) | (Hp & He & ->)]]; try lra.
    apply Qlt_le_weak. now apply Hdiv. }
  split.
  { intros H.
    destruct (drawdown_cases peak equity)
      as [[_ ->] | [(_ & _ & ->) | (Hp & He & _)]]; try reflexivity.
    exfalso. destruct H; lra. }
  split.
  { intros Hp He.
    destruct (drawdown_cases peak equity)
      as [[Hn _] | [(_ & Hge & ->) | (_ & _ & ->)]]; [lra | | reflexivity].
    assert (E : equity == peak) by lra. rewrite E. field. lra. }
  split.
  { intros Hp He.
    destruct (drawdown_cases peak equity)
      as [[_ ->] | [(_ & _ & ->) | (_ & _ & ->)]]; try lra.
    apply Qle_shift_div_r; [exact Hp | lra]. }
  split.
  { intros higher Hh.
    destruct (drawdown_cases peak higher)
      as [[Hn ->] | [(_ & Hge & ->) | (Hp & Hlt & ->)]].
    - destruct (drawdown_cases peak equity)
        as [[_ ->] | [(_ & _ & ->) | (Hp & He & _)]]; lra.
    - destruct (drawdown_cases peak equity)
        as [[_ ->] | [(_ & _ & ->) | (Hp & He & ->)]]; try lra.
      apply Qlt_le_weak. now apply Hdiv.
    - destruct (drawdown_cases peak equity)
        as [[Hn _] | [(_ & Hge & _) | (_ & He & ->)]]; try lra.
      apply Qle_shift_div_r; [exact Hp |].
      assert (E : (peak - equity) / peak * peak == peak - equity) by (field; lra).
      rewrite E. lra. }
  reflexivity.
Qed.

End LimitsProps.

(** ** The entry check as a whole *)

Module EntryProps.
Import Connector Num Config Limits Sizing Sltp Format Risk CountSpec Examples
  NumProps.

Section Entry.

Variable F : Renderer.
Variable cfg : AppConfig.

Local Open Scope Q_scope.

Lemma compute_volume_ok (equity risk_per_trade stop_points : Q)
  (symbol : SymbolMeta) :
  ok (compute_volume equity risk_per_trade stop_points symbol) = true ->
  0 < equity
  /\ 0 < stop_points
  /\ exists v, volume (compute_volume equity risk_per_trade stop_points symbol)
               = Some v /\ 0 < v.
Proof.
  unfold compute_volume.
  destruct (Qle_bool equity 0) eqn:He; [discriminate |].
  destruct (Qle_bool stop_points 0) eqn:Hs; [discriminate |].
  destruct (_ || _ || _); [discriminate |].
  destruct (Qle_bool (_ / _) 0); [discriminate |].
  match goal with
  | |- context [if Qle_bool ?v 0 then _ else _] =>
      destruct (Qle_bool v 0) eqn:Hv; [discriminate |]
  end.
  intros _. apply Qle_bool_false in He, Hs, Hv.
  split; [exact He |]. split; [exact Hs |]. eexists. split; [reflexivity | exact Hv].
Qed.

(** X10. [check_entry] allows an entry only past every gate: the side is long
    or short, the manager is not paused, the counted positions are below
    both limits, the symbol has a positive point and the account a positive
    equity; the decision then carries a positive volume, a stop and a
    target, and all three helpers have run. *)
Theorem check_entry_allows_only_past_every_gate :
  forall (st : RiskState) (symbol : string) (side : Side) (quote : Quote)
         (symbol_meta : SymbolMeta) (features : gmap string Q)
         (positions : list Position) (account : option AccountInfo),
    let d := fst (check_entry F cfg st symbol side quote symbol_meta features
                    positions account) in
    let held := counted (Some (magic_number (execution cfg))) positions in
    allowed d = true ->
    (side = LONG \/ side = SHORT)
    /\ paused st = false
    /\ (Z.of_nat (length held) < max_open_positions_total (risk cfg))%Z
    /\ (Z.of_nat (length (on_symbol symbol held))
        < max_open_positions_per_symbol (risk cfg))%Z
    /\ (exists pt, point symbol_meta = Some pt /\ 0 < pt)
    /\ (exists e, account_equity account = Some e /\ 0 < e)
    /\ (exists v s t,
          decision_volume d = Some v /\ 0 < v
          /\ decision_sl d = Some s /\ decision_tp d = Some t)
    /\ decision_side d = side
    /\ decision_reason d = "ok"%string
    /\ snd (check_entry F cfg st symbol side quote symbol_meta features
              positions account)
       = [StCountPositions; StComputeSltp; StComputeVolume].
Proof.
  intros st symbol side quote sm features positions account d held. subst d held.
  destruct (LimitsProps.count_positions_view positions
              (Some (magic_number (execution cfg)))) as (Ht & Hs).
  unfold check_entry.
  destruct (side_eqb side LONG || side_eqb side SHORT) eqn:Hside; cbn [negb fst];
    [| discriminate].
  destruct (paused st); [discriminate |].
  destruct (_ <=? total _)%Z eqn:Htot; [discriminate |].
  destruct (_ <=? default 0%Z _)%Z eqn:Hsym; [discriminate |].
  destruct (Qle_bool (or_zero (point sm)) 0) eqn:Hpt; [discriminate |].
  destruct (sl _) as [the_sl|]; [| discriminate].
  destruct (tp _) as [the_tp|]; [| discriminate].
  destruct (negb (ok _) || negb (truthy _)) eqn:Hvol; cbn [fst snd allowed];
    [discriminate |].
  intros _. apply orb_false_iff in Hvol. destruct Hvol as [Hok _].
  apply negb_false_iff in Hok.
  destruct (compute_volume_ok _ _ _ _ Hok) as (He & _ & v & Hv & Hvpos).
  split. { destruct side; [now left | now right | discriminate]. }
  split; [reflexivity |].
  split. { apply Z.leb_gt in Htot. rewrite Ht in Htot. exact Htot. }
  split. { apply Z.leb_gt in Hsym. rewrite Hs in Hsym. exact Hsym. }
  split. { apply Qle_bool_false in Hpt. destruct (point sm) as [pt|].
           - exists pt. split; [reflexivity | exact Hpt].
           - exfalso. cbn in Hpt. lra. }
  split. { destruct (account_equity account) as [e|].
           - exists e. split; [reflexivity | exact He].
           - exfalso. lra. }
  split. { exists v, the_sl, the_tp. cbn [decision_volume decision_sl decision_tp].
           split; [exact Hv |]. split; [exact Hvpos |]. split; reflexivity. }
  split; [reflexivity |]. split; reflexivity.
Qed.

(** X11. For an entry side and an unpaused manager, [check_entry] refuses as
    soon as the counted positions reach the total limit, and otherwise as
    soon as those on the symbol reach the per-symbol limit, in both cases
    before any level or volume is computed.  Hence, under a per-symbol limit
    of at most one, no entry is allowed on a symbol while the position list
    handed in still shows a counted position on it. *)
Theorem check_entry_refuses_at_position_limits :
  forall (st : RiskState) (symbol : string) (side : Side) (quote : Quote)
         (symbol_meta : SymbolMeta) (features : gmap string Q)
         (positions : list Position) (account : option AccountInfo),
    let held := counted (Some (magic_number (execution cfg))) positions in
    let n := Z.of_nat (length held) in
    let here := Z.of_nat (length (on_symbol symbol held)) in
    (side = LONG \/ side = SHORT) ->
    paused st = false ->
    ((max_open_positions_total (risk cfg) <= n)%Z ->
     check_entry F cfg st symbol side quote symbol_meta features positions account
     = (refuse ("max open positions reached (" ++ str_int F n ++ ")") side
          [("open_positions_total"%string, DInt n)],
        [StCountPositions]))
    /\ ((n < max_open_positions_total (risk cfg))%Z ->
        (max_open_positions_per_symbol (risk cfg) <= here)%Z ->
        check_entry F cfg st symbol side quote symbol_meta features positions
          account
        = (refuse ("max positions for symbol reached (" ++ symbol ++ ")") side
             [("open_positions_symbol"%string, DInt here)],
           [StCountPositions]))
    /\ (forall p,
          In p positions -> pos_symbol p = symbol ->
          other_magic (Some (magic_number (execution cfg))) (pos_magic p) = false ->
          (max_open_positions_per_symbol (risk cfg) <= 1)%Z ->
          allowed (fst (check_entry F cfg st symbol side quote symbol_meta
                          features positions account)) = false).
Proof.
  intros st symbol side quote sm features positions account held n here
    Hside Hpaused. subst held n here.
  destruct (LimitsProps.count_positions_view positions
              (Some (magic_number (execution cfg)))) as (Ht & Hs).
  assert (Hentry : negb (side_eqb side LONG || side_eqb side SHORT) = false)
    by (destruct Hside as [-> | ->]; reflexivity).
  assert (Htotal :
    (max_open_positions_total (risk cfg)
     <= Z.of_nat (length (counted (Some (magic_number (execution cfg)))
                            positions)))%Z ->
    check_entry F cfg st symbol side quote sm features positions account
    = (refuse ("max open positions reached ("
               ++ str_int F (Z.of_nat (length (counted
                    (Some (magic_number (execution cfg))) positions))) ++ ")")
         side
         [("open_positions_total"%string,
           DInt (Z.of_nat (length (counted (Some (magic_number (execution cfg)))
                                     positions))))],
       [StCountPositions])).
  { intros Hmax. unfold check_entry. rewrite Hentry, Hpaused, Ht.
    apply Z.leb_le in Hmax. now rewrite Hmax. }
  assert (Hsymbol :
    (Z.of_nat (length (counted (Some (magic_number (execution cfg))) positions))
     < max_open_positions_total (risk cfg))%Z ->
    (max_open_positions_per_symbol (risk cfg)
     <= Z.of_nat (length (on_symbol symbol
                            (counted (Some (magic_number (execution cfg)))
                               positions))))%Z ->
    check_entry F cfg st symbol side quote sm features positions account
    = (refuse ("max positions for symbol reached (" ++ symbol ++ ")") side
         [("open_positions_symbol"%string,
           DInt (Z.of_nat (length (on_symbol symbol
                                     (counted
                                        (Some (magic_number (execution cfg)))
                                        positions)))))],
       [StCountPositions])).
  { intros Hlt Hmax. unfold check_entry. rewrite Hentry, Hpaused, Ht, Hs.
    apply Z.leb_gt in Hlt. apply Z.leb_le in Hmax. now rewrite Hlt, Hmax. }
  split; [exact Htotal |]. split; [exact Hsymbol |].
  intros p Hin Hsym Hmagic Hone.
  assert (Hhere : (1 <= Z.of_nat (length (on_symbol symbol
                     (counted (Some (magic_number (execution cfg))) positions))))%Z).
  { assert (Hp : In p (on_symbol symbol
                         (counted (Some (magic_number (execution cfg))) positions))).
    { unfold on_symbol, counted. apply filter_In. split.
      - apply filter_In. split; [exact Hin | now rewrite Hmagic].
      - now apply String.eqb_eq. }
    destruct (on_symbol symbol _); [contradiction | cbn [length]; lia]. }
  destruct (Z_le_gt_dec (max_open_positions_total (risk cfg))
              (Z.of_nat (length (counted (Some (magic_number (execution cfg)))
                                   positions)))) as [Hge | Hlt].
  - now rewrite (Htotal Hge).
  - rewrite Hsymbol; [reflexivity | lia | lia].
Qed.

End Entry.

(** A first long entry with the defaults on the symbol with the binary grid,
    at an equity of 1024: the stop is a hundred points below the ask, and
    the half percent at risk buys 0.0512 lots, rounded down to three steps of
    a sixty-fourth. *)
Lemma check_entry_allows_witness :
  paused fresh_state = false
  /\ decision_volume
       (fst (check_entry terse default_config fresh_state "EURUSD" LONG
               binary_quote binary_symbol ∅ []
               (Some (account DEMO (Some 1024%Q)))))
     = Some (3 # 64)%Q
  /\ decision_sl
       (fst (check_entry terse default_config fresh_state "EURUSD" LONG
               binary_quote binary_symbol ∅ []
               (Some (account DEMO (Some 1024%Q)))))
     = Some (196408 # 131072)%Q
  /\ snd (check_entry terse default_config fresh_state "EURUSD" LONG
            binary_quote binary_symbol ∅ []
            (Some (account DEMO (Some 1024%Q))))
     = [StCountPositions; StComputeSltp; StComputeVolume].
Proof.
  destruct (check_entry_allows_only_past_every_gate terse default_config
              fresh_state "EURUSD" LONG binary_quote binary_symbol ∅ []
              (Some (account DEMO (Some 1024%Q))))
    as (_ & Hp & _ & _ & _ & _ & _ & _ & _ & Hst).
  - vm_compute. reflexivity.
  - split; [exact Hp |]. split; [vm_compute; reflexivity |].
    split; [vm_compute; reflexivity | exact Hst].
Defined.

(** A second entry on a symbol the bot already holds, under the default
    limit of one position per symbol. *)
Lemma check_entry_refuses_held_symbol_witness :
  check_entry terse default_config fresh_state "EURUSD" SHORT
    {| quote_symbol := "EURUSD"; bid := 1%Q; ask := (10002 # 10000)%Q;
       quote_time_utc := 0; quote_spread_points := 20%Q |}
    (eurusd (1 # 100) 100 (1 # 100)) ∅
    [position_with_magic "EURUSD" (Some 26012026)]
    (Some (account DEMO (Some 1000%Q)))
  = (refuse "max positions for symbol reached (EURUSD)" SHORT
       [("open_positions_symbol"%string, DInt 1)],
     [StCountPositions]).
Proof.
  apply (proj1 (proj2 (check_entry_refuses_at_position_limits terse default_config
                         fresh_state "EURUSD" SHORT
                         {| quote_symbol := "EURUSD"; bid := 1%Q;
                            ask := (10002 # 10000)%Q;
                            quote_time_utc := 0; quote_spread_points := 20%Q |}
                         (eurusd (1 # 100) 100 (1 # 100)) ∅
                         [position_with_magic "EURUSD" (Some 26012026)]
                         (Some (account DEMO (Some 1000%Q)))
                         (or_intror eq_refl) eq_refl))).
  - vm_compute. reflexivity.
  - vm_compute. discriminate.
Defined.

End EntryProps.

(** ** Stop-loss and take-profit levels *)

Module SltpProps.
Import Connector Num Config Limits Sizing Sltp Format Risk Examples NumProps.

Local Open Scope Q_scope.


Section Atr.

Variable F : Renderer.
Variable cfg : AppConfig.

(** X13. [check_entry] stops after computing the levels (the refusal "failed
    to compute SL/TP") only in ATR mode and only when the [atr14] feature is
    missing, zero or negative; in fixed-distance mode it never does. *)
Theorem check_entry_fails_sltp_only_without_atr :
  forall (st : RiskState) (symbol : string) (side : Side) (quote : Quote)
         (symbol_meta : SymbolMeta) (features : gmap string Q)
         (positions : list Position) (account : option AccountInfo),
    snd (check_entry F cfg st symbol side quote symbol_meta features positions
           account) = [StCountPositions; StComputeSltp] ->
    sltp_mode (risk cfg) = atr_mode
    /\ or_zero (features !! "atr14"%string) <= 0
    /\ fst (check_entry F cfg st symbol side quote symbol_meta features positions
              account) = refuse "failed to compute SL/TP" side [].
Proof.
  intros st symbol side quote sm features positions account.
  unfold check_entry.
  destruct (negb _); [discriminate |].
  destruct (paused st); [discriminate |].
  destruct (_ <=? total _)%Z; [discriminate |].
  destruct (_ <=? default 0%Z _)%Z; [discriminate |].
  destruct (Qle_bool (or_zero (point sm)) 0) eqn:Hpt; [discriminate |].
  unfold _compute_sltp.
  destruct (sltp_mode (risk cfg)).
  - unfold sltp_rr. rewrite Hpt.
    destruct (side_eqb side LONG); cbn [sl tp];
      destruct (negb _ || negb _); discriminate.
  - unfold sltp_atr.
    destruct (Qle_bool (or_zero (features !! "atr14"%string)) 0) eqn:Hatr.
    + cbn [sl tp no_sltp fst snd]. intros _.
      split; [reflexivity |]. split; [now apply Qle_bool_iff | reflexivity].
    + destruct (side_eqb side LONG); cbn [sl tp];
        destruct (negb _ || negb _); discriminate.
Qed.

End Atr.


(** The default configuration switched to ATR-based levels. *)
Lemma check_entry_fails_sltp_witness :
  fst (check_entry terse RiskScenarios.atr_config fresh_state "EURUSD" LONG
         {| quote_symbol := "EURUSD"; bid := 1%Q; ask := (10002 # 10000)%Q;
            quote_time_utc := 0; quote_spread_points := 20%Q |}
         (eurusd (1 # 100) 100 (1 # 100)) ∅ []
         (Some (account DEMO (Some 1000%Q))))
  = refuse "failed to compute SL/TP" LONG [].
Proof.
  apply (check_entry_fails_sltp_only_without_atr terse RiskScenarios.atr_config).
  vm_compute. reflexivity.
Defined.

End SltpProps.

(** ** The loss streak and the daily roll-over *)

Module RiskFlowProps.
Import Connector Num Config Limits Format Risk RiskSpec StreakSpec Examples
  NumProps.

Section Flow.

Variable F : Renderer.
Variable cfg : AppConfig.

Lemma on_deal_skips (m now : Z) (st : RiskState) (d : Deal) :
  bot_close m d = false -> on_deal cfg m now st d = st.
Proof.
  unfold bot_close, on_deal. intros H.
  destruct (other_magic (Some m) (deal_magic d)); [reflexivity |].
  cbn [negb andb] in H. now rewrite H.
Qed.

Lemma on_deal_close (m now : Z) (st : RiskState) (d : Deal) :
  bot_close m d = true ->
  on_deal cfg m now st d
  = let streak := if losing d then loss_streak st + 1 else 0 in
    {| paused := paused st; pause_reason := pause_reason st;
       cooloff_until_utc :=
         if enabled (cooloff (risk cfg)) && (losses (cooloff (risk cfg)) <=? streak)
         then Some (now + timedelta_minutes (minutes (cooloff (risk cfg))))
         else cooloff_until_utc st;
       loss_streak := streak; daily_date := daily_date st;
       daily_start_equity := daily_start_equity st;
       peak_equity := peak_equity st |}.
Proof.
  unfold bot_close, on_deal, losing. intros H.
  apply andb_true_iff in H. destruct H as [H1 H2].
  apply negb_true_iff in H1. rewrite H1, H2. reflexivity.
Qed.

Lemma trailing_when_mixed (d : Deal) (rest : list Deal) :
  forallb losing rest = false ->
  trailing_losses (d :: rest) = trailing_losses rest.
Proof. intros H. cbn [trailing_losses]. now rewrite H. Qed.

Lemma streak_from (m : Z) (clock : nat -> Z) (deals : list Deal) :
  forall (i : nat) (st : RiskState),
    loss_streak (on_new_deals_from cfg i clock m deals st)
    = if forallb losing (bot_closes m deals)
      then loss_streak st + Z.of_nat (length (bot_closes m deals))
      else Z.of_nat (trailing_losses (bot_closes m deals)).
Proof.
  induction deals as [|d rest IH]; intros i st; cbn [on_new_deals_from].
  - cbn. lia.
  - rewrite IH. unfold bot_closes. cbn [List.filter].
    destruct (bot_close m d) eqn:Hd.
    + rewrite on_deal_close by exact Hd. cbn zeta. cbn [loss_streak forallb].
      fold (bot_closes m rest).
      destruct (forallb losing (bot_closes m rest)) eqn:Hall.
      * destruct (losing d) eqn:Hl; cbn [andb].
        -- cbn [length]. lia.
        -- cbn [trailing_losses]. rewrite Hall, Hl. lia.
      * rewrite andb_false_r. now rewrite trailing_when_mixed.
    + rewrite on_deal_skips by exact Hd. reflexivity.
Qed.

Lemma untouched_from (m : Z) (clock : nat -> Z) (deals : list Deal) :
  forall (i : nat) (st : RiskState),
    let st' := on_new_deals_from cfg i clock m deals st in
    paused st' = paused st /\ pause_reason st' = pause_reason st
    /\ daily_date st' = daily_date st
    /\ daily_start_equity st' = daily_start_equity st
    /\ peak_equity st' = peak_equity st.
Proof.
  induction deals as [|d rest IH]; intros i st; cbn [on_new_deals_from].
  - now repeat split.
  - cbn zeta in IH |- *.
    destruct (IH (S i) (on_deal cfg m (clock i) st d)) as (-> & -> & -> & -> & ->).
    destruct (bot_close m d) eqn:Hd.
    + rewrite on_deal_close by exact Hd. now repeat split.
    + rewrite on_deal_skips by exact Hd. now repeat split.
Qed.

Lemma cooloff_from (m : Z) (clock : nat -> Z) (deals : list Deal) :
  forall (i : nat) (st : RiskState),
    let st' := on_new_deals_from cfg i clock m deals st in
    (cooloff_until_utc st' = cooloff_until_utc st
     \/ exists j, (i <= j < i + length deals)%nat
                  /\ cooloff_until_utc st'
                     = Some (clock j
                             + timedelta_minutes (minutes (cooloff (risk cfg)))))
    /\ (enabled (cooloff (risk cfg)) = false
        \/ (1 <= losses (cooloff (risk cfg))
            /\ existsb losing (bot_closes m deals) = false) ->
        cooloff_until_utc st' = cooloff_until_utc st).
Proof.
  induction deals as [|d rest IH]; intros i st; cbn [on_new_deals_from].
  - cbn zeta. split; [now left | reflexivity].
  - cbn zeta in IH |- *.
    destruct (IH (S i) (on_deal cfg m (clock i) st d)) as [Hor Hkeep].
    destruct (bot_close m d) eqn:Hd.
    + split.
      * destruct Hor as [-> | (j & Hj & ->)].
        -- rewrite on_deal_close by exact Hd. cbn zeta. cbn [cooloff_until_utc].
           destruct (_ && _); [| now left].
           right. exists i. split; [cbn [length]; lia | reflexivity].
        -- right. exists j. split; [cbn [length]; lia | reflexivity].
      * unfold bot_closes. cbn [List.filter]. rewrite Hd. cbn [existsb].
        fold (bot_closes m rest). intros H. rewrite Hkeep.
        -- rewrite on_deal_close by exact Hd. cbn zeta. cbn [cooloff_until_utc].
           destruct H as [-> | [Hone Hnone]]; [reflexivity |].
           apply orb_false_iff in Hnone. destruct Hnone as [-> _].
           replace (losses (cooloff (risk cfg)) <=? 0) with false
             by (symmetry; apply Z.leb_gt; lia).
           now rewrite andb_false_r.
        -- destruct H as [H | [Hone Hnone]]; [now left |].
           right. split; [exact Hone |].
           apply orb_false_iff in Hnone. tauto.
    + rewrite on_deal_skips in Hor, Hkeep |- * by exact Hd. split.
      * destruct Hor as [-> | (j & Hj & ->)]; [now left |].
        right. exists j. split; [cbn [length]; lia | reflexivity].
      * unfold bot_closes. cbn [List.filter]. rewrite Hd. exact Hkeep.
Qed.

(** X14. After [on_new_deals] the loss streak is the number of losing closes at
    the end of the batch's closes that do not carry another magic number,
    added to the previous streak when all of them lost.  The call changes
    nothing else but the cooloff end, which it either keeps or sets to one
    of its clock readings plus the configured minutes, and keeps for sure
    when the cooloff is disabled or, for a threshold of at least one, when
    no counted close lost. *)
Theorem on_new_deals_tracks_trailing_losses :
  forall (clock : nat -> Z) (deals : list Deal) (magic_number : Z)
         (st : RiskState),
    let st' := on_new_deals cfg clock deals magic_number st in
    let closes := bot_closes magic_number deals in
    loss_streak st'
    = (if forallb losing closes
       then loss_streak st + Z.of_nat (length closes)
       else Z.of_nat (trailing_losses closes))
    /\ (paused st' = paused st /\ pause_reason st' = pause_reason st
        /\ daily_date st' = daily_date st
        /\ daily_start_equity st' = daily_start_equity st
        /\ peak_equity st' = peak_equity st)
    /\ (cooloff_until_utc st' = cooloff_until_utc st
        \/ exists j, (j < length deals)%nat
                     /\ cooloff_until_utc st'
                        = Some (clock j
                                + timedelta_minutes
                                    (minutes (cooloff (risk cfg)))))
    /\ (enabled (cooloff (risk cfg)) = false
        \/ (1 <= losses (cooloff (risk cfg)) /\ existsb losing closes = false) ->
        cooloff_until_utc st' = cooloff_until_utc st).
Proof.
  intros clock deals m st st' closes. subst st' closes. unfold on_new_deals.
  split; [apply streak_from |]. split; [apply untouched_from |].
  destruct (cooloff_from m clock deals 0 st) as [Hor Hkeep].
  split; [| exact Hkeep].
  destruct Hor as [H | (j & Hj & H)]; [now left |].
  right. exists j. split; [lia | exact H].
Qed.

Lemma Qlt_bool_irrefl (q : Q) : Qlt_bool q q = false.
Proof. apply Qlt_bool_false. apply Qle_refl. Qed.

(** X15. [update_equity_state] leaves [daily_date] at the date it was given.
    On the stored date it keeps the day's starting equity, the loss streak
    and the cooloff; on any other date it clears streak and cooloff and
    restarts the day from the reported equity if that is positive, keeping
    the old start otherwise.  A second call with the same account, date and
    clock reading returns the same state and the same report as the first. *)
Theorem update_equity_state_rolls_the_day_once :
  forall (account : option AccountInfo) (date : string) (now : Z)
         (st : RiskState),
    let st' := fst (update_equity_state F cfg account date now st) in
    daily_date st' = Some date
    /\ (daily_date st = Some date ->
        daily_start_equity st' = daily_start_equity st
        /\ loss_streak st' = loss_streak st
        /\ cooloff_until_utc st' = cooloff_until_utc st)
    /\ (daily_date st <> Some date ->
        loss_streak st' = 0 /\ cooloff_until_utc st' = None
        /\ daily_start_equity st'
           = (if positive (account_equity account) then account_equity account
              else daily_start_equity st))
    /\ update_equity_state F cfg account date now st'
       = update_equity_state F cfg account date now st.
Proof.
  intros account date now st st'. subst st'.
  split.
  { unfold update_equity_state. cbn [fst daily_date].
    destruct (daily_date st) as [d|]; [| reflexivity].
    destruct (String.eqb d date) eqn:E; cbn [negb]; [| reflexivity].
    apply String.eqb_eq in E. now subst d. }
  split.
  { intros Hd. unfold update_equity_state. rewrite Hd, String.eqb_refl.
    cbn [negb andb fst daily_start_equity loss_streak cooloff_until_utc].
    now repeat split. }
  split.
  { intros Hd. unfold update_equity_state.
    assert (Hnew : match daily_date st with
                   | Some d => negb (String.eqb d date)
                   | None => true
                   end = true).
    { destruct (daily_date st) as [d|]; [| reflexivity].
      destruct (String.eqb d date) eqn:E; [| reflexivity].
      apply String.eqb_eq in E. subst d. contradiction. }
    rewrite Hnew.
    cbn [negb andb fst daily_start_equity loss_streak cooloff_until_utc].
    now repeat split. }
  destruct st as [pa pr co ls dd ds pk].
  unfold update_equity_state, positive.
  cbn [fst snd paused pause_reason cooloff_until_utc loss_streak daily_date
       daily_start_equity peak_equity].
  destruct (account_equity account) as [e|]; [destruct (Qlt_bool 0 e) eqn:He |];
    (destruct dd as [d|]; [destruct (String.eqb d date) eqn:Ed |]);
    (destruct pk as [p|]; [try destruct (Qlt_bool p e) eqn:Hp |]);
    cbn [negb andb];
    rewrite ?String.eqb_refl, ?Qlt_bool_irrefl, ?He, ?Hp, ?Ed; cbn [negb andb];
    rewrite ?String.eqb_refl, ?Qlt_bool_irrefl, ?He, ?Hp, ?Ed;
    reflexivity.
Qed.

End Flow.

End RiskFlowProps.

(** ** Sizing follows equity and stop distance *)

Module SizingFlowProps.
Import Connector Num Sizing Examples NumProps.

Local Open Scope Q_scope.

Lemma py_max_mono (a b c : Q) : a <= b -> py_max a c <= py_max b c.
Proof.
  intros H. unfold py_max.
  destruct (Qlt_bool a c) eqn:E1, (Qlt_bool b c) eqn:E2;
    try apply Qlt_bool_true in E1; try apply Qlt_bool_true in E2;
    try apply Qlt_bool_false in E1; try apply Qlt_bool_false in E2; lra.
Qed.

Lemma py_min_mono (a b c : Q) : a <= b -> py_min a c <= py_min b c.
Proof.
  intros H. unfold py_min.
  destruct (Qlt_bool c a) eqn:E1, (Qlt_bool c b) eqn:E2;
    try apply Qlt_bool_true in E1; try apply Qlt_bool_true in E2;
    try apply Qlt_bool_false in E1; try apply Qlt_bool_false in E2; lra.
Qed.

Lemma floor_to_step_mono (a b s : Q) :
  0 < s -> a <= b -> floor_to_step a s <= floor_to_step b s.
Proof.
  intros Hs H. unfold floor_to_step.
  apply Qmult_le_compat_r; [| lra].
  rewrite <- Zle_Qle. apply Qfloor_resp_le.
  apply Qle_shift_div_l; [exact Hs |].
  assert (E : a / s * s == a) by (field; lra). rewrite E. exact H.
Qed.

Lemma sized_mono (raw raw' vmin vmax vstep : Q) :
  0 < vstep -> raw <= raw' ->
  sized raw vmin vmax vstep <= sized raw' vmin vmax vstep.
Proof.
  intros Hs H. unfold sized.
  pose proof (floor_to_step_mono _ _ vstep Hs
                (py_min_mono _ _ vmax (py_max_mono _ _ vmin H))) as Hf.
  cbn zeta.
  destruct (Qlt_bool (floor_to_step (py_min (py_max raw vmin) vmax) vstep) vmin)
    eqn:E1,
    (Qlt_bool (floor_to_step (py_min (py_max raw' vmin) vmax) vstep) vmin)
    eqn:E2;
    try apply Qlt_bool_true in E1; try apply Qlt_bool_true in E2;
    try apply Qlt_bool_false in E1; try apply Qlt_bool_false in E2; lra.
Qed.

Lemma compute_volume_some (equity risk_per_trade stop_points v : Q)
  (symbol : SymbolMeta) :
  volume (compute_volume equity risk_per_trade stop_points symbol) = Some v ->
  0 < equity /\ 0 < stop_points
  /\ 0 < or_zero (trade_tick_value symbol) * or_zero (point symbol)
         / or_zero (trade_tick_size symbol).
Proof.
  unfold compute_volume.
  destruct (Qle_bool equity 0) eqn:He; [discriminate |].
  destruct (Qle_bool stop_points 0) eqn:Hs; [discriminate |].
  destruct (_ || _ || _); [discriminate |].
  destruct (Qle_bool (_ / _) 0) eqn:Hm; [discriminate |].
  intros _. apply Qle_bool_false in He, Hs, Hm. now repeat split.
Qed.

Lemma quotient_mono (a a' c c' : Q) :
  0 <= a -> a <= a' -> 0 < c' -> c' <= c -> a / c <= a' / c'.
Proof.
  intros Ha Haa Hc' Hcc.
  apply Qle_shift_div_r; [lra |].
  assert (Hq : 0 <= a' / c') by (apply Qle_shift_div_l; [exact Hc' | lra]).
  assert (E : a' / c' * c' == a') by (field; lra).
  assert (Hm : a' / c' * c' <= a' / c' * c).
  { rewrite !(Qmult_comm (a' / c')). apply Qmult_le_compat_r; assumption. }
  lra.
Qed.

(** X16. For a symbol with positive minimum, maximum and step and a
    non-negative risk fraction, the volume [compute_volume] returns never
    shrinks when the equity grows or the stop distance narrows. *)
Theorem compute_volume_is_monotone :
  forall (equity equity' risk_per_trade stop_points stop_points' : Q)
         (symbol : SymbolMeta) (vmin vmax vstep v v' : Q),
    volume_min symbol = Some vmin -> volume_max symbol = Some vmax ->
    volume_step symbol = Some vstep ->
    0 < vmin -> 0 < vmax -> 0 < vstep ->
    0 <= risk_per_trade ->
    equity <= equity' -> stop_points' <= stop_points ->
    volume (compute_volume equity risk_per_trade stop_points symbol) = Some v ->
    volume (compute_volume equity' risk_per_trade stop_points' symbol) = Some v' ->
    v <= v'.
Proof.
  intros equity equity' rpt stop stop' symbol vmin vmax vstep v v'
    Hmin Hmax Hstep Hvmin Hvmax Hvstep Hr He Hs Hv Hv'.
  destruct (compute_volume_some _ _ _ _ _ Hv) as (Hepos & Hspos & Hm).
  destruct (compute_volume_some _ _ _ _ _ Hv') as (Hepos' & Hspos' & _).
  destruct (SizingProps.compute_volume_sized _ _ _ _ _ _ _ _
              Hmin Hmax Hstep Hvmin Hvmax Hvstep Hv) as [-> _].
  destruct (SizingProps.compute_volume_sized _ _ _ _ _ _ _ _
              Hmin Hmax Hstep Hvmin Hvmax Hvstep Hv') as [-> _].
  apply sized_mono; [exact Hvstep |]. unfold raw_volume.
  set (mpp := or_zero (trade_tick_value symbol) * or_zero (point symbol)
              / or_zero (trade_tick_size symbol)) in *.
  apply quotient_mono.
  - apply Qmult_le_0_compat; lra.
  - rewrite !(Qmult_comm _ rpt).
    rewrite (Qmult_comm rpt equity), (Qmult_comm rpt equity').
    apply Qmult_le_compat_r; assumption.
  - apply Qmult_lt_0_compat; assumption.
  - apply Qmult_le_compat_r; lra.
Qed.

(** Twice the equity on half the stop distance: from five hundredths of a
    lot to a fifth. *)
Lemma compute_volume_is_monotone_witness :
  volume (compute_volume 1000 (5 # 1000) 100 (eurusd (1 # 100) 100 (1 # 100)))
  = Some (5 # 100)
  /\ volume (compute_volume 2000 (5 # 1000) 50 (eurusd (1 # 100) 100 (1 # 100)))
     = Some (20 # 100)
  /\ 5 # 100 <= 20 # 100.
Proof.
  split; [vm_compute; reflexivity |]. split; [vm_compute; reflexivity |].
  apply (compute_volume_is_monotone 1000 2000 (5 # 1000) 100 50
           (eurusd (1 # 100) 100 (1 # 100)) (1 # 100) 100 (1 # 100));
    try reflexivity; try (vm_compute; discriminate).
Defined.

End SizingFlowProps.

(** ** The scheduler when it stays silent *)

Module SchedulerEdgeProps.
Import Timeframes Scheduler.

Lemma timeframe_seconds_positive (tf : string) (secs : Z) :
  timeframe_seconds tf = Returned secs -> 0 < secs /\ (secs | 86400).
Proof.
  unfold timeframe_seconds, TIMEFRAMES. cbn [dict_get].
  repeat match goal with
         | |- context [String.eqb tf ?c] => destruct (String.eqb tf c)
         end;
    intros [= <-]; cbn [seconds]; (split; [lia |]).
  - exists 1440; lia.
  - exists 288; lia.
  - exists 96; lia.
  - exists 48; lia.
  - exists 24; lia.
  - exists 6; lia.
  - exists 1; lia.
Qed.

(** X17. [poll] never changes the timeframe and changes the stored close time
    only by returning a later one.  It returns nothing and keeps its state
    when the connector delivers no frame or fewer than three bars; an
    exception of the connector passes through; an unsupported timeframe
    raises [ValueError], but only once three bars have arrived.  A returned
    close time is the open time of the second-to-last bar plus the
    timeframe's length, lies strictly after that open time and is the new
    stored close time. *)
Theorem poll_stays_silent_without_a_closed_bar :
  forall (s : CandleCloseScheduler) (reply : candles_reply),
    timeframe (fst (poll s reply)) = timeframe s
    /\ (forall e, reply = Raised e -> poll s reply = (s, Raised e))
    /\ (forall bars,
          reply = Returned bars ->
          match bars with
          | None => True
          | Some df => (length df < 3)%nat
          end ->
          poll s reply = (s, Returned None))
    /\ (forall df,
          reply = Returned (Some df) -> (3 <= length df)%nat ->
          dict_get TIMEFRAMES (timeframe s) = None ->
          poll s reply
          = (s, Raised (ValueError ("Unsupported timeframe: " ++ timeframe s))))
    /\ (forall l, last_candle_close_time_utc s = Some l ->
          exists l', last_candle_close_time_utc (fst (poll s reply)) = Some l'
                     /\ l <= l')
    /\ (forall c, snd (poll s reply) = Returned (Some c) ->
          exists df open_dt secs,
            reply = Returned (Some df)
            /\ nth_error df (length df - 2) = Some open_dt
            /\ timeframe_seconds (timeframe s) = Returned secs
            /\ c = open_dt + secs * 1000000
            /\ open_dt < c
            /\ last_candle_close_time_utc (fst (poll s reply)) = Some c).
Proof.
  intros s reply.
  split.
  { unfold poll. destruct reply as [[df|]|e]; try reflexivity.
    destruct (length df <? 3)%nat; [reflexivity |].
    destruct (nth_error df (length df - 2)); [| reflexivity].
    destruct (timeframe_seconds (timeframe s)); [| reflexivity].
    destruct (match last_candle_close_time_utc s with
              | Some last => last <? _
              | None => true
              end); reflexivity. }
  split; [intros e ->; reflexivity |].
  split.
  { intros [df|] -> H; [| reflexivity]. unfold poll.
    apply Nat.ltb_lt in H. now rewrite H. }
  split.
  { intros df -> Hlen Hnone. unfold poll, timeframe_seconds.
    apply Nat.ltb_ge in Hlen. rewrite Hlen, Hnone.
    destruct (nth_error df (length df - 2)) eqn:E; [reflexivity |].
    apply nth_error_None in E. apply Nat.ltb_ge in Hlen. lia. }
  split.
  { intros l Hl. unfold poll. destruct reply as [[df|]|e];
      try (exists l; split; [exact Hl | lia]).
    destruct (length df <? 3)%nat; [exists l; split; [exact Hl | lia] |].
    destruct (nth_error df (length df - 2));
      [| exists l; split; [exact Hl | lia]].
    destruct (timeframe_seconds (timeframe s));
      [| exists l; split; [exact Hl | lia]].
    rewrite Hl. destruct (l <? _) eqn:E.
    - eexists. split; [reflexivity |]. apply Z.ltb_lt in E. lia.
    - exists l. split; [exact Hl | lia]. }
  intros c. unfold poll. destruct reply as [[df|]|e]; try discriminate.
  destruct (length df <? 3)%nat; [discriminate |].
  destruct (nth_error df (length df - 2)) as [open_dt|] eqn:Hnth; [| discriminate].
  destruct (timeframe_seconds (timeframe s)) as [secs|] eqn:Hsecs;
    [| discriminate].
  destruct (match last_candle_close_time_utc s with
            | Some last => last <? _
            | None => true
            end); [| discriminate].
  cbn [fst snd last_candle_close_time_utc]. intros [= <-].
  exists df, open_dt, secs. unfold timedelta_seconds.
  destruct (timeframe_seconds_positive _ _ Hsecs) as [Hpos _].
  split; [reflexivity |]. split; [exact Hnth |]. split; [reflexivity |].
  split; [reflexivity |]. split; [lia | reflexivity].
Qed.

End SchedulerEdgeProps.

(** ** The normaliser away from infinities *)

Module NormalizerUnitProps.
Import Num Normalizer RankingSpec NumProps.

Local Open Scope Q_scope.













End NormalizerUnitProps.

(** ** How many symbols the correlation filter returns *)

Module CorrelationFillProps.
Import Num Format Correlation Examples NumProps.

Section Fill.

Variable F : Renderer.
Variable corr : string -> string -> Q.
Variable max_abs_corr : Q.
Variable top_n : Z.

Lemma greedy_loop_sublist (ranked : list string) :
  forall (sel : list string) (exc : gmap string string)
         (sel' : list string) (exc' : gmap string string),
    greedy_loop F corr max_abs_corr top_n ranked sel exc = (sel', exc') ->
    exists added,
      sel' = (sel ++ added)%list
      /\ added `sublist_of` ranked
      /\ (forall s, is_Some (exc !! s) -> is_Some (exc' !! s))
      /\ ((Z.of_nat (length sel') < top_n)%Z ->
          forall s, In s ranked -> In s added \/ is_Some (exc' !! s))
      /\ (List.NoDup ranked ->
          forall s, is_Some (exc' !! s) ->
                    is_Some (exc !! s) \/ (In s ranked /\ ~ In s added)).
Proof.
  induction ranked as [|sym rest IH]; intros sel exc sel' exc' H; simpl in H.
  - injection H as <- <-. exists []. rewrite app_nil_r.
    split; [reflexivity |]. split; [constructor |]. split; [auto |].
    split; [intros _ s [] | auto].
  - destruct (top_n <=? Z.of_nat (length sel))%Z eqn:Hfull.
    + injection H as <- <-. exists []. rewrite app_nil_r.
      split; [reflexivity |]. split; [apply sublist_nil_l |]. split; [auto |].
      apply Z.leb_le in Hfull. split; [intros Hlt; lia | auto].
    + destruct (first_conflict corr max_abs_corr sym sel) as [[s2 c]|] eqn:Hc.
      * destruct (IH _ _ _ _ H) as (added & -> & Hsub & Hkeep & Hall & Hfrom).
        exists added. split; [reflexivity |].
        split; [now apply sublist_cons |]. split.
        { intros s Hs. apply Hkeep. destruct (decide (sym = s)) as [-> | Hne].
          - rewrite lookup_insert_eq. eauto.
          - now rewrite lookup_insert_ne. }
        split.
        { intros Hlt s [<- | Hs]; [| now apply Hall].
          right. apply Hkeep. rewrite lookup_insert_eq. eauto. }
        intros Hnd s Hs. inversion Hnd as [|? ? Hsym Hrest]; subst.
        destruct (Hfrom Hrest s Hs) as [Hold | [Hin Hout]].
        -- destruct (decide (sym = s)) as [<- | Hne].
           ++ right. split; [now left |]. intros Hin. apply Hsym.
              apply list_elem_of_In.
              eapply elem_of_sublist; [| exact Hsub]. now apply list_elem_of_In.
           ++ left. now rewrite lookup_insert_ne in Hold.
        -- right. split; [now right | exact Hout].
      * destruct (IH _ _ _ _ H) as (added & -> & Hsub & Hkeep & Hall & Hfrom).
        exists (sym :: added). rewrite <- app_assoc.
        split; [reflexivity |]. split; [now apply sublist_skip |].
        split; [exact Hkeep |].
        split.
        { intros Hlt s [<- | Hs]; [left; now left |].
          rewrite <- app_assoc in Hall.
          destruct (Hall Hlt s Hs) as [Hin | Hex]; [left; now right | now right]. }
        intros Hnd s Hs. inversion Hnd as [|? ? Hsym Hrest]; subst.
        destruct (Hfrom Hrest s Hs) as [Hold | [Hin Hout]]; [now left |].
        right. split; [now right |]. intros [<- | Hin']; contradiction.
Qed.

Lemma mem_In (s : string) (l : list string) : mem s l = true <-> In s l.
Proof.
  unfold mem. rewrite existsb_exists. split.
  - intros (x & Hx & E). apply String.eqb_eq in E. now subst.
  - intros H. exists s. split; [exact H | apply String.eqb_refl].
Qed.

Lemma rest_after (added ranked : list string) :
  added `sublist_of` ranked -> List.NoDup ranked ->
  length (List.filter (fun s => negb (mem s added)) ranked)
  = (length ranked - length added)%nat
  /\ List.filter (fun s => negb (mem s added)) ranked `sublist_of` ranked.
Proof.
  induction 1 as [|x a r Hsub IH | x a r Hsub IH]; intros Hnd.
  - split; [reflexivity | constructor].
  - inversion Hnd as [|? ? Hx Hr]; subst. destruct (IH Hr) as [Hlen Hs].
    cbn [List.filter].
    assert (Hm : mem x (x :: a) = true) by (apply mem_In; now left).
    rewrite Hm. cbn [negb].
    assert (E : List.filter (fun s => negb (mem s (x :: a))) r
                = List.filter (fun s => negb (mem s a)) r).
    { apply List.filter_ext_in. intros s Hs'. cbn [mem existsb].
      destruct (String.eqb s x) eqn:Es; [| reflexivity].
      apply String.eqb_eq in Es. subst s. contradiction. }
    rewrite E. split; [cbn [length]; lia | now apply sublist_cons].
  - inversion Hnd as [|? ? Hx Hr]; subst. destruct (IH Hr) as [Hlen Hs].
    cbn [List.filter].
    assert (Hxa : mem x a = false).
    { destruct (mem x a) eqn:E; [| reflexivity]. apply mem_In in E.
      exfalso. apply Hx. apply list_elem_of_In.
      eapply elem_of_sublist; [| exact Hsub]. now apply list_elem_of_In. }
    rewrite Hxa. cbn [negb length]. split; [| now apply sublist_skip].
    pose proof (sublist_length _ _ Hsub). lia.
Qed.

Lemma rest_apart (added ranked : list string) (n : nat) (s : string) :
  In s added ->
  ~ In s (firstn n (List.filter (fun s => negb (mem s added)) ranked)).
Proof.
  intros Hs Hin. apply list_elem_of_In in Hin.
  pose proof (elem_of_sublist _ _ _ Hin (sublist_take _ n)) as Hf.
  apply list_elem_of_In, filter_In in Hf. destruct Hf as [_ Hf].
  apply negb_true_iff in Hf. apply mem_In in Hs. congruence.
Qed.

(** X19. For a ranking without duplicates and a non-negative [top_n], the
    selection [greedy_correlation_filter] returns has no duplicates and
    exactly [min(top_n, len(ranked_symbols))] symbols; when [top_n] is at
    least the number of ranked symbols, every one of them is selected.  The
    selection is the admitted symbols, none of which is listed as excluded,
    followed by the padding, each symbol of which is. *)
Theorem greedy_filter_fills_up_to_top_n :
  forall (ranked : list string) (df : frame) (d : CorrelationDecision),
    greedy_correlation_filter F corr max_abs_corr top_n ranked df = Returned d ->
    List.NoDup ranked -> (0 <= top_n)%Z ->
    List.NoDup (selected d)
    /\ Z.of_nat (length (selected d)) = Z.min top_n (Z.of_nat (length ranked))
    /\ ((Z.of_nat (length ranked) <= top_n)%Z ->
        forall s, In s ranked -> In s (selected d))
    /\ exists admitted padding,
         selected d = (admitted ++ padding)%list
         /\ (forall s, In s admitted -> excluded d !! s = None)
         /\ (forall s, In s padding -> is_Some (excluded d !! s)).
Proof.
  intros ranked df d H Hnd Htop.
  assert (Hmain :
    List.NoDup (selected d)
    /\ Z.of_nat (length (selected d)) = Z.min top_n (Z.of_nat (length ranked))
    /\ incl (selected d) ranked
    /\ exists admitted padding,
         selected d = (admitted ++ padding)%list
         /\ (forall s, In s admitted -> excluded d !! s = None)
         /\ (forall s, In s padding -> is_Some (excluded d !! s))).
  { unfold greedy_correlation_filter in H.
    destruct (frame_empty df || (length ranked <=? 1)%nat).
    { injection H as <-. cbn [selected excluded]. unfold slice_to.
      replace (0 <=? top_n)%Z with true by (symmetry; apply Z.leb_le; lia).
      split.
      { apply NoDup_ListNoDup. eapply sublist_NoDup.
        - apply NoDup_ListNoDup. exact Hnd.
        - apply sublist_take. }
      split; [rewrite length_firstn; lia |].
      split.
      { intros s Hs. apply list_elem_of_In.
        eapply elem_of_sublist; [apply list_elem_of_In; exact Hs |].
        apply sublist_take. }
      exists (firstn (Z.to_nat top_n) ranked), []. rewrite app_nil_r.
      split; [reflexivity |]. split; [intros; apply lookup_empty | intros s []]. }
    destruct (find _ ranked) as [missing|]; [discriminate |].
    destruct (greedy_loop F corr max_abs_corr top_n ranked [] ∅)
      as [sel exc] eqn:Hloop.
    injection H as <-. cbn [selected excluded].
    destruct (greedy_loop_sublist ranked [] ∅ sel exc Hloop)
      as (added & Hsel & Hsub & _ & Hall & Hfrom).
    cbn [app] in Hsel. subst added.
    assert (Hsel_nd : List.NoDup sel).
    { apply NoDup_ListNoDup. eapply sublist_NoDup; [| exact Hsub].
      now apply NoDup_ListNoDup. }
    assert (Hclean : forall s, In s sel -> exc !! s = None).
    { intros s Hs. destruct (exc !! s) as [r|] eqn:E; [| reflexivity].
      destruct (Hfrom Hnd s ltac:(eauto)) as [Hold | [_ Hout]].
      - rewrite lookup_empty in Hold. destruct Hold; discriminate.
      - contradiction. }
    pose proof (sublist_length _ _ Hsub) as Hsublen.
    destruct (rest_after sel ranked Hsub Hnd) as [Hrlen Hrsub].
    destruct (Z.of_nat (length sel) <? top_n)%Z eqn:Hshort.
    - apply Z.ltb_lt in Hshort.
      rewrite (CorrelationProps.pad_loop_spec top_n ranked Hnd sel).
      set (k := Z.to_nat (top_n - Z.of_nat (length sel))).
      set (others := List.filter (fun s => negb (mem s sel)) ranked) in *.
      assert (Hpad_sub : firstn k others `sublist_of` ranked).
      { etransitivity; [apply sublist_take | exact Hrsub]. }
      split.
      { apply NoDup_ListNoDup, NoDup_app.
        split; [now apply NoDup_ListNoDup |]. split.
        - intros s Hs Hin. apply list_elem_of_In in Hs, Hin.
          exact (rest_apart sel ranked k s Hs Hin).
        - eapply sublist_NoDup; [| exact Hpad_sub]. now apply NoDup_ListNoDup. }
      split; [rewrite length_app, length_firstn, Hrlen; lia |].
      split.
      { intros s Hs. apply in_app_or in Hs. apply list_elem_of_In.
        destruct Hs as [Hs | Hs].
        - eapply elem_of_sublist; [apply list_elem_of_In; exact Hs | exact Hsub].
        - eapply elem_of_sublist; [apply list_elem_of_In; exact Hs | exact Hpad_sub]. }
      exists sel, (firstn k others). split; [reflexivity |].
      split; [exact Hclean |].
      intros s Hs.
      assert (Hr : In s ranked).
      { apply list_elem_of_In. eapply elem_of_sublist; [| exact Hpad_sub].
        now apply list_elem_of_In. }
      destruct (Hall Hshort s Hr) as [Hin | Hex]; [| exact Hex].
      exfalso. exact (rest_apart sel ranked k s Hin Hs).
    - apply Z.ltb_ge in Hshort.
      assert (Hbound : (Z.of_nat (length sel) <= top_n)%Z).
      { assert (Hnil : admitted_in_turn corr max_abs_corr []).
        { intros before sym after Heq. destruct before; discriminate. }
        destruct (CorrelationProps.greedy_loop_spec F corr max_abs_corr top_n
                    ranked [] ∅ sel exc Hloop Hnil) as (_ & _ & Hb & _).
        cbn [length] in Hb. lia. }
      split; [exact Hsel_nd |]. split; [lia |]. split.
      { intros s Hs. apply list_elem_of_In.
        eapply elem_of_sublist; [apply list_elem_of_In; exact Hs | exact Hsub]. }
      exists sel, []. rewrite app_nil_r. split; [reflexivity |].
      split; [exact Hclean | intros s []]. }
  destruct Hmain as (Hnd' & Hlen & Hincl & Hparts).
  split; [exact Hnd' |]. split; [exact Hlen |]. split; [| exact Hparts].
  intros Hall s Hs.
  assert (Hback : incl ranked (selected d)).
  { apply NoDup_length_incl; [exact Hnd' | lia | exact Hincl]. }
  now apply Hback.
Qed.

End Fill.

(** The scenario A = B = t, C = -t with room for two: B is excluded for its
    correlation with A and padded back in. *)
Lemma greedy_filter_fills_witness :
  exists d,
    greedy_correlation_filter terse abc_corr (85 # 100) 2 ["A"; "B"; "C"]
      (abc_frame ramp) = Returned d
    /\ List.NoDup (selected d)
    /\ Z.of_nat (length (selected d)) = Z.min 2 3.
Proof.
  eexists. split; [vm_compute; reflexivity |].
  assert (Hnd : List.NoDup ["A"; "B"; "C"]).
  { repeat constructor; simpl; intuition discriminate. }
  destruct (greedy_filter_fills_up_to_top_n terse abc_corr (85 # 100) 2
              ["A"; "B"; "C"] (abc_frame ramp) _ eq_refl Hnd ltac:(lia))
    as (H1 & H2 & _).
  split; [exact H1 | exact H2].
Defined.

End CorrelationFillProps.

(** ** The score of a symbol *)

Module ScorerProps.
Import Num Scorer ScoreSpec NumProps.
Local Open Scope Q_scope.











End ScorerProps.

(** ** What the strategies signal *)

Module StrategyProps.
Import Connector Num Utils Strategies StrategySpec NumProps.
Local Open Scope Q_scope.

Lemma clamp_unit (x : Q) : 0 <= clamp x 0 1 /\ clamp x 0 1 <= 1.
Proof.
  unfold clamp. split; [apply py_max_ge_l |].
  unfold py_max. destruct (Qlt_bool 0 (py_min 1 x)); [apply py_min_le_l | lra].
Qed.

Lemma zero_unit : 0 <= 0 /\ 0 <= 1.
Proof. split; lra. Qed.

Section Signals.

Variable fix1 : Q -> string.

Ltac settle :=
  unfold orderly, plain, exit_signal;
  cbn [side confidence tags suggested_sl suggested_tp];
  repeat match goal with |- _ /\ _ => split end;
  try reflexivity; try apply clamp_unit; try lra;
  try (intros; congruence); try (now left); try (now right);
  try (intros; split; [congruence | reflexivity]);
  try match goal with
      | |- In _ [] -> _ => let H := fresh in intros H; destruct H
      | |- ?a <> ?a -> _ => let H := fresh in intros H; now elim H
      end.

Lemma range_mean_reversion_orderly (features : gmap string Q)
  (ctx : StrategyContext) :
  orderly ctx (range_mean_reversion_signal fix1 features ctx).
Proof.
  unfold range_mean_reversion_signal.
  destruct (features !! "rsi14"%string) as [rsi14|].
  2:{ destruct (current_position ctx) eqn:Hp; settle. }
  destruct (current_position ctx) as [pos|] eqn:Hp.
  - destruct (side_eqb (pos_side pos) LONG && Qle_bool 50 rsi14) eqn:E1.
    + apply andb_true_iff in E1. destruct E1 as [E1 _].
      settle.
      intros _. exists pos. split; [exact Hp |].
      left. destruct (pos_side pos); [reflexivity | discriminate | discriminate].
    + destruct (side_eqb (pos_side pos) SHORT && Qle_bool rsi14 50) eqn:E2.
      * apply andb_true_iff in E2. destruct E2 as [E2 _].
        settle. intros _. exists pos. split; [exact Hp |].
        right. destruct (pos_side pos); [discriminate | reflexivity | discriminate].
      * settle.
  - destruct (Qle_bool rsi14 30); [settle |].
    destruct (Qle_bool 70 rsi14); settle.
Qed.

Lemma two_pole_momentum_orderly (features : gmap string Q)
  (ctx : StrategyContext) :
  orderly ctx (two_pole_momentum_signal features ctx).
Proof.
  unfold two_pole_momentum_signal. cbn zeta.
  destruct (current_position ctx) as [pos|] eqn:Hp.
  - destruct (side_eqb (pos_side pos) LONG && _) eqn:E1.
    + apply andb_true_iff in E1. destruct E1 as [E1 _].
      settle. intros _. exists pos. split; [exact Hp |].
      left. destruct (pos_side pos); [reflexivity | discriminate | discriminate].
    + destruct (side_eqb (pos_side pos) SHORT && _) eqn:E2.
      * apply andb_true_iff in E2. destruct E2 as [E2 _].
        settle. intros _. exists pos. split; [exact Hp |].
        right. destruct (pos_side pos); [discriminate | reflexivity | discriminate].
      * settle.
  - destruct (_ && Qlt_bool 0 _); [settle |].
    destruct (_ && Qlt_bool _ 0); settle.
Qed.

(** X21. Each strategy of the default registry is stored under its own name,
    and every signal it generates is orderly: a confidence in the unit
    interval, a flat side whenever a position is held, the exit tag only on
    a signal about a held long or short position, no tag on an entry, and
    no suggested levels. *)
Theorem registered_strategies_signal_orderly :
  forall (nm : string) (s : StrategyBase) (features : gmap string Q)
         (ctx : StrategyContext),
    Timeframes.dict_get (strategies (default_registry fix1)) nm = Some s ->
    name s = nm /\ orderly ctx (generate_signal s features ctx).
Proof.
  intros nm s features ctx. unfold default_registry.
  cbn [strategies map Timeframes.dict_get name TwoPoleMomentumStrategy
       RangeMeanReversionStrategy].
  destruct (String.eqb nm "two_pole_momentum") eqn:E1.
  - intros [= <-]. apply String.eqb_eq in E1. split; [now symmetry |].
    apply two_pole_momentum_orderly.
  - destruct (String.eqb nm "range_mean_reversion") eqn:E2; [| discriminate].
    intros [= <-]. apply String.eqb_eq in E2. split; [now symmetry |].
    apply range_mean_reversion_orderly.
Qed.

Variable repr_sorted : list string -> string.

(** X22. In rule-based mode, over the default registry, [select] never
    raises: it picks the momentum strategy when ADX is at or above the
    trending threshold (also when the thresholds overlap), the
    mean-reversion strategy when ADX is below that and at or below the
    ranging threshold, and no strategy strictly between the two; name and
    strategy are absent together, and a chosen strategy is the registry's
    under the reported name.  In manual mode the features are not read:
    the configured strategy is returned, or [KeyError] is raised when the
    registry has none of that name. *)
Theorem select_partitions_by_adx :
  forall (cfg : StrategyConfig) (features : gmap string Q),
    let adx := or_zero (features !! "adx14"%string) in
    let registry := default_registry fix1 in
    (mode cfg = rule_based ->
     exists sel,
       select fix1 repr_sorted cfg registry features = Returned sel
       /\ (adx_trending (rule_based_cfg cfg) <= adx ->
           sel_name sel = Some "two_pole_momentum"%string)
       /\ (adx < adx_trending (rule_based_cfg cfg) ->
           adx <= adx_ranging (rule_based_cfg cfg) ->
           sel_name sel = Some "range_mean_reversion"%string)
       /\ (adx_ranging (rule_based_cfg cfg) < adx ->
           adx < adx_trending (rule_based_cfg cfg) ->
           sel_name sel = None)
       /\ (sel_name sel = None <-> strategy sel = None)
       /\ (forall s, strategy sel = Some s ->
             sel_name sel = Some (name s)
             /\ Timeframes.dict_get (strategies registry) (name s) = Some s))
    /\ (mode cfg = manual ->
        match Timeframes.dict_get (strategies registry) (manual_active cfg) with
        | Some s =>
            select fix1 repr_sorted cfg registry features
            = Returned (chosen s "manual mode")
        | None =>
            exists msg,
              select fix1 repr_sorted cfg registry features
              = Raised (KeyError msg)
        end).
Proof.
  intros cfg features adx registry. subst adx registry. split.
  - intros Hmode. unfold select. rewrite Hmode.
    destruct (Qle_bool (adx_trending (rule_based_cfg cfg))
                (or_zero (features !! "adx14"%string))) eqn:Et.
    + apply Qle_bool_iff in Et. eexists. split; [reflexivity |].
      cbn [sel_name strategy chosen name TwoPoleMomentumStrategy].
      split; [reflexivity |]. split; [intros; lra |]. split; [intros; lra |].
      split; [split; discriminate |].
      intros s [= <-]. split; reflexivity.
    + apply Qle_bool_false in Et.
      destruct (Qle_bool (or_zero (features !! "adx14"%string))
                  (adx_ranging (rule_based_cfg cfg))) eqn:Er.
      * apply Qle_bool_iff in Er. eexists. split; [reflexivity |].
        cbn [sel_name strategy chosen name RangeMeanReversionStrategy].
        split; [intros; lra |]. split; [reflexivity |]. split; [intros; lra |].
        split; [split; discriminate |].
        intros s [= <-]. split; reflexivity.
      * apply Qle_bool_false in Er. eexists. split; [reflexivity |].
        cbn [sel_name strategy].
        split; [intros; lra |]. split; [intros; lra |]. split; [reflexivity |].
        split; [split; reflexivity | discriminate].
  - intros Hmode. unfold select, registry_get. rewrite Hmode.
    destruct (Timeframes.dict_get _ (manual_active cfg)) as [s|];
      [reflexivity | eexists; reflexivity].
Qed.

End Signals.

(** A crossover up with a rising average and no position held. *)
Lemma registered_strategies_witness :
  side (generate_signal TwoPoleMomentumStrategy
          (<[ "tp_cross"%string := 1 ]> (<[ "ema50_slope"%string := 1 # 10 ]> ∅))
          {| ctx_symbol := "EURUSD"; ctx_timeframe := "H1";
             ctx_candle_close_time_utc := "2026-01-01T00:00:00+00:00";
             ctx_quote := None; ctx_symbol_meta := None;
             current_position := None |}) = LONG
  /\ orderly
       {| ctx_symbol := "EURUSD"; ctx_timeframe := "H1";
          ctx_candle_close_time_utc := "2026-01-01T00:00:00+00:00";
          ctx_quote := None; ctx_symbol_meta := None;
          current_position := None |}
       (generate_signal TwoPoleMomentumStrategy
          (<[ "tp_cross"%string := 1 ]> (<[ "ema50_slope"%string := 1 # 10 ]> ∅))
          {| ctx_symbol := "EURUSD"; ctx_timeframe := "H1";
             ctx_candle_close_time_utc := "2026-01-01T00:00:00+00:00";
             ctx_quote := None; ctx_symbol_meta := None;
             current_position := None |}).
Proof.
  split; [vm_compute; reflexivity |].
  apply (registered_strategies_signal_orderly (fun _ => "#"%string)
           "two_pole_momentum" TwoPoleMomentumStrategy).
  reflexivity.
Defined.

End StrategyProps.

(** ** The notifier and its throttle *)

Module NotificationProps.
Import Num Notifications NumProps.
Local Open Scope Q_scope.

Section Sends.

Context {M : Type}.
Variable cfg : TelegramConfig.

Lemma allow_keeps_seconds (t : Throttle) (now : Q) (key : string) :
  throttle_seconds (fst (allow t now key)) = throttle_seconds t.
Proof. unfold allow. destruct (match _ with Some _ => _ | None => _ end); reflexivity. Qed.

Lemma send_keeps_seconds (message : M) (key : option string) (now : Q)
  (t : Throttle) :
  throttle_seconds (fst (send cfg message key now t)) = throttle_seconds t.
Proof.
  unfold send. destruct (negb (tg_enabled cfg)); [reflexivity |].
  destruct (_ || _); [reflexivity |].
  destruct (if nonempty key then key else None) as [k|]; [| reflexivity].
  pose proof (allow_keeps_seconds t now k) as H.
  destruct (allow t now k) as [t' ok]. cbn [fst] in H.
  destruct ok; exact H.
Qed.

(** What one call does to the stamp kept for a key. *)
Lemma send_stamp (message : M) (key : option string) (now : Q) (t : Throttle)
  (k0 : string) :
  k0 <> ""%string ->
  (snd (send cfg message key now t) <> [] /\ key = Some k0
   /\ _last (fst (send cfg message key now t)) !! k0 = Some now
   /\ forall last, _last t !! k0 = Some last -> throttle_seconds t <= now - last)
  \/ ((snd (send cfg message key now t) = [] \/ key <> Some k0)
      /\ _last (fst (send cfg message key now t)) !! k0 = _last t !! k0).
Proof.
  intros Hk0. unfold send.
  destruct (negb (tg_enabled cfg)); [right; split; [now left | reflexivity] |].
  destruct (negb (nonempty (token cfg)) || Nat.eqb (length (chat_ids cfg)) 0)
    eqn:Hready; [right; split; [now left | reflexivity] |].
  apply orb_false_iff in Hready. destruct Hready as [_ Hchats].
  assert (Hposts : forall m : M,
             map (fun chat_id => (chat_id, m)) (chat_ids cfg) <> []).
  { intros m. destruct (chat_ids cfg); [discriminate Hchats | discriminate]. }
  destruct key as [k|]; cbn [nonempty].
  2:{ right. split; [right; discriminate | reflexivity]. }
  destruct (String.eqb k "") eqn:Hempty; cbn [negb].
  { apply String.eqb_eq in Hempty. subst k. right.
    split; [right; congruence | reflexivity]. }
  unfold allow.
  destruct (String.eqb k k0) eqn:Hsame.
  - apply String.eqb_eq in Hsame. subst k.
    destruct (_last t !! k0) as [last|] eqn:Hlast.
    + destruct (Qlt_bool (now - last) (throttle_seconds t)) eqn:Hq.
      * right. split; [now left | exact Hlast].
      * left. cbn [fst snd _last]. split; [apply Hposts |].
        split; [reflexivity |]. split; [apply lookup_insert_eq |].
        intros l [= <-]. now apply Qlt_bool_false.
    + left. cbn [fst snd _last]. split; [apply Hposts |].
      split; [reflexivity |]. split; [apply lookup_insert_eq |].
      intros l [=].
  - apply String.eqb_neq in Hsame. right.
    split; [right; congruence |].
    destruct (match _last t !! k with
              | Some last => Qlt_bool (now - last) (throttle_seconds t)
              | None => false
              end); cbn [fst _last]; [reflexivity |].
    now apply lookup_insert_ne.
Qed.

Lemma throttle_after_snoc (calls : list (call M)) (c : call M) (t : Throttle) :
  throttle_after cfg (calls ++ [c]) t
  = fst (send_call cfg c (throttle_after cfg calls t)).
Proof. unfold throttle_after. now rewrite fold_left_app. Qed.

Lemma throttle_after_seconds (calls : list (call M)) :
  forall t, throttle_seconds (throttle_after cfg calls t) = throttle_seconds t.
Proof.
  induction calls as [|c rest IH]; intros t; [reflexivity |].
  unfold throttle_after in *. cbn [fold_left]. rewrite IH.
  apply send_keeps_seconds.
Qed.

Lemma firstn_step {A : Type} (l : list A) :
  forall (k : nat) (c : A),
    nth_error l k = Some c -> firstn (S k) l = (firstn k l ++ [c])%list.
Proof.
  induction l as [|x rest IH]; intros [|k] c H; try discriminate.
  - injection H as ->. reflexivity.
  - cbn [nth_error] in H. cbn [firstn app]. f_equal.
    change (firstn (S k) rest = (firstn k rest ++ [c])%list). now apply IH.
Qed.

Lemma posts_of_at (calls : list (call M)) (t0 : Throttle) (k : nat) (c : call M) :
  nth_error calls k = Some c ->
  posts_of cfg calls t0 k
  = snd (send_call cfg c (throttle_after cfg (firstn k calls) t0)).
Proof. intros H. unfold posts_of. now rewrite H. Qed.

Lemma stamp_carried (calls : list (call M)) (t0 : Throttle) (key : string)
  (i : nat) (mi : M) (ti : Q) :
  key <> ""%string ->
  nth_error calls i = Some (mi, Some key, ti) ->
  posts_of cfg calls t0 i <> [] ->
  forall j,
    (i < j)%nat -> (j <= length calls)%nat ->
    (forall k m t, (i < k < j)%nat -> nth_error calls k = Some (m, Some key, t) ->
                   posts_of cfg calls t0 k = []) ->
    _last (throttle_after cfg (firstn j calls) t0) !! key = Some ti.
Proof.
  intros Hkey Hi Hposted j. induction j as [|j IH]; intros Hij Hlen Hquiet; [lia |].
  destruct (nth_error calls j) as [c|] eqn:Hc;
    [| apply nth_error_None in Hc; lia].
  rewrite (firstn_step calls j c Hc), throttle_after_snoc.
  destruct c as [[m key'] t]. unfold send_call. cbn [fst snd].
  destruct (send_stamp m key' t (throttle_after cfg (firstn j calls) t0) key Hkey)
    as [(Hp & Hk & Hstamp & _) | (Hwhy & Hsame)].
  - subst key'. destruct (Nat.eq_dec i j) as [<- | Hne].
    + rewrite Hi in Hc. injection Hc as -> ->. exact Hstamp.
    + exfalso. apply Hp.
      rewrite <- (Hquiet j m t ltac:(lia) Hc).
      rewrite (posts_of_at _ _ _ _ Hc). reflexivity.
  - rewrite Hsame. destruct (Nat.eq_dec i j) as [<- | Hne].
    + exfalso. rewrite Hi in Hc. injection Hc as <- <- <-.
      rewrite (posts_of_at _ _ _ _ Hi) in Hposted. unfold send_call in Hposted.
      cbn [fst snd] in Hposted. destruct Hwhy as [H | H]; [contradiction |].
      now apply H.
    + apply IH; [lia | lia |]. intros k m' t' Hk. apply Hquiet. lia.
Qed.

(** X23. A notifier that is not available (disabled, or without token or
    recipients) never posts and never touches its throttle; an available one
    posts a message sent without key to every recipient, in order.  Between
    two calls under one non-empty key that both posted, with no posting call
    under that key in between, the clock readings lie at least
    [throttle_seconds] apart. *)
Theorem posts_under_one_key_are_spaced :
  forall (calls : list (call M)) (t0 : Throttle),
    (available cfg = false ->
     throttle_after cfg calls t0 = t0
     /\ forall k, posts_of cfg calls t0 k = [])
    /\ (forall k m t,
          available cfg = true -> nth_error calls k = Some (m, None, t) ->
          posts_of cfg calls t0 k = map (fun chat_id => (chat_id, m)) (chat_ids cfg))
    /\ (forall (i j : nat) (key : string) (mi mj : M) (ti tj : Q),
          key <> ""%string ->
          nth_error calls i = Some (mi, Some key, ti) ->
          nth_error calls j = Some (mj, Some key, tj) ->
          (i < j)%nat ->
          posts_of cfg calls t0 i <> [] ->
          posts_of cfg calls t0 j <> [] ->
          (forall k m t, (i < k < j)%nat ->
                         nth_error calls k = Some (m, Some key, t) ->
                         posts_of cfg calls t0 k = []) ->
          throttle_seconds t0 <= tj - ti).
Proof.
  intros calls t0. split; [| split].
  - intros Hoff.
    assert (Hstep : forall (c : call M) t, send_call cfg c t = (t, [])).
    { intros [[m key] now] t. unfold send_call, send. cbn [fst snd].
      unfold available in Hoff.
      destruct (tg_enabled cfg); cbn [negb andb] in *; [| reflexivity].
      destruct (nonempty (token cfg)); cbn [negb andb orb] in *; [| reflexivity].
      apply negb_false_iff in Hoff. now rewrite Hoff. }
    assert (Hrun : forall (l : list (call M)) t, throttle_after cfg l t = t).
    { induction l as [|c rest IH]; intros t; [reflexivity |].
      unfold throttle_after in *. cbn [fold_left]. rewrite Hstep. apply IH. }
    split; [apply Hrun |]. intros k. unfold posts_of.
    destruct (nth_error calls k); [now rewrite Hstep | reflexivity].
  - intros k m t Hon Hk. rewrite (posts_of_at _ _ _ _ Hk).
    unfold send_call, send. cbn [fst snd nonempty].
    unfold available in Hon. apply andb_true_iff in Hon. destruct Hon as [Hon Hc].
    apply andb_true_iff in Hon. destruct Hon as [-> ->].
    apply negb_true_iff in Hc. rewrite Hc. reflexivity.
  - intros i j key mi mj ti tj Hkey Hi Hj Hij Hpi Hpj Hquiet.
    assert (Hlen : (j <= length calls)%nat).
    { apply Nat.lt_le_incl. apply nth_error_Some. congruence. }
    pose proof (stamp_carried calls t0 key i mi ti Hkey Hi Hpi j Hij Hlen Hquiet)
      as Hstamp.
    rewrite (posts_of_at _ _ _ _ Hj) in Hpj. unfold send_call in Hpj.
    cbn [fst snd] in Hpj.
    destruct (send_stamp mj (Some key) tj
                (throttle_after cfg (firstn j calls) t0) key Hkey)
      as [(_ & _ & _ & Hgap) | ([H | H] & _)];
      [| contradiction | congruence].
    rewrite throttle_after_seconds in Hgap. now apply Hgap.
Qed.

End Sends.

(** The second of three pause messages is swallowed, the third goes out
    thirty seconds after the first. *)
Lemma posts_are_spaced_witness :
  posts_of NotifierScenarios.family NotifierScenarios.three_pauses
    NotifierScenarios.fresh_throttle 1 = []
  /\ posts_of NotifierScenarios.family NotifierScenarios.three_pauses
       NotifierScenarios.fresh_throttle 2
     = [("1001"%string, "paused"%string); ("1002"%string, "paused"%string)]
  /\ throttle_seconds NotifierScenarios.fresh_throttle <= 30 - 0.
Proof.
  split; [vm_compute; reflexivity |]. split; [vm_compute; reflexivity |].
  apply (proj2 (proj2 (posts_under_one_key_are_spaced NotifierScenarios.family
                         NotifierScenarios.three_pauses
                         NotifierScenarios.fresh_throttle))
           0%nat 2%nat "risk_pause"%string "paused"%string "paused"%string).
  - discriminate.
  - reflexivity.
  - reflexivity.
  - lia.
  - vm_compute. discriminate.
  - vm_compute. discriminate.
  - intros [|[|k]] m t Hk H; try lia. vm_compute. reflexivity.
Defined.

End NotificationProps.

(** ** The broker's minimum stop distance *)

Module StopsProps.
Import Connector Num Mt5 NumProps.
Local Open Scope Q_scope.



End StopsProps.

(** ** Deals are shown to the risk manager once *)

Module DealsProps.
Import Connector Num Config Risk Deals.

Lemma has_ticket_app (xs ys : list Deal) (t : Z) :
  has_ticket (xs ++ ys) t = has_ticket xs t || has_ticket ys t.
Proof. unfold has_ticket. apply existsb_app. Qed.

Lemma insert_deals_appends (deals : list Deal) :
  forall trades,
    fst (insert_deals trades deals) = (trades ++ snd (insert_deals trades deals))%list.
Proof.
  induction deals as [|d rest IH]; intros trades; cbn [insert_deals].
  - cbn. now rewrite app_nil_r.
  - destruct (has_ticket trades (deal_ticket d)); [apply IH |].
    specialize (IH (trades ++ [d])%list).
    destruct (insert_deals (trades ++ [d]) rest) as [trades' inserted].
    cbn [fst snd] in *. now rewrite IH, <- app_assoc.
Qed.

Lemma inserted_tickets (deals : list Deal) :
  forall (trades : list Deal) (t : Z),
    has_ticket (snd (insert_deals trades deals)) t
    = has_ticket deals t && negb (has_ticket trades t).
Proof.
  induction deals as [|d rest IH]; intros trades t; cbn [insert_deals].
  - reflexivity.
  - destruct (has_ticket trades (deal_ticket d)) eqn:Hd.
    + rewrite IH. cbn [has_ticket existsb]. fold (has_ticket rest t).
      destruct (deal_ticket d =? t) eqn:E; [| reflexivity].
      apply Z.eqb_eq in E. subst t. rewrite Hd. cbn [negb].
      now rewrite !andb_false_r.
    + specialize (IH (trades ++ [d])%list t).
      destruct (insert_deals (trades ++ [d]) rest) as [trades' inserted].
      cbn [fst snd] in *. cbn [has_ticket existsb].
      fold (has_ticket inserted t). fold (has_ticket rest t).
      rewrite IH, has_ticket_app. cbn [has_ticket existsb].
      destruct (deal_ticket d =? t) eqn:E; cbn [orb].
      * apply Z.eqb_eq in E. subst t. now rewrite Hd.
      * now rewrite orb_false_r.
Qed.

Lemma insert_deals_known (deals : list Deal) :
  forall trades,
    (forall d, In d deals -> has_ticket trades (deal_ticket d) = true) ->
    insert_deals trades deals = (trades, []).
Proof.
  induction deals as [|d rest IH]; intros trades H; [reflexivity |].
  cbn [insert_deals]. rewrite (H d (or_introl eq_refl)).
  apply IH. intros x Hx. apply H. now right.
Qed.

Lemma has_ticket_In (xs : list Deal) (d : Deal) :
  In d xs -> has_ticket xs (deal_ticket d) = true.
Proof.
  intros H. unfold has_ticket. apply existsb_exists. exists d.
  split; [exact H | apply Z.eqb_refl].
Qed.

Lemma insert_deals_unique (deals : list Deal) :
  forall trades,
    List.NoDup (map deal_ticket trades) ->
    List.NoDup (map deal_ticket (fst (insert_deals trades deals))).
Proof.
  induction deals as [|d rest IH]; intros trades H; cbn [insert_deals];
    [exact H |].
  destruct (has_ticket trades (deal_ticket d)) eqn:Hd; [now apply IH |].
  specialize (IH (trades ++ [d])%list).
  destruct (insert_deals (trades ++ [d]) rest) as [trades' inserted].
  cbn [fst] in *. apply IH.
  rewrite map_app. cbn [map].
  apply NoDup_ListNoDup, NoDup_app. split; [now apply NoDup_ListNoDup |].
  split; [| apply NoDup_singleton].
  intros t Ht Hin. apply list_elem_of_In in Ht, Hin.
  destruct Hin as [<- | []].
  apply in_map_iff in Ht. destruct Ht as (x & Hx & Hin).
  assert (Hn : has_ticket trades (deal_ticket d) = true).
  { unfold has_ticket. apply existsb_exists. exists x.
    split; [exact Hin | now apply Z.eqb_eq]. }
  congruence.
Qed.

(** X25. [insert_deals] appends the deals it returns to the table and keeps
    the tickets of the table distinct.  The deals [_sync_deals] then shows
    to the risk manager are exactly the deals of the batch whose ticket was
    not stored before, repetitions of a new ticket within the batch
    included; they are the inserted deals when the batch has no repeated
    ticket.  Syncing the same batch again inserts nothing and leaves the
    risk state as it is. *)
Theorem sync_deals_shows_each_new_ticket :
  forall (deals trades : list Deal),
    let trades' := fst (insert_deals trades deals) in
    let inserted := snd (insert_deals trades deals) in
    trades' = (trades ++ inserted)%list
    /\ new_deals deals inserted
       = List.filter (fun d => negb (has_ticket trades (deal_ticket d))) deals
    /\ (List.NoDup (map deal_ticket deals) -> new_deals deals inserted = inserted)
    /\ (List.NoDup (map deal_ticket trades) ->
        List.NoDup (map deal_ticket trades'))
    /\ insert_deals trades' deals = (trades', [])
    /\ (forall cfg clock st,
          sync_deals cfg clock deals trades' st = (trades', st)).
Proof.
  intros deals trades trades' inserted. subst trades' inserted.
  assert (Hnew : new_deals deals (snd (insert_deals trades deals))
                 = List.filter
                     (fun d => negb (has_ticket trades (deal_ticket d))) deals).
  { unfold new_deals. apply List.filter_ext_in. intros d Hd.
    change (existsb (fun i => deal_ticket i =? deal_ticket d)
              (snd (insert_deals trades deals)))
      with (has_ticket (snd (insert_deals trades deals)) (deal_ticket d)).
    rewrite inserted_tickets, (has_ticket_In _ _ Hd). reflexivity. }
  assert (Hreplay : insert_deals (fst (insert_deals trades deals)) deals
                    = (fst (insert_deals trades deals), [])).
  { apply insert_deals_known. intros d Hd.
    rewrite insert_deals_appends, has_ticket_app, inserted_tickets,
      (has_ticket_In _ _ Hd).
    cbn [andb]. now destruct (has_ticket trades (deal_ticket d)). }
  split; [apply insert_deals_appends |]. split; [exact Hnew |].
  split.
  { intros Hnd. rewrite Hnew. clear Hnew Hreplay. revert trades.
    induction deals as [|d rest IH]; intros trades; [reflexivity |].
    inversion Hnd as [|? ? Hd Hrest]; subst.
    cbn [List.filter insert_deals].
    destruct (has_ticket trades (deal_ticket d)) eqn:E; cbn [negb].
    - now apply IH.
    - specialize (IH Hrest (trades ++ [d])%list).
      destruct (insert_deals (trades ++ [d]) rest) as [trades' inserted].
      cbn [snd] in *. f_equal. rewrite <- IH.
      apply List.filter_ext_in. intros x Hx. rewrite has_ticket_app.
      cbn [has_ticket existsb].
      destruct (deal_ticket d =? deal_ticket x) eqn:Ex;
        [| now rewrite !orb_false_r].
      exfalso. apply Z.eqb_eq in Ex. apply Hd. rewrite Ex.
      now apply in_map. }
  split; [apply insert_deals_unique |].
  split; [exact Hreplay |].
  intros cfg clock st. unfold sync_deals. now rewrite Hreplay.
Qed.

End DealsProps.

(** ** Pause notifications follow the changes of the flag *)

Module PauseWatchProps.
Import Deals.

Lemma watch_pause_from (states : list (bool * option string)) :
  forall was,
    fst (watch_pause (Some was) states) = Some (last_flag was states)
    /\ flips_from was (snd (watch_pause (Some was) states))
    /\ (length (snd (watch_pause (Some was) states)) <= length states)%nat
    /\ Forall (fun n => snd n = if is_pause n then "risk_pause"%string
                                 else "risk_unpause"%string)
         (snd (watch_pause (Some was) states))
    /\ (forall why, In (RiskPaused why, "risk_pause"%string)
                      (snd (watch_pause (Some was) states)) ->
          exists r, In (true, r) states /\ why = reason_or_default r).
Proof.
  induction states as [|[paused why] rest IH]; intros was; cbn [watch_pause].
  - cbn. split; [reflexivity |]. split; [exact I |]. split; [lia |].
    split; [constructor | intros ? []].
  - unfold _handle_risk_pause_state.
    destruct (Bool.eqb paused was) eqn:E; cbn [negb].
    + apply Bool.eqb_prop in E. subst paused.
      destruct (IH was) as (Hf & Hflip & Hlen & Hkeys & Hwhy).
      destruct (watch_pause (Some was) rest) as [prev notes].
      cbn [fst snd app last_flag length] in *.
      split; [exact Hf |]. split; [exact Hflip |]. split; [lia |].
      split; [exact Hkeys |].
      intros w Hw. destruct (Hwhy w Hw) as (r & Hr & ->).
      exists r. split; [now right | reflexivity].
    + destruct (IH paused) as (Hf & Hflip & Hlen & Hkeys & Hwhy).
      destruct (watch_pause (Some paused) rest) as [prev notes].
      cbn [fst snd last_flag length] in *.
      assert (Hneg : paused = negb was)
        by (destruct paused, was; try reflexivity; discriminate).
      destruct paused; cbn [app length flips_from is_pause fst snd].
      * split; [exact Hf |]. split; [split; [exact Hneg | exact Hflip] |].
        split; [lia |]. split; [constructor; [reflexivity | exact Hkeys] |].
        intros w [Hw | Hw].
        -- injection Hw as <-. exists why. split; [now left | reflexivity].
        -- destruct (Hwhy w Hw) as (r & Hr & ->).
           exists r. split; [now right | reflexivity].
      * split; [exact Hf |]. split; [split; [exact Hneg | exact Hflip] |].
        split; [lia |]. split; [constructor; [reflexivity | exact Hkeys] |].
        intros w [Hw | Hw]; [discriminate |].
        destruct (Hwhy w Hw) as (r & Hr & ->).
        exists r. split; [now right | reflexivity].
Qed.

(** X26. Over the cycles of a run [_handle_risk_pause_state] is silent on
    the first cycle, which only records the flag, and ends remembering the
    flag of the last cycle.  Its notifications report a flag that flips
    each time, starting from the first cycle's, so there are at most as many
    as later cycles; each goes out under the key of its kind, and a pause
    note carries the reason (or the default text) of a later paused cycle. *)
Theorem pause_notes_follow_the_flips :
  forall (paused : bool) (why : option string)
         (rest : list (bool * option string)),
    let run := watch_pause None ((paused, why) :: rest) in
    run = watch_pause (Some paused) rest
    /\ fst run = Some (last_flag paused rest)
    /\ flips_from paused (snd run)
    /\ (length (snd run) <= length rest)%nat
    /\ Forall (fun n => snd n = if is_pause n then "risk_pause"%string
                                 else "risk_unpause"%string) (snd run)
    /\ (forall w, In (RiskPaused w, "risk_pause"%string) (snd run) ->
          exists r, In (true, r) rest /\ w = reason_or_default r).
Proof.
  intros paused why rest run. subst run.
  assert (E : watch_pause None ((paused, why) :: rest)
              = watch_pause (Some paused) rest).
  { cbn [watch_pause _handle_risk_pause_state].
    destruct (watch_pause (Some paused) rest). reflexivity. }
  rewrite E. split; [reflexivity |]. apply watch_pause_from.
Qed.

End PauseWatchProps.

(** ** The engine's step *)

Module EngineProps.
Import Connector Num Config Format Constants Idempotency Persistence Execution
  Limits Risk Engine EngineSpec.

Lemma orders_of_app (xs ys : list event) :
  orders_of (xs ++ ys) = (orders_of xs ++ orders_of ys)%list.
Proof. unfold orders_of. apply flat_map_app. Qed.

Lemma orders_of_quiet (evs : list event) :
  broker_calls evs = 0%nat -> orders_of evs = [].
Proof.
  unfold broker_calls.
  induction evs as [|e evs IH]; [reflexivity |].
  destruct e; cbn; intros H; try discriminate H; now apply IH.
Qed.

Lemma orders_of_retries {T : Type} (fn : nat -> outcome T) (req : OrderRequest)
  (max : Z) (backoff : list Q) :
  Forall (eq req)
    (orders_of (snd (call_with_retries fn (EvPlaceOrder req) max backoff))).
Proof.
  unfold call_with_retries.
  pose proof (DispatchProps.retry_loop_events fn (EvPlaceOrder req) max backoff
                (Z.to_nat max) 1 None) as Hall.
  induction Hall as [|e evs He _ IH]; [constructor |].
  destruct He as [-> | [d ->]]; cbn.
  - constructor; [reflexivity | exact IH].
  - exact IH.
Qed.

Section Steps.

Variable F : Renderer.
Variable cfg : AppConfig.

(** What [open_trade] and [close_trade] add to the trace holds one request,
    possibly sent several times. *)
Ltac quiet req evs :=
  exists evs, req; cbn [fst trace emit];
  try rewrite app_nil_r;
  split; [reflexivity | split; [constructor | reflexivity]].

Ltac sent req evs Hre :=
  exists (EvAccountInfo :: evs)%list, req;
  cbn [fst trace emit set_decisions _update_decision decisions];
  rewrite <- !app_assoc;
  split; [reflexivity | split; [exact Hre | reflexivity]].

Ltac past_the_gate b req :=
  destruct (try_insert _ _) as [rows inserted];
  destruct inserted; cbn [negb];
  [| quiet req [EvAccountInfo]];
  let Hre := fresh "Hre" in
  pose proof (orders_of_retries (fun i => place_order b i req) req
                (max_attempts (retries (execution cfg)))
                (backoff_seconds (retries (execution cfg)))) as Hre;
  destruct (call_with_retries _ _ _ _) as [res evs]; cbn [snd] in Hre;
  destruct res as [r|exc]; [| sent req evs Hre];
  destruct (success r); cbn [negb]; [| sent req evs Hre];
  let after := fresh "after" in
  let Hq := fresh "Hq" in
  match goal with
  | |- context [_verify_open cfg b ?w' ?s] =>
      destruct (ExecutionProps.verify_open_shape cfg b w' s)
        as [after [-> Hq]]
  | |- context [_verify_closed b ?w' ?p] =>
      destruct (ExecutionProps.verify_closed_shape b w' p)
        as [after [-> Hq]]
  end;
  exists (EvAccountInfo :: evs ++ after)%list, req;
  cbn [fst trace emit set_decisions _update_decision decisions];
  rewrite <- !app_assoc;
  split; [reflexivity | split; [| reflexivity]];
  change (EvAccountInfo :: evs ++ after)%list
    with ([EvAccountInfo] ++ evs ++ after)%list;
  rewrite !orders_of_app, (orders_of_quiet after Hq), app_nil_r;
  exact Hre.

Lemma open_trade_orders (b : Broker) (a : DecisionArgs) (side : Side)
  (volume : Q) (sl tp : option Q) (qb qa : Q) (w : World) :
  exists evs req,
    trace (fst (open_trade F cfg b a side volume sl tp qb qa w))
    = (trace w ++ evs)%list
    /\ Forall (eq req) (orders_of evs)
    /\ req = {| req_symbol := arg_symbol a; req_side := side;
                req_volume := volume; req_sl := sl; req_tp := tp;
                deviation_points := slippage_points (execution cfg);
                req_magic := magic_number (execution cfg);
                req_comment :=
                  "tb:" ++ String.substring 0 12 (arg_idempotency_key a);
                req_idempotency_key := arg_idempotency_key a;
                req_position_id := None |}.
Proof.
  set (req := {| req_symbol := arg_symbol a; req_position_id := None |}).
  unfold open_trade. fold req.
  destruct (trading_enabled (execution cfg)); cbn [negb]; [| quiet req (@nil event)].
  destruct (account_info b) as [ai|e]; [| quiet req [EvAccountInfo]].
  destruct ai as [info|].
  - destruct (paper_account (trade_mode info)); cbn [negb];
      [| quiet req [EvAccountInfo]].
    past_the_gate b req.
  - past_the_gate b req.
Qed.

Lemma close_trade_orders (b : Broker) (a : DecisionArgs) (pid : Z)
  (side : Side) (volume : Q) (reason : string) (w : World) :
  exists evs req,
    trace (fst (close_trade F cfg b a pid side volume reason w))
    = (trace w ++ evs)%list
    /\ Forall (eq req) (orders_of evs)
    /\ req = {| req_symbol := arg_symbol a; req_side := side;
                req_volume := volume; req_sl := None; req_tp := None;
                deviation_points := slippage_points (execution cfg);
                req_magic := magic_number (execution cfg);
                req_comment :=
                  "tb:" ++ String.substring 0 12 (arg_idempotency_key a);
                req_idempotency_key := arg_idempotency_key a;
                req_position_id := Some pid |}.
Proof.
  set (req := {| req_symbol := arg_symbol a; req_position_id := Some pid |}).
  unfold close_trade. fold req.
  destruct (trading_enabled (execution cfg)); cbn [negb]; [| quiet req (@nil event)].
  destruct (account_info b) as [ai|e]; [| quiet req [EvAccountInfo]].
  destruct ai as [info|].
  - destruct (paper_account (trade_mode info)); cbn [negb];
      [| quiet req [EvAccountInfo]].
    past_the_gate b req.
  - past_the_gate b req.
Qed.

End Steps.

Lemma pos_by_symbol_own (magic : Z) (positions : list Position) (sym : string)
  (pos : Position) :
  pos_by_symbol magic positions !! sym = Some pos ->
  own magic positions sym pos.
Proof.
  unfold pos_by_symbol.
  assert (Hgen : forall ps seen (acc : gmap string Position),
             (forall s p, acc !! s = Some p -> own magic seen s p) ->
             forall s p,
               fold_left
                 (fun acc p =>
                    if other_magic (Some magic) (pos_magic p) then acc
                    else <[ pos_symbol p := p ]> acc) ps acc !! s = Some p ->
               own magic (seen ++ ps)%list s p).
  { induction ps as [|q ps IH]; intros seen acc Hacc s p.
    - rewrite app_nil_r. apply Hacc.
    - cbn [fold_left].
      change (seen ++ q :: ps)%list with (seen ++ [q] ++ ps)%list.
      rewrite app_assoc. apply IH. clear s p. intros s p.
      destruct (other_magic (Some magic) (pos_magic q)) eqn:Hm.
      + intros H. destruct (Hacc _ _ H) as [Hin Hrest].
        split; [apply in_or_app; now left | exact Hrest].
      + destruct (decide (pos_symbol q = s)) as [<- | Hne].
        * rewrite lookup_insert_eq. intros [= <-].
          split; [apply in_or_app; right; now left |].
          split; [reflexivity | exact Hm].
        * rewrite lookup_insert_ne by exact Hne. intros H.
          destruct (Hacc _ _ H) as [Hin Hrest].
          split; [apply in_or_app; now left | exact Hrest]. }
  intros H. apply (Hgen positions [] ∅); [| exact H].
  intros s p Hs. rewrite lookup_empty in Hs. discriminate Hs.
Qed.

Lemma check_entry_while_paused (F : Renderer) (cfg : AppConfig) (st : RiskState)
  (sym : string) (side : Side) (quote : Quote) (sm : SymbolMeta)
  (feats : gmap string Q) (positions : list Position)
  (account : option AccountInfo) :
  paused st = true ->
  allowed (fst (check_entry F cfg st sym side quote sm feats positions account))
  = false.
Proof.
  intros Hp. unfold check_entry.
  destruct (negb (side_eqb side LONG || side_eqb side SHORT)); [reflexivity |].
  rewrite Hp. reflexivity.
Qed.

Section Cycle.

Variable F : Renderer.
Variable cfg : AppConfig.
Variable sha256_hex : string -> string.
Variable fix1 : Q -> string.
Variable repr_sorted : list string -> string.
Variable scfg : Strategies.StrategyConfig.
Variable D : Dumps.
Variable cycle_id : string.
Variable timeframe : string.
Variable candle_close_iso : string.

Lemma close_held_orders (st : RiskState) (r : RankedSymbol) (nm : string)
  (feats : gmap string Q) (sig : Strategies.Signal) (pos : Position)
  (reason : string) (m : Moment) (w : World) :
  let out := close_held F cfg sha256_hex D cycle_id timeframe candle_close_iso
               st r nm feats sig pos reason m w in
  exists evs req,
    trace (fst (fst out)) = (trace w ++ evs)%list
    /\ Forall (eq req) (orders_of evs)
    /\ req_magic req = magic_number (execution cfg)
    /\ req_position_id req = Some (position_id pos)
    /\ req_symbol req = rs_symbol r
    /\ req_side req = close_side_of pos
    /\ req_volume req = pos_volume pos
    /\ req_sl req = None /\ req_tp req = None
    /\ (length (snd (fst out)) <= 1)%nat.
Proof.
  cbn zeta. unfold close_held.
  match goal with
  | |- context [close_trade F cfg ?b ?a ?pid ?sd ?v ?why w] =>
      destruct (close_trade_orders F cfg b a pid sd v why w)
        as [evs [req [Ht [Hf ->]]]];
      destruct (close_trade F cfg b a pid sd v why w) as [w1 rep]
  end.
  cbn [fst] in Ht. eexists evs, _.
  destruct rep as [rep|e]; [destruct (rep_success rep) |];
    unfold done; cbn [fst snd];
    (split; [exact Ht |]); (split; [exact Hf |]);
    cbn; repeat split; lia.
Qed.

Lemma enter_orders (st : RiskState) (positions : list Position)
  (account : option AccountInfo) (r : RankedSymbol) (nm : string)
  (feats : gmap string Q) (sig : Strategies.Signal) (quote : Quote)
  (sm : SymbolMeta) (m : Moment) (w : World) :
  let out := enter F cfg sha256_hex D cycle_id timeframe candle_close_iso
               st positions account r nm feats sig quote sm m w in
  let d := fst (check_entry F cfg st (rs_symbol r) (Strategies.side sig) quote
                  sm feats positions account) in
  exists evs req,
    trace (fst (fst out)) = (trace w ++ evs)%list
    /\ Forall (eq req) (orders_of evs)
    /\ (orders_of evs = [] \/ allowed d = true)
    /\ req_magic req = magic_number (execution cfg)
    /\ req_position_id req = None
    /\ req_symbol req = rs_symbol r
    /\ req_side req = Strategies.side sig
    /\ req_volume req = or_zero (decision_volume d)
    /\ req_sl req = decision_sl d /\ req_tp req = decision_tp d
    /\ (length (snd (fst out)) <= 1)%nat.
Proof.
  cbn zeta. unfold enter.
  set (d := fst (check_entry F cfg st (rs_symbol r) (Strategies.side sig) quote
                   sm feats positions account)).
  destruct (allowed d) eqn:Ha; cbn [negb].
  - match goal with
    | |- context [open_trade F cfg ?b ?a ?sd ?v ?sl ?tp ?qb ?qa w] =>
        destruct (open_trade_orders F cfg b a sd v sl tp qb qa w)
          as [evs [req [Ht [Hf ->]]]];
        destruct (open_trade F cfg b a sd v sl tp qb qa w) as [w1 rep]
    end.
    cbn [fst] in Ht. eexists evs, _.
    destruct rep as [rep|e]; [destruct (rep_success rep) |];
      unfold done; cbn [fst snd];
      (split; [exact Ht |]); (split; [exact Hf |]);
      (split; [now right |]); cbn; repeat split; lia.
  - exists [], {| req_symbol := rs_symbol r; req_side := Strategies.side sig;
                  req_volume := or_zero (decision_volume d);
                  req_sl := decision_sl d; req_tp := decision_tp d;
                  deviation_points := 0;
                  req_magic := magic_number (execution cfg);
                  req_comment := ""; req_idempotency_key := "";
                  req_position_id := None |}.
    unfold done. cbn [fst snd orders_of flat_map length].
    rewrite app_nil_r.
    split; [reflexivity |]. split; [constructor |]. split; [now left |].
    cbn. repeat split; lia.
Qed.

Variable registry : Strategies.StrategyRegistry.

Local Abbreviation act' :=
  (act F cfg sha256_hex D cycle_id timeframe candle_close_iso).
Local Abbreviation process_symbol' reg :=
  (process_symbol F cfg sha256_hex fix1 repr_sorted scfg reg D cycle_id
     timeframe candle_close_iso).
Local Abbreviation loop' reg :=
  (_process_top_symbols F cfg sha256_hex fix1 repr_sorted scfg reg D cycle_id
     timeframe candle_close_iso).

Lemma log_decision_trace (created : string) (r : RankedSymbol)
  (strategy : option string) (feats : gmap string Q) (sig : signal_doc)
  (risk : option risk_doc) (status key : string) (w : World) :
  trace (log_decision D cycle_id timeframe candle_close_iso created r strategy
           feats sig risk status key w) = trace w.
Proof. reflexivity. Qed.

Ltac nothing_sent :=
  exists (@nil event); unfold done; cbn [fst snd orders_of flat_map];
  rewrite ?log_decision_trace, app_nil_r;
  split; [reflexivity | constructor].

Lemma act_orders (mp : bool) (st : RiskState) (positions : list Position)
  (account : option AccountInfo) (r : RankedSymbol) (nm : string)
  (feats : gmap string Q) (sig : Strategies.Signal) (quote : Quote)
  (sm : SymbolMeta) (held : option Position) (m : Moment) (w : World) :
  exists evs,
    trace (fst (fst (act' mp st positions account r nm feats sig quote sm held
                       m w)))
    = (trace w ++ evs)%list
    /\ Forall (entitled F cfg st positions account r feats quote sm held)
         (orders_of evs).
Proof.
  assert (Hclose : forall held pos why w0,
             held = Some pos ->
             exists evs,
               trace (fst (fst (close_held F cfg sha256_hex D cycle_id timeframe
                                  candle_close_iso st r nm feats sig pos why m
                                  w0)))
               = (trace w0 ++ evs)%list
               /\ Forall (entitled F cfg st positions account r feats quote sm
                            held) (orders_of evs)).
  { intros held0 pos why w0 Hh.
    destruct (close_held_orders st r nm feats sig pos why m w0)
      as [evs [req [Ht [Hf [H1 [H2 [H3 [H4 [H5 [H6 [H7 _]]]]]]]]]]].
    exists evs. split; [exact Ht |].
    eapply List.Forall_impl; [| exact Hf]. intros ? <-.
    split; [exact H1 | left]. exists pos. tauto. }
  assert (Henter : forall (held : option Position) w0,
             exists evs,
               trace (fst (fst (enter F cfg sha256_hex D cycle_id timeframe
                                  candle_close_iso st positions account r nm
                                  feats sig quote sm m w0)))
               = (trace w0 ++ evs)%list
               /\ Forall (entitled F cfg st positions account r feats quote sm
                            held) (orders_of evs)).
  { intros held0 w0.
    destruct (enter_orders st positions account r nm feats sig quote sm m w0)
      as [evs [req [Ht [Hf [Hor [H1 [H2 [H3 [H4 [H5 [H6 [H7 _]]]]]]]]]]]].
    exists evs. split; [exact Ht |].
    destruct Hor as [-> | Ha]; [constructor |].
    eapply List.Forall_impl; [| exact Hf]. intros ? <-.
    split; [exact H1 | right]. rewrite H4. unfold enters_as. tauto. }
  unfold act.
  destruct mp; [nothing_sent |].
  destruct (side_eqb (Strategies.side sig) FLAT && has_exit_tag sig).
  { destruct (negb (close_on_exit_signal (execution cfg))); [nothing_sent |].
    destruct held as [pos|]; [| nothing_sent].
    now apply Hclose. }
  destruct (side_eqb (Strategies.side sig) LONG
            || side_eqb (Strategies.side sig) SHORT); [| nothing_sent].
  destruct held as [pos|]; [| apply Henter].
  destruct (negb (side_eqb (pos_side pos) (Strategies.side sig)));
    [| nothing_sent].
  destruct (Hclose (Some pos) pos "reversal" w eq_refl) as [evs1 [Ht1 Hf1]].
  destruct (close_held _ _ _ _ _ _ _ _ _ _ _ _ _ _ _ _) as [[w1 notes] out].
  cbn [fst] in Ht1.
  destruct out as [u|e].
  - destruct (Henter (Some pos) w1) as [evs2 [Ht2 Hf2]].
    destruct (enter _ _ _ _ _ _ _ _ _ _ _ _ _ _ _ _ _ _) as [[w2 notes2] out2].
    cbn [fst] in Ht2 |- *. exists (evs1 ++ evs2)%list.
    rewrite Ht2, Ht1, app_assoc. split; [reflexivity |].
    rewrite orders_of_app. apply Forall_app. split; assumption.
  - exists evs1. cbn [fst]. split; assumption.
Qed.

Lemma log_decision_rows (created : string) (r : RankedSymbol)
  (strategy : option string) (feats : gmap string Q) (sig : signal_doc)
  (risk : option risk_doc) (st key : string) (w : World) :
  exists rows,
    decisions (log_decision D cycle_id timeframe candle_close_iso created r
                 strategy feats sig risk st key w)
    = (decisions w ++ rows)%list
    /\ (length rows <= 1)%nat
    /\ Forall (fun row => logged_only row /\ symbol row = rs_symbol r
                          /\ status row = st) rows.
Proof.
  unfold log_decision, try_insert. cbn [idempotency_key].
  destruct (has_key (decisions w) key).
  - exists []. cbn. rewrite app_nil_r.
    split; [reflexivity | split; [lia | constructor]].
  - eexists [_]. cbn. split; [reflexivity |]. split; [lia |].
    repeat constructor.
Qed.

Lemma act_without_reversal (mp : bool) (st : RiskState)
  (positions : list Position) (account : option AccountInfo)
  (r : RankedSymbol) (nm : string) (feats : gmap string Q)
  (sig : Strategies.Signal) (quote : Quote) (sm : SymbolMeta)
  (held : option Position) (m : Moment) (w : World) :
  (forall pos, held = Some pos -> Strategies.side sig = FLAT) ->
  let out := act' mp st positions account r nm feats sig quote sm held m w in
  exists evs req,
    trace (fst (fst out)) = (trace w ++ evs)%list
    /\ Forall (eq req) (orders_of evs)
    /\ (orders_of evs = [] \/ req_position_id req <> None \/ held = None)
    /\ (length (snd (fst out)) <= 1)%nat.
Proof.
  intros Hflat. cbn zeta.
  set (blank_req := {| req_symbol := ""; req_side := FLAT; req_volume := 0%Q;
                       req_sl := None; req_tp := None; deviation_points := 0;
                       req_magic := 0; req_comment := "";
                       req_idempotency_key := ""; req_position_id := None |}).
  assert (Hnone : forall w0 : World,
             trace w0 = trace w ->
             exists evs req,
               trace (fst (fst (done w0 []))) = (trace w ++ evs)%list
               /\ Forall (eq req) (orders_of evs)
               /\ (orders_of evs = [] \/ req_position_id req <> None
                   \/ held = None)
               /\ (length (snd (fst (done w0 []))) <= 1)%nat).
  { intros w0 Hw0. exists [], blank_req. unfold done. cbn.
    rewrite app_nil_r. split; [exact Hw0 |]. split; [constructor |].
    split; [now left | lia]. }
  unfold act.
  destruct mp; [now apply Hnone |].
  destruct held as [pos|].
  - rewrite (Hflat pos eq_refl). cbn [side_eqb andb orb].
    destruct (has_exit_tag sig); [| now apply Hnone].
    destruct (negb (close_on_exit_signal (execution cfg))); [now apply Hnone |].
    destruct (close_held_orders st r nm feats sig pos (Strategies.sig_reason sig)
                m w)
      as [evs [req [Ht [Hf [_ [Hid [_ [_ [_ [_ [_ Hn]]]]]]]]]]].
    exists evs, req. split; [exact Ht |]. split; [exact Hf |].
    split; [| exact Hn]. right; left. rewrite Hid. discriminate.
  - destruct (side_eqb (Strategies.side sig) FLAT && has_exit_tag sig).
    { destruct (negb (close_on_exit_signal (execution cfg)));
        now apply Hnone. }
    destruct (side_eqb (Strategies.side sig) LONG
              || side_eqb (Strategies.side sig) SHORT); [| now apply Hnone].
    destruct (enter_orders st positions account r nm feats sig quote sm m w)
      as [evs [req [Ht [Hf [_ [_ [_ [_ [_ [_ [_ [_ Hn]]]]]]]]]]]].
    exists evs, req. split; [exact Ht |]. split; [exact Hf |].
    split; [| exact Hn]. right; now right.
Qed.

Lemma registry_get_default (nm : string) (s : Strategies.StrategyBase) :
  Strategies.registry_get repr_sorted (Strategies.default_registry fix1) nm
  = Returned s ->
  s = Strategies.TwoPoleMomentumStrategy
  \/ s = Strategies.RangeMeanReversionStrategy fix1.
Proof.
  unfold Strategies.registry_get, Strategies.default_registry.
  cbn [Strategies.strategies map Timeframes.dict_get Strategies.name
       Strategies.TwoPoleMomentumStrategy Strategies.RangeMeanReversionStrategy].
  destruct (String.eqb nm "two_pole_momentum"); [intros [= <-]; now left |].
  destruct (String.eqb nm "range_mean_reversion"); [intros [= <-]; now right |].
  discriminate.
Qed.

Lemma select_default (feats : gmap string Q)
  (selection : Strategies.StrategySelection) (s : Strategies.StrategyBase) :
  Strategies.select fix1 repr_sorted scfg (Strategies.default_registry fix1)
    feats = Returned selection ->
  Strategies.strategy selection = Some s ->
  s = Strategies.TwoPoleMomentumStrategy
  \/ s = Strategies.RangeMeanReversionStrategy fix1.
Proof.
  unfold Strategies.select.
  destruct (Strategies.mode scfg).
  - destruct (Strategies.registry_get _ _ _) as [s0|e] eqn:E; [| discriminate].
    intros [= <-]. cbn. intros [= <-]. exact (registry_get_default _ _ E).
  - cbn zeta. destruct (Qle_bool _ _).
    + destruct (Strategies.registry_get _ _ _) as [s0|e] eqn:E; [| discriminate].
      intros [= <-]. cbn. intros [= <-]. exact (registry_get_default _ _ E).
    + destruct (Qle_bool _ _).
      * destruct (Strategies.registry_get _ _ _) as [s0|e] eqn:E;
          [| discriminate].
        intros [= <-]. cbn. intros [= <-]. exact (registry_get_default _ _ E).
      * intros [= <-]. discriminate.
Qed.

Lemma process_symbol_orders (bundles : gmap string CandleBundle)
  (symbol_meta : gmap string SymbolMeta) (mp : bool) (st : RiskState)
  (positions : list Position) (account : option AccountInfo)
  (r : RankedSymbol) (m : Moment) (w : World) :
  exists evs,
    trace (fst (fst (process_symbol' registry bundles symbol_meta mp st
                       positions account r m w)))
    = (trace w ++ evs)%list
    /\ Forall (justified F cfg bundles symbol_meta st positions account r m)
         (orders_of evs).
Proof.
  unfold process_symbol.
  destruct (bundles !! rs_symbol r) as [bundle|] eqn:Hb; [| nothing_sent].
  destruct (candles_empty bundle); [nothing_sent |].
  destruct (quote_reply m) as [[quote|]|e] eqn:Hq; try nothing_sent.
  destruct (symbol_meta !! rs_symbol r) as [sm|] eqn:Hsm; [| nothing_sent].
  destruct (Strategies.select _ _ _ _ _) as [selection|e]; [| nothing_sent].
  destruct (Strategies.strategy selection) as [strat|]; [| nothing_sent].
  destruct (Strategies.sel_name selection) as [nm|]; [| nothing_sent].
  match goal with
  | |- context [act' mp st positions account r nm ?feats ?sig quote sm ?held
                  m w] =>
      destruct (act_orders mp st positions account r nm feats sig quote sm
                  held m w) as [evs [Ht Hf]]
  end.
  exists evs. split; [exact Ht |].
  eapply List.Forall_impl; [| exact Hf].
  intros req [Hm [[pos [Hh Hc]] | He]]; (split; [exact Hm |]).
  - left. exists pos. apply pos_by_symbol_own in Hh.
    split; [exact Hh |]. destruct Hh as [_ [Hs _]].
    unfold closes_held. rewrite Hs. tauto.
  - right. exists bundle, quote, sm. tauto.
Qed.

(** What holds of the requests of every iteration holds of the requests of
    the loop. *)
Lemma loop_orders (bundles : gmap string CandleBundle)
  (symbol_meta : gmap string SymbolMeta) (mp : bool) (st : RiskState)
  (positions : list Position) (account : option AccountInfo)
  (P : OrderRequest -> Prop) (selected : list (RankedSymbol * Moment)) :
  (forall r m w,
     In (r, m) selected ->
     exists evs,
       trace (fst (fst (process_symbol' registry bundles symbol_meta mp st
                          positions account r m w)))
       = (trace w ++ evs)%list
       /\ Forall P (orders_of evs)) ->
  forall w,
    exists evs,
      trace (fst (fst (loop' registry bundles symbol_meta mp st positions
                         account selected w)))
      = (trace w ++ evs)%list
      /\ Forall P (orders_of evs).
Proof.
  induction selected as [|[r m] rest IH]; intros Hstep w.
  - exists []. cbn. rewrite app_nil_r. split; [reflexivity | constructor].
  - cbn [_process_top_symbols].
    destruct (Hstep r m w (or_introl eq_refl)) as [evs1 [Ht1 Hf1]].
    destruct (process_symbol' registry bundles symbol_meta mp st positions
                account r m w) as [[w1 notes] out].
    cbn [fst] in Ht1. destruct out as [u|e].
    + destruct (IH (fun r' m' w' H => Hstep r' m' w' (or_intror H)) w1)
        as [evs2 [Ht2 Hf2]].
      destruct (loop' registry bundles symbol_meta mp st positions account
                  rest w1) as [[w2 notes2] out2].
      cbn [fst] in Ht2 |- *. exists (evs1 ++ evs2)%list.
      rewrite Ht2, Ht1, app_assoc. split; [reflexivity |].
      rewrite orders_of_app. apply Forall_app. split; assumption.
    + exists evs1. cbn [fst]. split; assumption.
Qed.

(** X28. Whatever the strategies signal, every request the engine hands to
    the broker while it works through the ranked symbols carries the bot's
    magic number and is entitled by one of the symbols: it closes in full a
    position of the bot's own that the cycle's position list shows on that
    symbol, or it opens, at the volume and levels of the decision, what
    [check_entry] allowed for that side on the quote just fetched. *)
Theorem every_order_is_a_close_or_an_allowed_entry :
  forall (bundles : gmap string CandleBundle)
         (symbol_meta : gmap string SymbolMeta) (manual_paused : bool)
         (st : RiskState) (positions : list Position)
         (account : option AccountInfo)
         (selected : list (RankedSymbol * Moment)) (w : World),
  exists evs,
    trace (fst (fst (loop' registry bundles symbol_meta manual_paused st
                       positions account selected w)))
    = (trace w ++ evs)%list
    /\ forall req,
         In req (orders_of evs) ->
         exists r m,
           In (r, m) selected
           /\ justified F cfg bundles symbol_meta st positions account r m req.
Proof.
  intros bundles symbol_meta mp st positions account selected w.
  destruct (loop_orders bundles symbol_meta mp st positions account
              (fun req =>
                 exists r m,
                   In (r, m) selected
                   /\ justified F cfg bundles symbol_meta st positions account
                        r m req)
              selected) with (w := w) as [evs [Ht Hf]].
  - intros r m w0 Hin.
    destruct (process_symbol_orders bundles symbol_meta mp st positions account
                r m w0) as [evs [Ht Hf]].
    exists evs. split; [exact Ht |].
    eapply List.Forall_impl; [| exact Hf].
    intros req Hj. exists r, m. split; assumption.
  - exists evs. split; [exact Ht |].
    now apply List.Forall_forall.
Qed.

(** X29. While the risk manager is paused the engine opens nothing: every
    request of the cycle closes in full a position of the bot's own that the
    position list shows, so exit signals still get through. *)
Theorem paused_risk_manager_lets_only_closes_through :
  forall (bundles : gmap string CandleBundle)
         (symbol_meta : gmap string SymbolMeta) (manual_paused : bool)
         (st : RiskState) (positions : list Position)
         (account : option AccountInfo)
         (selected : list (RankedSymbol * Moment)) (w : World),
    paused st = true ->
    exists evs,
      trace (fst (fst (loop' registry bundles symbol_meta manual_paused st
                         positions account selected w)))
      = (trace w ++ evs)%list
      /\ forall req,
           In req (orders_of evs) ->
           exists pos,
             In pos positions
             /\ other_magic (Some (magic_number (execution cfg))) (pos_magic pos)
                = false
             /\ closes_held pos req.
Proof.
  intros bundles symbol_meta mp st positions account selected w Hp.
  destruct (loop_orders bundles symbol_meta mp st positions account
              (fun req =>
                 exists pos,
                   In pos positions
                   /\ other_magic (Some (magic_number (execution cfg)))
                        (pos_magic pos) = false
                   /\ closes_held pos req)
              selected) with (w := w) as [evs [Ht Hf]].
  - intros r m w0 _.
    destruct (process_symbol_orders bundles symbol_meta mp st positions account
                r m w0) as [evs [Ht Hf]].
    exists evs. split; [exact Ht |].
    eapply List.Forall_impl; [| exact Hf].
    intros req [_ [[pos [[Hin [_ Hm]] Hc]] | [bundle [quote [sm [_ [_ [_ He]]]]]]]].
    + exists pos. tauto.
    + destruct He as [Ha _].
      rewrite check_entry_while_paused in Ha by exact Hp. discriminate Ha.
  - exists evs. split; [exact Ht |].
    now apply List.Forall_forall.
Qed.

Lemma process_symbol_manual_pause (bundles : gmap string CandleBundle)
  (symbol_meta : gmap string SymbolMeta) (st : RiskState)
  (positions : list Position) (account : option AccountInfo)
  (r : RankedSymbol) (m : Moment) (w : World) :
  let out := process_symbol' registry bundles symbol_meta true st positions
               account r m w in
  trace (fst (fst out)) = trace w
  /\ snd (fst out) = []
  /\ exists rows,
       decisions (fst (fst out)) = (decisions w ++ rows)%list
       /\ (length rows <= 1)%nat
       /\ Forall (fun row =>
                    logged_only row /\ symbol row = rs_symbol r
                    /\ (status row = DECISION_STATUS_RISK_BLOCKED
                        \/ status row = DECISION_STATUS_NO_SIGNAL)) rows.
Proof.
  cbn zeta.
  assert (Hnone : forall out : outcome unit,
             trace (fst (fst (w, @nil (trade_note * string), out))) = trace w
             /\ snd (fst (w, @nil (trade_note * string), out)) = []
             /\ exists rows,
                  decisions (fst (fst (w, @nil (trade_note * string), out)))
                  = (decisions w ++ rows)%list
                  /\ (length rows <= 1)%nat
                  /\ Forall (fun row =>
                               logged_only row /\ symbol row = rs_symbol r
                               /\ (status row = DECISION_STATUS_RISK_BLOCKED
                                   \/ status row = DECISION_STATUS_NO_SIGNAL))
                       rows).
  { intros out. split; [reflexivity |]. split; [reflexivity |].
    exists []. cbn. rewrite app_nil_r.
    split; [reflexivity | split; [lia | constructor]]. }
  assert (Hlog : forall created strategy feats sig risk status0 key,
             status0 = DECISION_STATUS_RISK_BLOCKED
             \/ status0 = DECISION_STATUS_NO_SIGNAL ->
             let out := done (log_decision D cycle_id timeframe candle_close_iso
                                created r strategy feats sig risk status0 key w)
                          [] in
             trace (fst (fst out)) = trace w
             /\ snd (fst out) = []
             /\ exists rows,
                  decisions (fst (fst out)) = (decisions w ++ rows)%list
                  /\ (length rows <= 1)%nat
                  /\ Forall (fun row =>
                               logged_only row /\ symbol row = rs_symbol r
                               /\ (status row = DECISION_STATUS_RISK_BLOCKED
                                   \/ status row = DECISION_STATUS_NO_SIGNAL))
                       rows).
  { intros created strategy feats sig risk status0 key Hst. cbn zeta.
    unfold done. cbn [fst snd].
    split; [apply log_decision_trace |]. split; [reflexivity |].
    destruct (log_decision_rows created r strategy feats sig risk status0 key w)
      as [rows [Hd [Hl Hf]]].
    exists rows. split; [exact Hd |]. split; [exact Hl |].
    eapply List.Forall_impl; [| exact Hf].
    intros row [H1 [H2 H3]]. rewrite H3. tauto. }
  unfold process_symbol.
  destruct (bundles !! rs_symbol r) as [bundle|]; [| apply Hnone].
  destruct (candles_empty bundle); [apply Hnone |].
  destruct (quote_reply m) as [[quote|]|e]; try apply Hnone.
  destruct (symbol_meta !! rs_symbol r) as [sm|]; [| apply Hnone].
  destruct (Strategies.select _ _ _ _ _) as [selection|e]; [| apply Hnone].
  destruct (Strategies.strategy selection) as [strat|];
    [| apply Hlog; now right].
  destruct (Strategies.sel_name selection) as [nm|];
    [| apply Hlog; now right].
  unfold act. apply Hlog. now left.
Qed.

(** X27. Under a manual pause the engine reaches neither the broker nor the
    notifier, whatever the strategies signal and whatever positions are
    held: the trace is as it was and nothing is sent.  All it does is log, per
    ranked symbol, at most one decision without order and result, with status
    risk-blocked, or no-signal where no strategy was selected; in
    particular an exit signal on a held position closes nothing. *)
Theorem manual_pause_only_logs :
  forall (bundles : gmap string CandleBundle)
         (symbol_meta : gmap string SymbolMeta) (st : RiskState)
         (positions : list Position) (account : option AccountInfo)
         (selected : list (RankedSymbol * Moment)) (w : World),
    let out := loop' registry bundles symbol_meta true st positions account
                 selected w in
    trace (fst (fst out)) = trace w
    /\ snd (fst out) = []
    /\ exists rows,
         decisions (fst (fst out)) = (decisions w ++ rows)%list
         /\ (length rows <= length selected)%nat
         /\ Forall (fun row =>
                      logged_only row
                      /\ In (symbol row)
                           (map (fun s => rs_symbol (fst s)) selected)
                      /\ (status row = DECISION_STATUS_RISK_BLOCKED
                          \/ status row = DECISION_STATUS_NO_SIGNAL)) rows.
Proof.
  intros bundles symbol_meta st positions account selected. cbn zeta.
  induction selected as [|[r m] rest IH]; intros w.
  - cbn. split; [reflexivity |]. split; [reflexivity |].
    exists []. rewrite app_nil_r.
    split; [reflexivity | split; [apply Nat.le_refl | constructor]].
  - cbn [_process_top_symbols].
    destruct (process_symbol_manual_pause bundles symbol_meta st positions
                account r m w) as [Ht1 [Hn1 [rows1 [Hd1 [Hl1 Hf1]]]]].
    assert (Hf1' : Forall (fun row =>
                             logged_only row
                             /\ In (symbol row)
                                  (map (fun s => rs_symbol (fst s))
                                     ((r, m) :: rest))
                             /\ (status row = DECISION_STATUS_RISK_BLOCKED
                                 \/ status row = DECISION_STATUS_NO_SIGNAL))
                     rows1).
    { eapply List.Forall_impl; [| exact Hf1].
      intros row [H1 [H2 H3]]. split; [exact H1 |]. split; [| exact H3].
      left. now symmetry. }
    destruct (process_symbol' registry bundles symbol_meta true st positions
                account r m w) as [[w1 notes] out].
    cbn [fst snd] in Ht1, Hn1, Hd1. subst notes.
    destruct out as [u|e].
    + destruct (IH w1) as [Ht2 [Hn2 [rows2 [Hd2 [Hl2 Hf2]]]]].
      destruct (loop' registry bundles symbol_meta true st positions account
                  rest w1) as [[w2 notes2] out2].
      cbn [fst snd] in Ht2, Hn2, Hd2 |- *. subst notes2.
      split; [now rewrite Ht2 |]. split; [reflexivity |].
      exists (rows1 ++ rows2)%list.
      split; [now rewrite Hd2, Hd1, app_assoc |].
      split; [rewrite length_app; cbn [length]; lia |].
      apply Forall_app. split; [exact Hf1' |].
      eapply List.Forall_impl; [| exact Hf2].
      intros row [H1 [H2 H3]]. split; [exact H1 |]. split; [| exact H3].
      now right.
    + cbn [fst snd]. split; [exact Ht1 |]. split; [reflexivity |].
      exists rows1. split; [exact Hd1 |].
      split; [cbn [length]; lia | exact Hf1'].
Qed.

(** X30. With the registry the engine is built with, one ranked symbol leads
    to at most one request, sent again only by the retry wrapper, and to at
    most one notification; the request is an entry only when the position
    list shows no position of the bot on the symbol.  The reversal branch of
    the engine, a close followed by an entry in the same iteration, is
    therefore never taken. *)
Theorem engine_strategies_never_reverse :
  forall (bundles : gmap string CandleBundle)
         (symbol_meta : gmap string SymbolMeta) (manual_paused : bool)
         (st : RiskState) (positions : list Position)
         (account : option AccountInfo) (r : RankedSymbol) (m : Moment)
         (w : World),
    let out := process_symbol' (Strategies.default_registry fix1) bundles
                 symbol_meta manual_paused st positions account r m w in
    exists evs,
      trace (fst (fst out)) = (trace w ++ evs)%list
      /\ (forall req req',
            In req (orders_of evs) -> In req' (orders_of evs) -> req = req')
      /\ (forall req,
            In req (orders_of evs) ->
            req_position_id req = None ->
            pos_by_symbol (magic_number (execution cfg)) positions
              !! rs_symbol r = None)
      /\ (length (snd (fst out)) <= 1)%nat.
Proof.
  intros bundles symbol_meta mp st positions account r m w. cbn zeta.
  assert (Hnone : forall (w0 : World) (out : outcome unit),
             trace w0 = trace w ->
             exists evs,
               trace (fst (fst (w0, @nil (trade_note * string), out)))
               = (trace w ++ evs)%list
               /\ (forall req req',
                     In req (orders_of evs) -> In req' (orders_of evs) ->
                     req = req')
               /\ (forall req,
                     In req (orders_of evs) ->
                     req_position_id req = None ->
                     pos_by_symbol (magic_number (execution cfg)) positions
                       !! rs_symbol r = None)
               /\ (length (snd (fst (w0, @nil (trade_note * string), out)))
                   <= 1)%nat).
  { intros w0 out Hw0. exists []. cbn. rewrite app_nil_r.
    split; [exact Hw0 |]. split; [intros ? ? [] |]. split; [intros ? [] | lia]. }
  unfold process_symbol.
  destruct (bundles !! rs_symbol r) as [bundle|]; [| now apply Hnone].
  destruct (candles_empty bundle); [now apply Hnone |].
  destruct (quote_reply m) as [[quote|]|e]; try now apply Hnone.
  destruct (symbol_meta !! rs_symbol r) as [sm|]; [| now apply Hnone].
  destruct (Strategies.select _ _ _ _ _) as [selection|e] eqn:Hsel;
    [| now apply Hnone].
  destruct (Strategies.strategy selection) as [strat|] eqn:Hstrat;
    [| now apply Hnone].
  destruct (Strategies.sel_name selection) as [nm|]; [| now apply Hnone].
  match goal with
  | |- context [act' mp st positions account r nm ?feats ?sig quote sm ?held
                  m w] =>
      destruct (act_without_reversal mp st positions account r nm feats sig
                  quote sm held m w) as [evs [req [Ht [Hf [Hor Hn]]]]]
  end.
  { intros pos Hpos.
    match goal with
    | |- Strategies.side (Strategies.generate_signal strat ?feats ?ctx) = FLAT =>
        assert (Hord : StrategySpec.orderly ctx
                         (Strategies.generate_signal strat feats ctx))
    end.
    { destruct (select_default _ _ _ Hsel Hstrat) as [-> | ->].
      - apply StrategyProps.two_pole_momentum_orderly.
      - apply StrategyProps.range_mean_reversion_orderly. }
    destruct Hord as [_ [Hheld _]]. apply (Hheld pos). exact Hpos. }
  exists evs. split; [exact Ht |].
  rewrite List.Forall_forall in Hf.
  split; [intros q q' Hq Hq'; now rewrite <- (Hf q Hq), <- (Hf q' Hq') |].
  split; [| exact Hn].
  intros q Hq Hid. rewrite <- (Hf q Hq) in Hid.
  destruct Hor as [He | [Hne | Hh]].
  - rewrite He in Hq. destruct Hq.
  - contradiction.
  - exact Hh.
Qed.

End Cycle.

Lemma paused_risk_manager_witness :
  paused EngineScenarios.paused_state = true
  /\ broker_calls
       (trace (fst (fst (EngineScenarios.exit_cycle false
                           EngineScenarios.paused_state)))) = 1%nat
  /\ exists evs,
       trace (fst (fst (EngineScenarios.exit_cycle false
                          EngineScenarios.paused_state)))
       = (trace Examples.empty_world ++ evs)%list
       /\ forall req,
            In req (orders_of evs) ->
            exists pos,
              In pos [EngineScenarios.held_long]
              /\ other_magic
                   (Some (magic_number (execution Examples.trading_config)))
                   (pos_magic pos) = false
              /\ closes_held pos req.
Proof.
  split; [reflexivity |]. split; [vm_compute; reflexivity |].
  unfold EngineScenarios.exit_cycle.
  apply paused_risk_manager_lets_only_closes_through.
  reflexivity.
Defined.

End EngineProps.
